(** * mind-search-agent: a shallow embedding of the research workflow

    The development follows the TypeScript sources:
    - [state.ts]   : the zod schemas and the LangGraph state annotation
                     (one reducer per channel);
    - [graph.ts]   : the node graph, its edges and [routeAfterHumanReview];
    - [nodes/*.ts] : the seven stage functions;
    - [tools/*.ts] : [chunkText], [retrieveFromVectorDB], [scrapeUrls];
    - [index.ts]   : the driver around the human review interrupt.

    Conventions.  JavaScript numbers that hold counters and indices are [Z];
    relevance scores and distances are finite numbers and are modelled as [Q];
    strings are [string] (one [ascii] per code unit); a [Set<string>] is a
    [gset string]; a [Map] whose iteration order is observed is an insertion
    ordered list.  External services (LLM, Tavily, fetch, Chroma, stdin, the
    clock) are explicit arguments of the stage that calls them. *)

From Stdlib Require Import ZArith QArith Qminmax Lia Ascii String List Sorted Permutation.
From stdpp Require Import base decidable option list gmap sets strings pretty.

Set Warnings "-clear-no-such-hyp".
Close Scope Q_scope.
Local Open Scope string_scope.
Local Open Scope list_scope.
Local Open Scope Z_scope.

(* ===================================================================== *)
(** * JavaScript built-ins used by the sources *)
(* ===================================================================== *)

Module Js.

(** [WhiteSpace] and [LineTerminator] code units below 256: the class matched
    by [\s] and stripped by [String.prototype.trim]. *)
Definition isWhiteSpace (c : ascii) : bool :=
  let n := nat_of_ascii c in
  (Nat.eqb n 9 || Nat.eqb n 10 || Nat.eqb n 11 || Nat.eqb n 12
   || Nat.eqb n 13 || Nat.eqb n 32 || Nat.eqb n 160)%bool.

Fixpoint trimStart (s : string) : string :=
  match s with
  | EmptyString => EmptyString
  | String c s' => if isWhiteSpace c then trimStart s' else s
  end.

Fixpoint trimEnd (s : string) : string :=
  match s with
  | EmptyString => EmptyString
  | String c s' =>
      match trimEnd s' with
      | EmptyString => if isWhiteSpace c then EmptyString else String c EmptyString
      | t => String c t
      end
  end.

(** [s.trim()] *)
Definition trim (s : string) : string := trimEnd (trimStart s).

(** [s.length] *)
Definition strlen (s : string) : Z := Z.of_nat (String.length s).

(** [s.slice(0, n)] for a literal [n >= 0]. *)
Definition sliceTo (n : nat) (s : string) : string := String.substring 0 n s.

Definition upperChar (c : ascii) : ascii :=
  let n := nat_of_ascii c in
  if (Nat.leb 97 n && Nat.leb n 122)%bool then ascii_of_nat (n - 32) else c.

(** [s.toUpperCase()] on the ASCII letters. *)
Fixpoint toUpperCase (s : string) : string :=
  match s with
  | EmptyString => EmptyString
  | String c s' => String (upperChar c) (toUpperCase s')
  end.

(** [s.split(/\s+/)]: the pieces between maximal runs of white space; a
    leading or trailing run yields an empty first or last piece, and the
    empty string yields one empty piece. *)
Fixpoint splitWs (s : string) : list string :=
  match s with
  | EmptyString => [EmptyString]
  | String c s' =>
      let r := splitWs s' in
      if isWhiteSpace c then
        match s' with
        | String c' _ => if isWhiteSpace c' then r else EmptyString :: r
        | EmptyString => EmptyString :: r
        end
      else
        match r with
        | w :: ws => String c w :: ws
        | [] => [String c EmptyString]
        end
  end.

(** [words.join(" ")] *)
Fixpoint join (ws : list string) : string :=
  match ws with
  | [] => EmptyString
  | [w] => w
  | w :: ws' => String.append w (String " " (join ws'))
  end.

(** Relative index of [Array.prototype.slice]: negative counts from the end,
    everything is clamped to [0, len]. *)
Definition relIndex (len k : Z) : Z :=
  if k <? 0 then Z.max (len + k) 0 else Z.min k len.

(** [xs.slice(start, end)] *)
Definition slice {A} (xs : list A) (start stop : Z) : list A :=
  let len := Z.of_nat (length xs) in
  let a := relIndex len start in
  let b := relIndex len stop in
  take (Z.to_nat (b - a)) (drop (Z.to_nat a) xs).

(** Insertion of [x] in front of the first element it does not have to
    follow.  [le x y] is [comparator(x, y) <= 0]. *)
Fixpoint insertBy {A} (le : A -> A -> bool) (x : A) (l : list A) : list A :=
  match l with
  | [] => [x]
  | y :: l' => if le x y then x :: l else y :: insertBy le x l'
  end.

(** [xs.sort(comparator)]: the sort of the ECMAScript specification is
    stable, so for a consistent comparator its result is the one computed
    here, whatever algorithm the engine runs. *)
Fixpoint sortBy {A} (le : A -> A -> bool) (l : list A) : list A :=
  match l with
  | [] => []
  | x :: l' => insertBy le x (sortBy le l')
  end.

(** [[...new Set(xs)]]: the distinct elements in order of first occurrence. *)
Fixpoint uniqueFrom (seen : gset string) (xs : list string) : list string :=
  match xs with
  | [] => []
  | x :: xs' =>
      if decide (x ∈ seen) then uniqueFrom seen xs'
      else x :: uniqueFrom ({[x]} ∪ seen) xs'
  end.

Definition arrayFromSet (xs : list string) : list string := uniqueFrom ∅ xs.

(** [Math.ceil(a / b)] for integers [a] and [b > 0]. *)
Definition ceilDiv (a b : Z) : Z := - ((- a) / b).

End Js.

(* ===================================================================== *)
(** * Data model ([state.ts]) *)
(* ===================================================================== *)

Inductive Priority := high | medium | low.

Module SubQuery.
Record t := mk {
  id : string;
  query : string;
  rationale : string;
  priority : Priority }.
End SubQuery.

Module SearchResult.
Record t := mk {
  url : string;
  title : string;
  snippet : string;
  score : option Q;
  publishedDate : option string }.
End SearchResult.

Module ScrapedContent.
Record t := mk {
  url : string;
  title : string;
  content : string;
  scrapedAt : string;
  wordCount : Z;
  error : option string }.
End ScrapedContent.

Module ChunkMetadata.
Record t := mk {
  url : string;
  title : string;
  subQueryId : string;
  chunkIndex : Z }.
End ChunkMetadata.

Module RetrievedChunk.
Record t := mk {
  content : string;
  metadata : ChunkMetadata.t;
  relevanceScore : Q }.
End RetrievedChunk.

Module Citation.
Record t := mk {
  id : Z;
  url : string;
  title : string;
  quote : option string }.
End Citation.

Module ReportSection.
Record t := mk {
  title : string;
  content : string;
  citations : list Z }.
End ReportSection.

Module ReportMetadata.
Record t := mk {
  totalSources : Z;
  subQueriesAnswered : Z;
  generatedAt : string;
  iterationCount : Z }.
End ReportMetadata.

Module ResearchReport.
Record t := mk {
  title : string;
  executiveSummary : string;
  sections : list ReportSection.t;
  conclusions : string;
  citations : list Citation.t;
  metadata : ReportMetadata.t }.
End ResearchReport.

Module HumanFeedback.
Record t := mk {
  approved : bool;
  feedback : option string;
  requestedChanges : option (list string);
  timestamp : string }.
End HumanFeedback.

Module NodeStatus.
Inductive t :=
  | idle | reasoning | searching | scraping | storing | retrieving
  | synthesizing | awaiting_human | complete | error.
End NodeStatus.

(** The channels of [ResearchStateAnnotation].  The [messages] channel is
    left out: no stage reads or writes it. *)
Module ResearchState.
Record t := mk {
  researchQuestion : string;
  subQueries : list SubQuery.t;
  searchResults : list SearchResult.t;
  scrapedContent : list ScrapedContent.t;
  storedChunkIds : list string;
  retrievedChunks : list RetrievedChunk.t;
  draftReport : option ResearchReport.t;
  humanFeedback : option HumanFeedback.t;
  currentNode : NodeStatus.t;
  iterationCount : Z;
  errors : list string;
  finalReport : option ResearchReport.t }.

(** The [default] of every channel. *)
Definition initial : t :=
  {| researchQuestion := "";
     subQueries := [];
     searchResults := [];
     scrapedContent := [];
     storedChunkIds := [];
     retrievedChunks := [];
     draftReport := None;
     humanFeedback := None;
     currentNode := NodeStatus.idle;
     iterationCount := 0;
     errors := [];
     finalReport := None |}.
End ResearchState.

(** [Partial<ResearchState>]: what a stage returns.  [None] is an absent
    key; for the nullable channels [Some None] is the key set to [null]. *)
Module Update.
Record t := mk {
  researchQuestion : option string;
  subQueries : option (list SubQuery.t);
  searchResults : option (list SearchResult.t);
  scrapedContent : option (list ScrapedContent.t);
  storedChunkIds : option (list string);
  retrievedChunks : option (list RetrievedChunk.t);
  draftReport : option (option ResearchReport.t);
  humanFeedback : option (option HumanFeedback.t);
  currentNode : option NodeStatus.t;
  iterationCount : option Z;
  errors : option (list string);
  finalReport : option (option ResearchReport.t) }.

(** The object with no key. *)
Definition empty : t :=
  mk None None None None None None None None None None None None.
End Update.

(* ===================================================================== *)
(** * The reducers and the state merge ([state.ts], LangGraph channels) *)
(* ===================================================================== *)

Module Reducer.

(** [(_, next) => next] *)
Definition replace {A} (_ next : A) : A := next.

(** [(curr, next) => [...curr, ...next]] *)
Definition append {A} (curr next : list A) : list A := curr ++ next.

(** [(curr, next) => [...new Set([...curr, ...next])]] *)
Definition appendUnique (curr next : list string) : list string :=
  Js.arrayFromSet (curr ++ next).

(** A channel is updated only when the update has its key. *)
Definition channel {A} (reducer : A -> A -> A) (curr : A) (next : option A) : A :=
  match next with
  | Some v => reducer curr v
  | None => curr
  end.

End Reducer.

(** The reducer declared for each channel, applied to a stage's update. *)
Definition applyUpdate (s : ResearchState.t) (u : Update.t) : ResearchState.t :=
  {| ResearchState.researchQuestion :=
       Reducer.channel Reducer.replace (ResearchState.researchQuestion s) (Update.researchQuestion u);
     ResearchState.subQueries :=
       Reducer.channel Reducer.replace (ResearchState.subQueries s) (Update.subQueries u);
     ResearchState.searchResults :=
       Reducer.channel Reducer.append (ResearchState.searchResults s) (Update.searchResults u);
     ResearchState.scrapedContent :=
       Reducer.channel Reducer.append (ResearchState.scrapedContent s) (Update.scrapedContent u);
     ResearchState.storedChunkIds :=
       Reducer.channel Reducer.appendUnique (ResearchState.storedChunkIds s) (Update.storedChunkIds u);
     ResearchState.retrievedChunks :=
       Reducer.channel Reducer.replace (ResearchState.retrievedChunks s) (Update.retrievedChunks u);
     ResearchState.draftReport :=
       Reducer.channel Reducer.replace (ResearchState.draftReport s) (Update.draftReport u);
     ResearchState.humanFeedback :=
       Reducer.channel Reducer.replace (ResearchState.humanFeedback s) (Update.humanFeedback u);
     ResearchState.currentNode :=
       Reducer.channel Reducer.replace (ResearchState.currentNode s) (Update.currentNode u);
     ResearchState.iterationCount :=
       Reducer.channel Reducer.replace (ResearchState.iterationCount s) (Update.iterationCount u);
     ResearchState.errors :=
       Reducer.channel Reducer.append (ResearchState.errors s) (Update.errors u);
     ResearchState.finalReport :=
       Reducer.channel Reducer.replace (ResearchState.finalReport s) (Update.finalReport u) |}.

(** A run of the merge over the updates of successive stages. *)
Definition applyUpdates (s : ResearchState.t) (us : list Update.t) : ResearchState.t :=
  fold_left applyUpdate us s.

(** [Object.assign(state, reviewResult)] of [index.ts]: every key of the
    update overwrites the field. *)
Definition objectAssign (s : ResearchState.t) (u : Update.t) : ResearchState.t :=
  {| ResearchState.researchQuestion :=
       Reducer.channel Reducer.replace (ResearchState.researchQuestion s) (Update.researchQuestion u);
     ResearchState.subQueries :=
       Reducer.channel Reducer.replace (ResearchState.subQueries s) (Update.subQueries u);
     ResearchState.searchResults :=
       Reducer.channel Reducer.replace (ResearchState.searchResults s) (Update.searchResults u);
     ResearchState.scrapedContent :=
       Reducer.channel Reducer.replace (ResearchState.scrapedContent s) (Update.scrapedContent u);
     ResearchState.storedChunkIds :=
       Reducer.channel Reducer.replace (ResearchState.storedChunkIds s) (Update.storedChunkIds u);
     ResearchState.retrievedChunks :=
       Reducer.channel Reducer.replace (ResearchState.retrievedChunks s) (Update.retrievedChunks u);
     ResearchState.draftReport :=
       Reducer.channel Reducer.replace (ResearchState.draftReport s) (Update.draftReport u);
     ResearchState.humanFeedback :=
       Reducer.channel Reducer.replace (ResearchState.humanFeedback s) (Update.humanFeedback u);
     ResearchState.currentNode :=
       Reducer.channel Reducer.replace (ResearchState.currentNode s) (Update.currentNode u);
     ResearchState.iterationCount :=
       Reducer.channel Reducer.replace (ResearchState.iterationCount s) (Update.iterationCount u);
     ResearchState.errors :=
       Reducer.channel Reducer.replace (ResearchState.errors s) (Update.errors u);
     ResearchState.finalReport :=
       Reducer.channel Reducer.replace (ResearchState.finalReport s) (Update.finalReport u) |}.

(** The update every stage returns from its [catch]. *)
Definition errorUpdate (message : string) (node : NodeStatus.t) : Update.t :=
  {| Update.researchQuestion := None; Update.subQueries := None;
     Update.searchResults := None; Update.scrapedContent := None;
     Update.storedChunkIds := None; Update.retrievedChunks := None;
     Update.draftReport := None; Update.humanFeedback := None;
     Update.currentNode := Some node; Update.iterationCount := None;
     Update.errors := Some [message]; Update.finalReport := None |}.

(** An update that only moves the stage marker. *)
Definition markerUpdate (node : NodeStatus.t) : Update.t :=
  {| Update.researchQuestion := None; Update.subQueries := None;
     Update.searchResults := None; Update.scrapedContent := None;
     Update.storedChunkIds := None; Update.retrievedChunks := None;
     Update.draftReport := None; Update.humanFeedback := None;
     Update.currentNode := Some node; Update.iterationCount := None;
     Update.errors := None; Update.finalReport := None |}.

(* ===================================================================== *)
(** * Routing after the human review ([graph.ts]) *)
(* ===================================================================== *)

Inductive Route := to_reasoning | to_end.

(** [humanFeedback?.approved] *)
Definition feedbackApproved (f : option HumanFeedback.t) : bool :=
  match f with
  | Some h => HumanFeedback.approved h
  | None => false
  end.

(** [!humanFeedback] *)
Definition noFeedback (f : option HumanFeedback.t) : bool :=
  match f with
  | Some _ => false
  | None => true
  end.

(** [MAX_ITERATIONS] is read from the environment (3 when unset) and is an
    argument here. *)
Definition routeAfterHumanReview (MAX_ITERATIONS : Z) (state : ResearchState.t) : Route :=
  let humanFeedback := ResearchState.humanFeedback state in
  let iterationCount := ResearchState.iterationCount state in
  if (feedbackApproved humanFeedback || noFeedback humanFeedback)%bool then to_end
  else if iterationCount >=? MAX_ITERATIONS then to_end
  else to_reasoning.

(* ===================================================================== *)
(** * Results of external calls *)
(* ===================================================================== *)

(** An awaited promise: fulfilled with a value or rejected with an error
    whose [message] is kept. *)
Inductive Result (A : Type) :=
  | Ok (a : A)
  | Throw (message : string).
Arguments Ok {A} a.
Arguments Throw {A} message.

(** [await Promise.all(ps)]: all the values, or the rejection of one of the
    promises (the first in order here; which one wins the race only changes
    the message). *)
Fixpoint promiseAll {A} (ps : list (Result A)) : Result (list A) :=
  match ps with
  | [] => Ok []
  | Ok a :: ps' =>
      match promiseAll ps' with
      | Ok l => Ok (a :: l)
      | Throw m => Throw m
      end
  | Throw m :: _ => Throw m
  end.

(* ===================================================================== *)
(** * Human review ([nodes/humanReview.ts]) *)
(* ===================================================================== *)

(** What a call of the node comes to: it returns an update, it ends the
    process ([process.exit(0)] on Q), or it is still waiting on stdin. *)
Inductive StageOutcome :=
  | Returned (u : Update.t)
  | Exited
  | Waiting.

(** The loop that reads change requests until an empty line.  [answers] are
    the lines typed at the terminal, as [getUserInput] returns them
    (trimmed). *)
Fixpoint readChanges (answers changes : list string) : option (list string) :=
  match answers with
  | [] => None
  | change :: rest =>
      if decide (change = "") then Some changes
      else readChanges rest (changes ++ [change])
  end.

Definition approveUpdate (now : string) (draftReport : ResearchReport.t) : Update.t :=
  {| Update.researchQuestion := None; Update.subQueries := None;
     Update.searchResults := None; Update.scrapedContent := None;
     Update.storedChunkIds := None; Update.retrievedChunks := None;
     Update.draftReport := None;
     Update.humanFeedback :=
       Some (Some {| HumanFeedback.approved := true;
                     HumanFeedback.feedback := Some "Report approved";
                     HumanFeedback.requestedChanges := None;
                     HumanFeedback.timestamp := now |});
     Update.currentNode := Some NodeStatus.complete;
     Update.iterationCount := None; Update.errors := None;
     Update.finalReport := Some (Some draftReport) |}.

Definition rejectUpdate (now feedbackText : string) (changes : list string) : Update.t :=
  {| Update.researchQuestion := None; Update.subQueries := None;
     Update.searchResults := None; Update.scrapedContent := None;
     Update.storedChunkIds := None;
     Update.retrievedChunks := Some [];
     Update.draftReport := Some None;
     Update.humanFeedback :=
       Some (Some {| HumanFeedback.approved := false;
                     HumanFeedback.feedback :=
                       Some (if decide (feedbackText = "")
                             then "Please improve the report" else feedbackText);
                     HumanFeedback.requestedChanges := Some changes;
                     HumanFeedback.timestamp := now |});
     Update.currentNode := Some NodeStatus.reasoning;
     Update.iterationCount := None; Update.errors := None;
     Update.finalReport := None |}.

(** [now] is the clock reading used for the timestamp. *)
Fixpoint humanReviewNode (now : string) (answers : list string)
    (state : ResearchState.t) : StageOutcome :=
  match ResearchState.draftReport state with
  | None => Returned (errorUpdate "No draft report available for review" NodeStatus.error)
  | Some draftReport =>
      match answers with
      | [] => Waiting
      | choice :: rest =>
          let normalizedChoice := Js.toUpperCase choice in
          if decide (normalizedChoice = "Q") then Exited
          else if decide (normalizedChoice = "A") then
            Returned (approveUpdate now draftReport)
          else if decide (normalizedChoice = "R") then
            match rest with
            | [] => Waiting
            | feedbackText :: rest' =>
                match readChanges rest' [] with
                | None => Waiting
                | Some changes => Returned (rejectUpdate now feedbackText changes)
                end
            end
          else humanReviewNode now rest state
      end
  end.

(** [state.finalReport ?? state.draftReport] of [main]: the report that is
    saved; [None] is the "No report was generated" exit. *)
Definition finalOutput (state : ResearchState.t) : option ResearchReport.t :=
  match ResearchState.finalReport state with
  | Some r => Some r
  | None => ResearchState.draftReport state
  end.

(* ===================================================================== *)
(** * Citations ([nodes/synthesis.ts]) *)
(* ===================================================================== *)

(** [urlToCitation.has(url)] on the insertion ordered map. *)
Definition hasUrl (urlToCitation : list Citation.t) (url : string) : bool :=
  bool_decide (url ∈ map Citation.url urlToCitation).

(** One guarded [urlToCitation.set] with [id: nextId++]. *)
Definition cite (acc : list Citation.t * Z) (url title : string) : list Citation.t * Z :=
  let '(urlToCitation, nextId) := acc in
  if hasUrl urlToCitation url then acc
  else (urlToCitation ++ [Citation.mk nextId url title None], nextId + 1).

(** The [citations] array of [buildCitationMap]; [citationText] is a
    rendering of it, one line per citation. *)
Definition buildCitationMap (state : ResearchState.t) : list Citation.t :=
  let fromChunks :=
    fold_left
      (fun acc chunk =>
         cite acc (ChunkMetadata.url (RetrievedChunk.metadata chunk))
                  (ChunkMetadata.title (RetrievedChunk.metadata chunk)))
      (ResearchState.retrievedChunks state) ([], 1) in
  let fromResults :=
    fold_left
      (fun acc result => cite acc (SearchResult.url result) (SearchResult.title result))
      (Js.slice (ResearchState.searchResults state) 0 20) fromChunks in
  fromResults.1.

(* ===================================================================== *)
(** * The vector tool ([tools/vectorTool.ts]) *)
(* ===================================================================== *)

(** The [for] loop of [chunkText], one unit of [fuel] per evaluation of its
    condition; [None] when the fuel runs out before the loop is left. *)
Fixpoint chunkLoop (fuel : nat) (words : list string) (chunkSize overlap i : Z)
    (chunks : list string) : option (list string) :=
  match fuel with
  | O => None
  | S fuel' =>
      if i <? Z.of_nat (length words) then
        let chunk := Js.join (Js.slice words i (i + chunkSize)) in
        let chunks' :=
          if 50 <? Js.strlen (Js.trim chunk) then chunks ++ [chunk] else chunks in
        if i + chunkSize >=? Z.of_nat (length words) then Some chunks'
        else chunkLoop fuel' words chunkSize overlap (i + (chunkSize - overlap)) chunks'
      else Some chunks
  end.

(** [chunkText(text, chunkSize, overlap)].  With a positive stride the loop
    is left within [words.length] iterations; the result is [None] exactly
    when the JavaScript loop does not terminate. *)
Definition chunkText (text : string) (chunkSize overlap : Z) : option (list string) :=
  let words := Js.splitWs text in
  chunkLoop (S (length words)) words chunkSize overlap 0 [].

(** The defaults of [CHUNK_SIZE] and [CHUNK_OVERLAP]. *)
Definition CHUNK_SIZE : Z := 1000.
Definition CHUNK_OVERLAP : Z := 200.

Module Chroma.

(** Entry [i] of the parallel arrays [documents[0]], [metadatas[0]] and
    [distances[0]] of a query response; a [null] document and a missing
    distance are [None]. *)
Record Row := mkRow {
  document : option string;
  metadata : ChunkMetadata.t;
  distance : option Q }.

(** The collection as the tool sees it: [col.count()] and, for a query
    embedding and [nResults], [col.query(...)]; the response is [None] when
    [results.documents?.[0]] is undefined. *)
Record Collection := mkCollection {
  count : Result Z;
  query : list Q -> Z -> Result (option (list Row)) }.

(** The requests a call sends to the store. *)
Inductive Call :=
  | CountCall
  | QueryCall (queryEmbedding : list Q) (nResults : Z).

End Chroma.

(** The module-level handles of the tool: the collection and the embedding
    model ([embed.embedQuery]). *)
Record VectorTool := mkVectorTool {
  getCollection : Chroma.Collection;
  embedQuery : string -> Result (list Q) }.

(** [Math.max(0, 1 - distance / 2)] *)
Definition relevanceOfDistance (distance : Q) : Q :=
  Qmax 0 (1 - distance / 2)%Q.

(** The callback of [results.documents[0].map]. *)
Definition rowToChunk (row : Chroma.Row) : RetrievedChunk.t :=
  let distance := default 1%Q (Chroma.distance row) in
  {| RetrievedChunk.content := default "" (Chroma.document row);
     RetrievedChunk.metadata := Chroma.metadata row;
     RetrievedChunk.relevanceScore := relevanceOfDistance distance |}.

(** [retrieveFromVectorDB(query, topK)] with the requests it issued. *)
Definition retrieveFromVectorDB (tool : VectorTool) (query : string) (topK : Z)
    : list Chroma.Call * Result (list RetrievedChunk.t) :=
  let col := getCollection tool in
  match Chroma.count col with
  | Throw m => ([Chroma.CountCall], Throw m)
  | Ok count =>
      if count =? 0 then ([Chroma.CountCall], Ok [])
      else
        match embedQuery tool query with
        | Throw m => ([Chroma.CountCall], Throw m)
        | Ok queryEmbedding =>
            let nResults := Z.min topK count in
            let calls := [Chroma.CountCall; Chroma.QueryCall queryEmbedding nResults] in
            match Chroma.query col queryEmbedding nResults with
            | Throw m => (calls, Throw m)
            | Ok None => (calls, Ok [])
            | Ok (Some rows) =>
                (calls,
                 Ok (List.filter
                       (fun chunk => 20 <? Js.strlen (RetrievedChunk.content chunk))
                       (map rowToChunk rows)))
            end
        end
  end.

(* ===================================================================== *)
(** * Retrieval ([nodes/retrieval.ts]) *)
(* ===================================================================== *)

Definition TOP_K_PER_QUERY : Z := 5.
Definition MAX_TOTAL_CHUNKS : Z := 20.

Definition isPriority (p : Priority) (sq : SubQuery.t) : bool :=
  match p, SubQuery.priority sq with
  | high, high | medium, medium | low, low => true
  | _, _ => false
  end.

(** The retrieval queries: the question, the high priority sub-queries, two
    medium ones and, when there is a non-empty feedback text, that text. *)
Definition retrievalQueries (state : ResearchState.t) : list string :=
  let subQueries := ResearchState.subQueries state in
  (ResearchState.researchQuestion state
   :: map SubQuery.query (List.filter (isPriority high) subQueries)
   ++ map SubQuery.query (Js.slice (List.filter (isPriority medium) subQueries) 0 2))
  ++ match ResearchState.humanFeedback state with
     | Some h =>
         match HumanFeedback.feedback h with
         | Some text => if decide (text = "") then [] else [text]
         | None => []
         end
     | None => []
     end.

(** [chunk.content.slice(0, 100).trim()] *)
Definition dedupKey (chunk : RetrievedChunk.t) : string :=
  Js.trim (Js.sliceTo 100 (RetrievedChunk.content chunk)).

(** The body of the nested [for] loops over [seen] and [dedupedChunks]. *)
Definition dedupStep (acc : gset string * list RetrievedChunk.t) (chunk : RetrievedChunk.t)
    : gset string * list RetrievedChunk.t :=
  let '(seen, dedupedChunks) := acc in
  let key := dedupKey chunk in
  if (bool_decide (key ∉ seen) && (50 <? Js.strlen (RetrievedChunk.content chunk)))%bool
  then ({[key]} ∪ seen, dedupedChunks ++ [chunk])
  else acc.

Definition dedupChunks (allResults : list (list RetrievedChunk.t)) : list RetrievedChunk.t :=
  (fold_left (fun acc results => fold_left dedupStep results acc) allResults (∅, [])).2.

(** [(a, b) => b.relevanceScore - a.relevanceScore] is at most 0. *)
Definition byRelevanceDesc (a b : RetrievedChunk.t) : bool :=
  Qle_bool (RetrievedChunk.relevanceScore b) (RetrievedChunk.relevanceScore a).

(** [dedupedChunks.sort(...).slice(0, MAX_TOTAL_CHUNKS)] *)
Definition topChunks (allResults : list (list RetrievedChunk.t)) : list RetrievedChunk.t :=
  Js.slice (Js.sortBy byRelevanceDesc (dedupChunks allResults)) 0 MAX_TOTAL_CHUNKS.

Definition retrievalNode (tool : VectorTool) (state : ResearchState.t) : Update.t :=
  let queries := retrievalQueries state in
  match promiseAll (map (fun q => (retrieveFromVectorDB tool q TOP_K_PER_QUERY).2) queries) with
  | Throw message => errorUpdate message NodeStatus.error
  | Ok allResults =>
      {| Update.researchQuestion := None; Update.subQueries := None;
         Update.searchResults := None; Update.scrapedContent := None;
         Update.storedChunkIds := None;
         Update.retrievedChunks := Some (topChunks allResults);
         Update.draftReport := None; Update.humanFeedback := None;
         Update.currentNode := Some NodeStatus.synthesizing;
         Update.iterationCount := None; Update.errors := None;
         Update.finalReport := None |}
  end.

(* ===================================================================== *)
(** * Search ([nodes/search.ts]) *)
(* ===================================================================== *)

(** The default of [MAX_SEARCH_RESULTS]. *)
Definition MAX_RESULTS_PER_QUERY : Z := 5.

(** [{ high: 0, medium: 1, low: 2 }] *)
Definition priorityOrder (p : Priority) : Z :=
  match p with
  | high => 0
  | medium => 1
  | low => 2
  end.

(** [order[a.priority] - order[b.priority]] is at most 0. *)
Definition byPriority (a b : SubQuery.t) : bool :=
  priorityOrder (SubQuery.priority a) <=? priorityOrder (SubQuery.priority b).

(** One turn of the loop over the prioritized sub-queries: the inner
    [try]/[catch] around [executeSearch].  A rejected search only writes a
    warning to the console. *)
Definition searchStep (executeSearch : string -> Z -> Result (list SearchResult.t))
    (acc : gset string * list SearchResult.t) (subQuery : SubQuery.t)
    : gset string * list SearchResult.t :=
  let '(existingUrls, allNewResults) := acc in
  match executeSearch (SubQuery.query subQuery) MAX_RESULTS_PER_QUERY with
  | Ok results =>
      let newResults :=
        List.filter (fun r => bool_decide (SearchResult.url r ∉ existingUrls)) results in
      (list_to_set (map SearchResult.url newResults) ∪ existingUrls,
       allNewResults ++ newResults)
  | Throw _ => acc
  end.

Definition searchLoop (executeSearch : string -> Z -> Result (list SearchResult.t))
    (existingUrls : gset string) (prioritized : list SubQuery.t) : list SearchResult.t :=
  (fold_left (searchStep executeSearch) prioritized (existingUrls, [])).2.

Definition searchNode (executeSearch : string -> Z -> Result (list SearchResult.t))
    (state : ResearchState.t) : Update.t :=
  let subQueries := ResearchState.subQueries state in
  let existingResults := ResearchState.searchResults state in
  match subQueries with
  | [] => errorUpdate "No sub-queries available for search" NodeStatus.error
  | _ =>
      let existingUrls : gset string := list_to_set (map SearchResult.url existingResults) in
      let prioritized := Js.sortBy byPriority subQueries in
      let allNewResults := searchLoop executeSearch existingUrls prioritized in
      {| Update.researchQuestion := None; Update.subQueries := None;
         Update.searchResults := Some allNewResults;
         Update.scrapedContent := None; Update.storedChunkIds := None;
         Update.retrievedChunks := None; Update.draftReport := None;
         Update.humanFeedback := None;
         Update.currentNode := Some NodeStatus.scraping;
         Update.iterationCount := None; Update.errors := None;
         Update.finalReport := None |}
  end.

(* ===================================================================== *)
(** * Scraping ([tools/scraperTool.ts], [nodes/scraper.ts]) *)
(* ===================================================================== *)

(** [!r.error && r.wordCount > 50] *)
Definition scrapeSucceeded (r : ScrapedContent.t) : bool :=
  (match ScrapedContent.error r with
   | None => true
   | Some e => bool_decide (e = "")
   end
   && (50 <? ScrapedContent.wordCount r))%bool.

(** The batch loop of [scrapeUrls].  A failed fetch is a record with its
    [error] set; [scrapeUrl] rejects only when its record does not pass the
    schema, and then [Promise.all] rejects and the loop is left with that
    error. *)
Fixpoint scrapeLoop (scrapeUrl : string -> Result ScrapedContent.t) (fuel : nat)
    (urls : list string) (concurrency i : Z) (results : list ScrapedContent.t)
    : option (Result (list ScrapedContent.t)) :=
  match fuel with
  | O => None
  | S fuel' =>
      if i <? Z.of_nat (length urls) then
        let batch := Js.slice urls i (i + concurrency) in
        match promiseAll (map scrapeUrl batch) with
        | Throw m => Some (Throw m)
        | Ok batchResults =>
            scrapeLoop scrapeUrl fuel' urls concurrency (i + concurrency)
              (results ++ batchResults)
        end
      else Some (Ok results)
  end.

(** [scrapeUrls(urls, concurrency)]; [None] when the loop does not end
    (a concurrency that is not positive). *)
Definition scrapeUrls (scrapeUrl : string -> Result ScrapedContent.t) (urls : list string)
    (concurrency : Z) : option (Result (list ScrapedContent.t)) :=
  match scrapeLoop scrapeUrl (S (length urls)) urls concurrency 0 [] with
  | Some (Ok results) => Some (Ok (List.filter scrapeSucceeded results))
  | Some (Throw m) => Some (Throw m)
  | None => None
  end.

Definition MAX_URLS_TO_SCRAPE : Z := 15.
Definition CONCURRENCY : Z := 3.

(** [(b.score ?? 0) - (a.score ?? 0)] is at most 0. *)
Definition byScoreDesc (a b : SearchResult.t) : bool :=
  Qle_bool (default 0%Q (SearchResult.score b)) (default 0%Q (SearchResult.score a)).

Definition urlsToScrape (state : ResearchState.t) : list string :=
  let scrapedUrls : gset string :=
    list_to_set (map ScrapedContent.url (ResearchState.scrapedContent state)) in
  map SearchResult.url
    (Js.slice
       (List.filter (fun r => bool_decide (SearchResult.url r ∉ scrapedUrls))
               (Js.sortBy byScoreDesc (ResearchState.searchResults state)))
       0 MAX_URLS_TO_SCRAPE).

(** [None] when [scrapeUrls] does not return. *)
Definition scraperNode (scrapeUrl : string -> Result ScrapedContent.t)
    (state : ResearchState.t) : option Update.t :=
  match ResearchState.searchResults state with
  | [] => Some (errorUpdate "No search results to scrape" NodeStatus.error)
  | _ =>
      match urlsToScrape state with
      | [] => Some (markerUpdate NodeStatus.storing)
      | urls =>
          match scrapeUrls scrapeUrl urls CONCURRENCY with
          | None => None
          | Some (Throw message) => Some (errorUpdate message NodeStatus.error)
          | Some (Ok newContent) =>
              let successful := List.filter scrapeSucceeded newContent in
              Some {| Update.researchQuestion := None; Update.subQueries := None;
                      Update.searchResults := None;
                      Update.scrapedContent := Some successful;
                      Update.storedChunkIds := None; Update.retrievedChunks := None;
                      Update.draftReport := None; Update.humanFeedback := None;
                      Update.currentNode := Some NodeStatus.storing;
                      Update.iterationCount := None; Update.errors := None;
                      Update.finalReport := None |}
          end
      end
  end.

(* ===================================================================== *)
(** * Indexing ([nodes/vectorStore.ts]) *)
(* ===================================================================== *)

(** The batch loop of [vectorStoreNode].  [stored] is [state.storedChunkIds]
    as the loop rewrites it; the look-up of the owning sub-query falls back
    to the first id and, with no sub-query at all, [subQueryId.slice] raises
    a [TypeError]. *)
Fixpoint storeLoop (storeInVectorDB : list ScrapedContent.t -> string -> Result (list string))
    (fuel : nat) (scrapedContent : list ScrapedContent.t) (subQueryIds : list string)
    (batchSize i : Z) (stored : list string) : option (Result (list string)) :=
  match fuel with
  | O => None
  | S fuel' =>
      if i <? Z.of_nat (length scrapedContent) then
        let batch := Js.slice scrapedContent i (i + batchSize) in
        let subQueryId :=
          match subQueryIds !! Z.to_nat (i / batchSize) with
          | Some x => Some x
          | None => head subQueryIds
          end in
        match subQueryId with
        | None => Some (Throw "Cannot read properties of undefined (reading 'slice')")
        | Some subQueryId =>
            match storeInVectorDB batch subQueryId with
            | Throw m => Some (Throw m)
            | Ok chunkIds =>
                storeLoop storeInVectorDB fuel' scrapedContent subQueryIds batchSize
                  (i + batchSize) (if i =? 0 then chunkIds else stored ++ chunkIds)
            end
        end
      else Some (Ok stored)
  end.

(** A failure of the store is not fatal here: the marker still moves on to
    [retrieving]. *)
Definition vectorStoreNode
    (storeInVectorDB : list ScrapedContent.t -> string -> Result (list string))
    (state : ResearchState.t) : option Update.t :=
  let scrapedContent := ResearchState.scrapedContent state in
  match scrapedContent with
  | [] => Some (markerUpdate NodeStatus.retrieving)
  | _ =>
      let subQueryIds := map SubQuery.id (ResearchState.subQueries state) in
      let batchSize :=
        Js.ceilDiv (Z.of_nat (length scrapedContent))
                   (Z.max (Z.of_nat (length subQueryIds)) 1) in
      match storeLoop storeInVectorDB (S (length scrapedContent)) scrapedContent
              subQueryIds batchSize 0 (ResearchState.storedChunkIds state) with
      | None => None
      | Some (Throw message) => Some (errorUpdate message NodeStatus.retrieving)
      | Some (Ok stored) =>
          Some {| Update.researchQuestion := None; Update.subQueries := None;
                  Update.searchResults := None; Update.scrapedContent := None;
                  Update.storedChunkIds := Some stored;
                  Update.retrievedChunks := None; Update.draftReport := None;
                  Update.humanFeedback := None;
                  Update.currentNode := Some NodeStatus.retrieving;
                  Update.iterationCount := None; Update.errors := None;
                  Update.finalReport := None |}
      end
  end.

(* ===================================================================== *)
(** * Decomposition ([nodes/reasoning.ts]) *)
(* ===================================================================== *)

(** The feedback text handed to the prompt on a revision pass:
    [humanFeedback && !humanFeedback.approved ? humanFeedback.feedback : undefined]. *)
Definition revisionFeedback (state : ResearchState.t) : option string :=
  match ResearchState.humanFeedback state with
  | Some h => if HumanFeedback.approved h then None else HumanFeedback.feedback h
  | None => None
  end.

(** [decompose question feedback iteration] stands for the model call and the
    parsing and validation of its answer into sub-queries. *)
Definition reasoningNode (decompose : string -> option string -> Z -> Result (list SubQuery.t))
    (state : ResearchState.t) : Update.t :=
  let researchQuestion := ResearchState.researchQuestion state in
  let iterationCount := ResearchState.iterationCount state in
  if decide (Js.trim researchQuestion = "") then
    errorUpdate "Research question is required but was empty" NodeStatus.error
  else
    match decompose researchQuestion (revisionFeedback state) (iterationCount + 1) with
    | Throw message => errorUpdate message NodeStatus.error
    | Ok subQueries =>
        {| Update.researchQuestion := None;
           Update.subQueries := Some subQueries;
           Update.searchResults := None; Update.scrapedContent := None;
           Update.storedChunkIds := None; Update.retrievedChunks := None;
           Update.draftReport := None; Update.humanFeedback := None;
           Update.currentNode := Some NodeStatus.searching;
           Update.iterationCount := Some (iterationCount + 1);
           Update.errors := None; Update.finalReport := None |}
    end.

(* ===================================================================== *)
(** * Synthesis ([nodes/synthesis.ts]) *)
(* ===================================================================== *)

(** What the synthesis prompt is built from. *)
Record SynthesisPrompt := mkPrompt {
  promptQuestion : string;
  promptChunks : list RetrievedChunk.t;
  promptCitations : list Citation.t;
  promptFeedback : option string }.

(** The services of the synthesis stage: the model call, [JSON.parse]
    followed by [ResearchReportSchema.parse], the two regular expressions
    that look for a JSON object inside the answer, and the clock. *)
Record Synthesizer := mkSynthesizer {
  llmInvoke : SynthesisPrompt -> Result string;
  parseReport : string -> Result ResearchReport.t;
  extractJson : string -> option string;
  clock : string }.

(** The [try]/[catch] around the parse of the model's answer. *)
Definition parseModelReport (syn : Synthesizer) (content : string) : Result ResearchReport.t :=
  match parseReport syn (Js.trim content) with
  | Ok report => Ok report
  | Throw _ =>
      match extractJson syn content with
      | None =>
          Throw (String.append "LLM returned non-JSON report: " (Js.sliceTo 300 content))
      | Some json => parseReport syn json
      end
  end.

Definition synthesisNode (syn : Synthesizer) (state : ResearchState.t) : Update.t :=
  let retrievedChunks := ResearchState.retrievedChunks state in
  match retrievedChunks with
  | [] => errorUpdate "No retrieved chunks available for synthesis" NodeStatus.error
  | _ =>
      let citations := buildCitationMap state in
      let prompt :=
        {| promptQuestion := ResearchState.researchQuestion state;
           promptChunks := Js.slice retrievedChunks 0 15;
           promptCitations := citations;
           promptFeedback := revisionFeedback state |} in
      match llmInvoke syn prompt with
      | Throw message => errorUpdate message NodeStatus.error
      | Ok content =>
          match parseModelReport syn content with
          | Throw message => errorUpdate message NodeStatus.error
          | Ok report =>
              let final :=
                {| ResearchReport.title := ResearchReport.title report;
                   ResearchReport.executiveSummary := ResearchReport.executiveSummary report;
                   ResearchReport.sections := ResearchReport.sections report;
                   ResearchReport.conclusions := ResearchReport.conclusions report;
                   ResearchReport.citations := citations;
                   ResearchReport.metadata :=
                     {| ReportMetadata.totalSources := Z.of_nat (length citations);
                        ReportMetadata.subQueriesAnswered :=
                          Z.of_nat (length (ResearchState.subQueries state));
                        ReportMetadata.generatedAt := clock syn;
                        ReportMetadata.iterationCount := ResearchState.iterationCount state |} |} in
              {| Update.researchQuestion := None; Update.subQueries := None;
                 Update.searchResults := None; Update.scrapedContent := None;
                 Update.storedChunkIds := None; Update.retrievedChunks := None;
                 Update.draftReport := Some (Some final);
                 Update.humanFeedback := None;
                 Update.currentNode := Some NodeStatus.awaiting_human;
                 Update.iterationCount := None; Update.errors := None;
                 Update.finalReport := None |}
          end
      end
  end.

(* ===================================================================== *)
(** * The graph ([graph.ts]) *)
(* ===================================================================== *)

Module Graph.

Inductive Node :=
  | reasoning | search | scraper | vector_store | retrieval | synthesis | human_review.

Inductive Target :=
  | Goto (n : Node)
  | END.

(** [addEdge] and [addConditionalEdges]: the node that runs after [n] has
    returned and its update is merged into [state]. *)
Definition next (MAX_ITERATIONS : Z) (n : Node) (state : ResearchState.t) : Target :=
  match n with
  | reasoning => Goto search
  | search => Goto scraper
  | scraper => Goto vector_store
  | vector_store => Goto retrieval
  | retrieval => Goto synthesis
  | synthesis => Goto human_review
  | human_review =>
      match routeAfterHumanReview MAX_ITERATIONS state with
      | to_reasoning => Goto reasoning
      | to_end => END
      end
  end.

(** [interruptBefore: ["human_review"]] *)
Definition interruptBefore (n : Node) : bool :=
  match n with
  | human_review => true
  | _ => false
  end.

(** The external services of one session. *)
Record World := mkWorld {
  decompose : string -> option string -> Z -> Result (list SubQuery.t);
  executeSearch : string -> Z -> Result (list SearchResult.t);
  scrapeUrl : string -> Result ScrapedContent.t;
  storeInVectorDB : list ScrapedContent.t -> string -> Result (list string);
  vectorTool : VectorTool;
  synthesizer : Synthesizer;
  stdin : list string }.

(** [addNode]: the stage function behind each node; [None] when the stage
    does not return. *)
Definition stage (w : World) (n : Node) (state : ResearchState.t) : option Update.t :=
  match n with
  | reasoning => Some (reasoningNode (decompose w) state)
  | search => Some (searchNode (executeSearch w) state)
  | scraper => scraperNode (scrapeUrl w) state
  | vector_store => vectorStoreNode (storeInVectorDB w) state
  | retrieval => Some (retrievalNode (vectorTool w) state)
  | synthesis => Some (synthesisNode (synthesizer w) state)
  | human_review =>
      match humanReviewNode (clock (synthesizer w)) (stdin w) state with
      | Returned u => Some u
      | Exited | Waiting => None
      end
  end.

Inductive Outcome :=
  | Finished (state : ResearchState.t)
  | Interrupted (before : Node) (state : ResearchState.t)
  | RecursionLimit (state : ResearchState.t)
  | NoReturn.

(** Execution from node [n]: run the stage, merge its update, follow the
    edge; stop in front of an interrupting node, at [END], or when
    [recursionLimit] steps are used up.  The executed nodes are recorded in
    order. *)
Fixpoint run (w : World) (MAX_ITERATIONS : Z) (recursionLimit : nat) (n : Node)
    (state : ResearchState.t) (executed : list Node) : list Node * Outcome :=
  match recursionLimit with
  | O => (executed, RecursionLimit state)
  | S limit =>
      if interruptBefore n then (executed, Interrupted n state)
      else
        match stage w n state with
        | None => (executed ++ [n], NoReturn)
        | Some u =>
            let state' := applyUpdate state u in
            match next MAX_ITERATIONS n state' with
            | END => (executed ++ [n], Finished state')
            | Goto n' => run w MAX_ITERATIONS limit n' state' (executed ++ [n])
            end
        end
  end.

(** [app.invoke(input)]: execution from [START]. *)
Definition invoke (w : World) (MAX_ITERATIONS : Z) (recursionLimit : nat)
    (state : ResearchState.t) : list Node * Outcome :=
  run w MAX_ITERATIONS recursionLimit reasoning state [].

End Graph.

(** The step taken when the review stage returns: its update is merged and
    the conditional edge is evaluated on the merged state. *)
Definition reviewTransition (MAX_ITERATIONS : Z) (now : string) (answers : list string)
    (state : ResearchState.t) : option (ResearchState.t * Route) :=
  match humanReviewNode now answers state with
  | Returned u =>
      let state' := applyUpdate state u in
      Some (state', routeAfterHumanReview MAX_ITERATIONS state')
  | Exited | Waiting => None
  end.

(* ===================================================================== *)
(** * Further built-ins *)
(* ===================================================================== *)

Module Text.

(** [s.includes(needle)] *)
Fixpoint includes (needle s : string) : bool :=
  if String.prefix needle s then true
  else match s with
       | EmptyString => false
       | String _ s' => includes needle s'
       end.

(** [s.replace(/\s+/g, " ")]: every maximal run of white space becomes one
    space. *)
Fixpoint collapseWs (s : string) : string :=
  match s with
  | EmptyString => EmptyString
  | String c s' =>
      if Js.isWhiteSpace c then
        match s' with
        | String c' _ =>
            if Js.isWhiteSpace c' then collapseWs s' else String " " (collapseWs s')
        | EmptyString => String " " EmptyString
        end
      else String c (collapseWs s')
  end.

Definition isNewline (c : ascii) : bool := Nat.eqb (nat_of_ascii c) 10.

(** [s.replace(/\n{3,}/g, "\n\n")]: a run of three or more line feeds is
    cut down to two. *)
Fixpoint squeezeNewlines (s : string) : string :=
  match s with
  | EmptyString => EmptyString
  | String c s' =>
      if isNewline c then
        match s' with
        | String c1 (String c2 _) =>
            if (isNewline c1 && isNewline c2)%bool then squeezeNewlines s'
            else String c (squeezeNewlines s')
        | _ => String c (squeezeNewlines s')
        end
      else String c (squeezeNewlines s')
  end.

Definition lowerChar (c : ascii) : ascii :=
  let n := nat_of_ascii c in
  if (Nat.leb 65 n && Nat.leb n 90)%bool then ascii_of_nat (n + 32) else c.

(** [s.toLowerCase()] on the ASCII letters. *)
Fixpoint toLowerCase (s : string) : string :=
  match s with
  | EmptyString => EmptyString
  | String c s' => String (lowerChar c) (toLowerCase s')
  end.

(** The class [[a-z0-9]]. *)
Definition isSlugChar (c : ascii) : bool :=
  let n := nat_of_ascii c in
  ((Nat.leb 97 n && Nat.leb n 122) || (Nat.leb 48 n && Nat.leb n 57))%bool.

(** [s.replace(/[^a-z0-9]+/g, "-")]: every maximal run of other characters
    becomes one dash. *)
Fixpoint dashRuns (s : string) : string :=
  match s with
  | EmptyString => EmptyString
  | String c s' =>
      if isSlugChar c then String c (dashRuns s')
      else
        match s' with
        | String c' _ =>
            if isSlugChar c' then String "-" (dashRuns s') else dashRuns s'
        | EmptyString => String "-" EmptyString
        end
  end.

(** [xs.filter(Boolean)] on strings: the non-empty ones. *)
Definition nonEmpty (xs : list string) : list string :=
  List.filter (fun w => negb (bool_decide (w = ""))) xs.

End Text.

(* ===================================================================== *)
(** * The scraper tool ([tools/scraperTool.ts]) *)
(* ===================================================================== *)

Module Scraper.

Definition MAX_CONTENT_CHARS : Z := 8000.

(** What cheerio finds in the page once the noise elements are removed:
    the [og:title] attribute, the text of [title], of the first [h1], of the
    first element matching each of the six [CONTENT_SELECTORS] in order
    ([None] when nothing matches), and of [body]. *)
Record Document := mkDocument {
  ogTitle : option string;
  titleText : string;
  h1Text : string;
  selections : list (option string);
  bodyText : string }.

(** What the request comes to: an exception (network, abort on timeout,
    body read), a response that is not [ok], or a response with its
    [content-type] header and parsed document. *)
Inductive FetchOutcome :=
  | Threw (message : string)
  | NotOk (status : Z) (statusText : string)
  | Response (contentType : option string) (doc : Document).

(** What the tool takes from its environment: [new URL(url)], which is
    [Some message] when it throws; the url check of [z.string().url()] and
    the message of the error [ScrapedContentSchema.parse] raises when the
    check fails; and the network. *)
Record Env := mkEnv {
  newUrl : string -> option string;
  isUrl : string -> bool;
  zodMessage : string;
  fetch : string -> FetchOutcome }.

(** [a || b] on strings. *)
Definition orElse (a b : string) : string :=
  if decide (a = "") then b else a.

(** The title: [og:title], else the trimmed [title], else the trimmed first
    [h1], else "Untitled". *)
Definition pageTitle (doc : Document) : string :=
  orElse (default "" (ogTitle doc))
    (orElse (Js.trim (titleText doc))
       (orElse (Js.trim (h1Text doc)) "Untitled")).

(** The loop over [CONTENT_SELECTORS]: the text of the first selection whose
    trimmed text is longer than 200 characters. *)
Fixpoint mainContent (selections : list (option string)) : string :=
  match selections with
  | [] => ""
  | Some text :: rest =>
      if 200 <? Js.strlen (Js.trim text) then text else mainContent rest
  | None :: rest => mainContent rest
  end.

(** The main block, or the whole body when there is none. *)
Definition extractContent (doc : Document) : string :=
  orElse (mainContent (selections doc)) (bodyText doc).

(** The normalisation chain applied to the extracted text. *)
Definition normalizeContent (content : string) : string :=
  Js.sliceTo (Z.to_nat MAX_CONTENT_CHARS)
    (Js.trim (Text.squeezeNewlines (Text.collapseWs content))).

(** [content.split(/\s+/).filter(Boolean).length] *)
Definition countWords (content : string) : Z :=
  Z.of_nat (length (Text.nonEmpty (Js.splitWs content))).

Definition failed (url title scrapedAt message : string) : ScrapedContent.t :=
  {| ScrapedContent.url := url;
     ScrapedContent.title := title;
     ScrapedContent.content := "";
     ScrapedContent.scrapedAt := scrapedAt;
     ScrapedContent.wordCount := 0;
     ScrapedContent.error := Some message |}.

(** [ScrapedContentSchema.parse(record)].  Of the schema's checks only the
    url check can fail on the records the tool builds: the title, the text
    and the error are strings, the word count is a length or 0, and
    [scrapedAt] is the ISO string of the clock. *)
Definition parse (env : Env) (record : ScrapedContent.t) : Result ScrapedContent.t :=
  if isUrl env (ScrapedContent.url record) then Ok record else Throw (zodMessage env).

(** The [try] block of [scrapeUrl]: the record it returns, or the error
    thrown inside it. *)
Definition tryScrape (env : Env) (scrapedAt : string) (url : string)
    : Result ScrapedContent.t :=
  match newUrl env url with
  | Some message => Throw message
  | None =>
      match fetch env url with
      | Threw message => Throw message
      | NotOk status statusText =>
          parse env
            (failed url "Error" scrapedAt
               (String.append "HTTP "
                  (String.append (pretty status) (String.append ": " statusText))))
      | Response contentType doc =>
          let contentType := default "" contentType in
          if Text.includes "text/html" contentType then
            let content := normalizeContent (extractContent doc) in
            parse env
              {| ScrapedContent.url := url;
                 ScrapedContent.title := Js.sliceTo 200 (pageTitle doc);
                 ScrapedContent.content := content;
                 ScrapedContent.scrapedAt := scrapedAt;
                 ScrapedContent.wordCount := countWords content;
                 ScrapedContent.error := None |}
          else
            parse env
              (failed url "Non-HTML Content" scrapedAt
                 (String.append "Unsupported content type: " contentType))
      end
  end.

(** [scrapeUrl(url)]; [scrapedAt] is the clock.  The [catch] block parses
    its record as well, so an error raised there rejects the promise. *)
Definition scrapeUrl (env : Env) (scrapedAt : string) (url : string)
    : Result ScrapedContent.t :=
  match tryScrape env scrapedAt url with
  | Ok record => Ok record
  | Throw message =>
      parse env (failed url "Scrape Error" scrapedAt (Js.sliceTo 500 message))
  end.

End Scraper.

(* ===================================================================== *)
(** * The search tool ([tools/searchTool.ts]) *)
(* ===================================================================== *)

Module Tavily.

(** One entry of [data.results], with the types of [TavilyResult]; a field
    that is absent is [None]. *)
Record Hit := mkHit {
  url : string;
  title : option string;
  content : option string;
  score : option Q;
  published_date : option string }.

(** What the POST comes to. *)
Inductive Outcome :=
  | Threw (message : string)
  | NotOk (status : Z) (errorText : string)
  | Json (results : list Hit).

(** The parts of the environment and of zod the tool relies on: the API key,
    the url check of [z.string().url()], and the message of the error that
    [SearchResultSchema.parse] raises. *)
Record Env := mkEnv {
  apiKey : option string;
  isUrl : string -> bool;
  zodMessage : string;
  post : string -> Z -> Outcome }.

(** [r.content?.slice(0, 500) || ""] *)
Definition snippetOf (h : Hit) : string :=
  match content h with
  | Some text => Js.sliceTo 500 text
  | None => ""
  end.

(** [r.title || "Untitled"] *)
Definition titleOf (h : Hit) : string :=
  match title h with
  | Some t => if decide (t = "") then "Untitled" else t
  | None => "Untitled"
  end.

(** [z.number().min(0).max(1).optional()] *)
Definition scoreInRange (s : option Q) : bool :=
  match s with
  | Some q => (Qle_bool 0 q && Qle_bool q 1)%bool
  | None => true
  end.

(** [SearchResultSchema.parse] of the normalised entry. *)
Definition normalize (env : Env) (h : Hit) : Result SearchResult.t :=
  if (isUrl env (url h) && scoreInRange (score h))%bool then
    Ok {| SearchResult.url := url h;
          SearchResult.title := titleOf h;
          SearchResult.snippet := snippetOf h;
          SearchResult.score := score h;
          SearchResult.publishedDate := published_date h |}
  else Throw (zodMessage env).

(** [data.results.map(...)]: the first entry that fails to parse throws. *)
Fixpoint normalizeAll (env : Env) (hits : list Hit) : Result (list SearchResult.t) :=
  match hits with
  | [] => Ok []
  | h :: rest =>
      match normalize env h with
      | Throw m => Throw m
      | Ok r =>
          match normalizeAll env rest with
          | Throw m => Throw m
          | Ok rs => Ok (r :: rs)
          end
      end
  end.

Definition hasKey (env : Env) : bool :=
  match apiKey env with
  | Some k => negb (bool_decide (k = ""))
  | None => false
  end.

(** [tavilySearch(query, maxResults)] *)
Definition tavilySearch (env : Env) (query : string) (maxResults : Z)
    : Result (list SearchResult.t) :=
  if hasKey env then
    match post env query maxResults with
    | Threw m => Throw m
    | NotOk status errorText =>
        Throw (String.append "Tavily API error "
                 (String.append (pretty status) (String.append ": " errorText)))
    | Json results => normalizeAll env results
    end
  else Throw "TAVILY_API_KEY is not set in environment variables".

(** [executeSearch(query, maxResults)]; [defaultMax] is the parsed
    [MAX_SEARCH_RESULTS]. *)
Definition executeSearch (env : Env) (defaultMax : Z) (query : string)
    (maxResults : option Z) : Result (list SearchResult.t) :=
  tavilySearch env query (default defaultMax maxResults).

End Tavily.

(* ===================================================================== *)
(** * Storing chunks ([tools/vectorTool.ts]) *)
(* ===================================================================== *)

Module Store.

(** The argument of [col.add]. *)
Record AddRequest := mkAdd {
  ids : list string;
  embeddings : list (list Q);
  documents : list string;
  metadatas : list ChunkMetadata.t }.

(** [getCollection()], which may reject when the database cannot be
    reached; [getEmbeddings()], whose constructor may throw; the embedding
    model; the collection's [add]; and the uuid generator: [uuidv4 n] is
    the n-th uuid drawn in the call. *)
Record Services := mkServices {
  getCollection : Result unit;
  getEmbeddings : Result unit;
  embedDocuments : list string -> Result (list (list Q));
  add : AddRequest -> Result unit;
  uuidv4 : nat -> string }.

(** [`${uuidv4()}_chunk_${i}`] for the chunks of one page, drawing uuids
    from number [drawn] on. *)
Definition chunkIds (sv : Services) (drawn : nat) (textChunks : list string) : list string :=
  imap (fun i _ =>
          String.append (uuidv4 sv (drawn + i))
            (String.append "_chunk_" (pretty (Z.of_nat i)))) textChunks.

Definition chunkMetadatas (page : ScrapedContent.t) (subQueryId : string)
    (textChunks : list string) : list ChunkMetadata.t :=
  imap (fun i _ =>
          {| ChunkMetadata.url := ScrapedContent.url page;
             ChunkMetadata.title := ScrapedContent.title page;
             ChunkMetadata.subQueryId := subQueryId;
             ChunkMetadata.chunkIndex := Z.of_nat i |}) textChunks.

(** [!page.content || page.wordCount < 50] *)
Definition skipped (page : ScrapedContent.t) : bool :=
  (bool_decide (ScrapedContent.content page = "") || (ScrapedContent.wordCount page <? 50))%bool.

(** The loop over the pages.  The result is the list of [col.add] requests
    that were sent and the ids collected, or the error that ended the call;
    [None] when [chunkText] does not return. *)
Fixpoint storeLoop (sv : Services) (subQueryId : string) (pages : list ScrapedContent.t)
    (drawn : nat) (sent : list AddRequest) (storedIds : list string)
    : option (list AddRequest * Result (list string)) :=
  match pages with
  | [] => Some (sent, Ok storedIds)
  | page :: rest =>
      if skipped page then storeLoop sv subQueryId rest drawn sent storedIds
      else
        match chunkText (ScrapedContent.content page) CHUNK_SIZE CHUNK_OVERLAP with
        | None => None
        | Some [] => storeLoop sv subQueryId rest drawn sent storedIds
        | Some textChunks =>
            match embedDocuments sv textChunks with
            | Throw m => Some (sent, Throw m)
            | Ok embeddingVectors =>
                let request :=
                  {| ids := chunkIds sv drawn textChunks;
                     embeddings := embeddingVectors;
                     documents := textChunks;
                     metadatas := chunkMetadatas page subQueryId textChunks |} in
                match add sv request with
                | Throw m => Some (sent ++ [request], Throw m)
                | Ok _ =>
                    storeLoop sv subQueryId rest (drawn + length textChunks)
                      (sent ++ [request]) (storedIds ++ ids request)
                end
            end
        end
  end.

(** [storeInVectorDB(scrapedContent, subQueryId)] *)
Definition storeInVectorDB (sv : Services) (scrapedContent : list ScrapedContent.t)
    (subQueryId : string) : option (list AddRequest * Result (list string)) :=
  match getCollection sv with
  | Throw m => Some ([], Throw m)
  | Ok _ =>
      match getEmbeddings sv with
      | Throw m => Some ([], Throw m)
      | Ok _ => storeLoop sv subQueryId scrapedContent 0 [] []
      end
  end.

End Store.

(* ===================================================================== *)
(** * The prompt's source ids ([nodes/synthesis.ts]) *)
(* ===================================================================== *)

(** [new Map(citations.map((c) => [c.url, c.id]))]: a later entry for the
    same url replaces an earlier one. *)
Definition urlToId (citations : list Citation.t) : gmap string Z :=
  fold_left (fun m c => <[Citation.url c := Citation.id c]> m) citations ∅.

(** The [citId] that [formatChunksForPrompt] puts in front of each of the
    chunks it renders; [None] is the "?" placeholder. *)
Definition promptSourceIds (state : ResearchState.t) (citations : list Citation.t)
    : list (option Z) :=
  map (fun chunk => urlToId citations !! ChunkMetadata.url (RetrievedChunk.metadata chunk))
      (Js.slice (ResearchState.retrievedChunks state) 0 15).

(* ===================================================================== *)
(** * The driver ([index.ts]) *)
(* ===================================================================== *)

Module Main.

(** The slug of [saveReport]:
    [title.toLowerCase().replace(/[^a-z0-9]+/g, "-").slice(0, 50)]. *)
Definition slug (title : string) : string :=
  Js.sliceTo 50 (Text.dashRuns (Text.toLowerCase title)).

(** How [main] ends after the first [app.invoke]: a report is saved, no
    report exists ([process.exit(1)]), the human quits, the graph throws, or
    the process sits at a prompt. *)
Inductive Ending :=
  | Saved (report : ResearchReport.t) (state : ResearchState.t)
  | NoReport (state : ResearchState.t)
  | Quit
  | Fatal (message : string)
  | AtPrompt.

(** The lines after [// ── Final Output]. *)
Definition finish (state : ResearchState.t) : Ending :=
  match finalOutput state with
  | Some report => Saved report state
  | None => NoReport state
  end.

Definition isComplete (n : NodeStatus.t) : bool :=
  match n with
  | NodeStatus.complete => true
  | _ => false
  end.

Definition isReasoning (n : NodeStatus.t) : bool :=
  match n with
  | NodeStatus.reasoning => true
  | _ => false
  end.

(** The [while] loop around the manual review, one unit of [fuel] per
    evaluation of its condition ([None] when the fuel runs out).  [typed k]
    are the lines typed during review number [k], and [resume] is
    [app.invoke(state, config)]. *)
Fixpoint reviewLoop (fuel : nat) (now : string) (typed : nat -> list string)
    (resume : ResearchState.t -> Result ResearchState.t) (k : nat)
    (state : ResearchState.t) : option Ending :=
  match fuel with
  | O => None
  | S fuel' =>
      if (negb (isComplete (ResearchState.currentNode state))
          && bool_decide (ResearchState.finalReport state = None))%bool
      then
        match humanReviewNode now (typed k) state with
        | Exited => Some Quit
        | Waiting => Some AtPrompt
        | Returned reviewResult =>
            let state := objectAssign state reviewResult in
            if (feedbackApproved (ResearchState.humanFeedback state)
                || isComplete (ResearchState.currentNode state))%bool
            then Some (finish state)
            else if isReasoning (ResearchState.currentNode state) then
              match resume state with
              | Throw m => Some (Fatal m)
              | Ok state' => reviewLoop fuel' now typed resume (S k) state'
              end
            else reviewLoop fuel' now typed resume (S k) state
        end
      else Some (finish state)
  end.

End Main.

(* ===================================================================== *)
(** * Measures and loop invariants *)
(* ===================================================================== *)

(** The number of code units of [s] that are not white space; [trim] does
    not change it. *)
Fixpoint nonSpaceCount (s : string) : nat :=
  match s with
  | EmptyString => 0
  | String c s' => (if Js.isWhiteSpace c then 0 else 1) + nonSpaceCount s'
  end.

(** The number of empty pieces among [ws]. *)
Definition emptyWords (ws : list string) : nat :=
  length (List.filter (fun w => bool_decide (w = "")) ws).

(** Every white space code unit of [s] is a space, and no two of them are
    adjacent. *)
Fixpoint singleSpaced (s : string) : bool :=
  match s with
  | EmptyString => true
  | String c s' =>
      ((if Js.isWhiteSpace c
        then Ascii.eqb c " "
             && match s' with
                | String c' _ => negb (Js.isWhiteSpace c')
                | EmptyString => true
                end
        else true)
       && singleSpaced s')%bool
  end.

(** [s] does not begin with white space. *)
Definition noLeadingSpace (s : string) : bool :=
  match s with
  | String c _ => negb (Js.isWhiteSpace c)
  | EmptyString => true
  end.

(** What [storeInVectorDB] sends for one page: the page is not skipped,
    the documents are its chunks, there is at least one, there is one id
    and one metadata record per document, and the records carry the page's
    url and title, the sub-query id and the position of the chunk. *)
Definition requestFor (subQueryId : string) (page : ScrapedContent.t)
    (request : Store.AddRequest) : Prop :=
  Store.skipped page = false
  /\ chunkText (ScrapedContent.content page) CHUNK_SIZE CHUNK_OVERLAP
     = Some (Store.documents request)
  /\ Store.documents request <> []
  /\ length (Store.ids request) = length (Store.documents request)
  /\ map ChunkMetadata.chunkIndex (Store.metadatas request)
     = map Z.of_nat (seq 0 (length (Store.documents request)))
  /\ Forall (fun m => ChunkMetadata.url m = ScrapedContent.url page
                      /\ ChunkMetadata.title m = ScrapedContent.title page
                      /\ ChunkMetadata.subQueryId m = subQueryId)
       (Store.metadatas request).

(** The chunk lists [storeInVectorDB] has to send for a list of pages: the
    chunks of each page that is not skipped, leaving out the pages that
    give no chunk. *)
Definition chunksToStore (pages : list ScrapedContent.t) : list (list string) :=
  List.filter (fun chunks => negb (bool_decide (chunks = [])))
    (map (fun page =>
            default [] (chunkText (ScrapedContent.content page) CHUNK_SIZE CHUNK_OVERLAP))
       (List.filter (fun page => negb (Store.skipped page)) pages)).

(** A line that is none of A, R, Q in any letter case. *)
Definition invalidChoice (choice : string) : Prop :=
  Js.toUpperCase choice <> "Q" /\ Js.toUpperCase choice <> "A" /\ Js.toUpperCase choice <> "R".

(** Every code unit of [s] is in the class a-z0-9 or a dash, and no two
    dashes are adjacent. *)
Fixpoint slugSafe (s : string) : bool :=
  match s with
  | EmptyString => true
  | String c s' =>
      ((if Text.isSlugChar c then true
        else Ascii.eqb c "-"
             && match s' with
                | String c' _ => Text.isSlugChar c'
                | EmptyString => true
                end)
       && slugSafe s')%bool
  end.

(** [executeSearch] fulfilled for this sub-query. *)
Definition searchSucceeded (executeSearch : string -> Z -> Result (list SearchResult.t))
    (subQuery : SubQuery.t) : bool :=
  match executeSearch (SubQuery.query subQuery) MAX_RESULTS_PER_QUERY with
  | Ok _ => true
  | Throw _ => false
  end.

(** The invariant of the deduplication loop: [seen] holds the keys of the
    chunks kept so far, no two kept chunks share a key, and every kept chunk
    is longer than 50 characters. *)
Definition dedupInv (acc : gset string * list RetrievedChunk.t) : Prop :=
  (forall c, c ∈ acc.2 -> dedupKey c ∈ acc.1)
  /\ NoDup (map dedupKey acc.2)
  /\ Forall (fun c => 50 < Js.strlen (RetrievedChunk.content c)) acc.2.

(* ===================================================================== *)
(** * Sample sessions used by the concrete statements below *)
(* ===================================================================== *)

Module Sample.

Definition report : ResearchReport.t :=
  {| ResearchReport.title := "Quantum error correction";
     ResearchReport.executiveSummary := "Summary";
     ResearchReport.sections := [ReportSection.mk "Background" "Text [1]" [1]];
     ResearchReport.conclusions := "Conclusions";
     ResearchReport.citations := [Citation.mk 1 "https://a.example/qec" "QEC" None];
     ResearchReport.metadata := ReportMetadata.mk 1 4 "2025-01-01T00:00:00.000Z" 3 |}.

(** A session that reaches the review of its third draft. *)
Definition thirdDraft : ResearchState.t :=
  {| ResearchState.researchQuestion := "What is new in quantum error correction?";
     ResearchState.subQueries := [];
     ResearchState.searchResults :=
       [SearchResult.mk "https://a.example/qec" "QEC" "snippet" (Some (9 # 10)%Q) None];
     ResearchState.scrapedContent := [];
     ResearchState.storedChunkIds := ["c1_chunk_0"];
     ResearchState.retrievedChunks :=
       [RetrievedChunk.mk "some retrieved passage"
          (ChunkMetadata.mk "https://a.example/qec" "QEC" "sq1" 0) (4 # 5)%Q];
     ResearchState.draftReport := Some report;
     ResearchState.humanFeedback := None;
     ResearchState.currentNode := NodeStatus.awaiting_human;
     ResearchState.iterationCount := 3;
     ResearchState.errors := [];
     ResearchState.finalReport := None |}.

(** The human rejects: R, a feedback line, one change request, an empty
    line. *)
Definition rejection : list string := ["r"; "add more detail on Y"; "cite the Willow chip"; ""].

Definition now : string := "2025-01-01T00:10:00.000Z".

(** A store with three documents; whatever the query, it answers with the
    closest [nResults] of them. *)
Definition rows : list Chroma.Row :=
  [Chroma.mkRow
     (Some "Surface codes reached break-even in 2024 according to several independent groups.")
     (ChunkMetadata.mk "https://a.example/qec" "QEC" "sq1" 0) (Some (2 # 5)%Q);
   Chroma.mkRow
     (Some "Logical qubits built from colour codes were demonstrated on trapped ions.")
     (ChunkMetadata.mk "https://b.example/ions" "Ions" "sq2" 0) (Some (1 # 5)%Q);
   Chroma.mkRow
     (Some "A passage that is too short to be kept.")
     (ChunkMetadata.mk "https://c.example/short" "Short" "sq2" 1) None].

Definition vectorTool : VectorTool :=
  {| getCollection :=
       {| Chroma.count := Ok 3;
          Chroma.query := fun _ nResults => Ok (Some (take (Z.to_nat nResults) rows)) |};
     embedQuery := fun text => Ok [Z.of_nat (String.length text) # 100]%Q |}.

(** The state in which a revision pass reaches retrieval. *)
Definition revising : ResearchState.t :=
  {| ResearchState.researchQuestion := "What is new in quantum error correction?";
     ResearchState.subQueries :=
       [SubQuery.mk "sq1" "surface code break-even" "core result" high;
        SubQuery.mk "sq2" "trapped ion logical qubits" "alternative platform" medium];
     ResearchState.searchResults :=
       [SearchResult.mk "https://a.example/qec" "QEC" "snippet" (Some (9 # 10)%Q) None];
     ResearchState.scrapedContent := [];
     ResearchState.storedChunkIds := ["c1_chunk_0"];
     ResearchState.retrievedChunks := [];
     ResearchState.draftReport := None;
     ResearchState.humanFeedback :=
       Some (HumanFeedback.mk false (Some "add more detail on Y") (Some []) now);
     ResearchState.currentNode := NodeStatus.retrieving;
     ResearchState.iterationCount := 2;
     ResearchState.errors := [];
     ResearchState.finalReport := None |}.


(** Tavily fails for the high priority sub-query and answers the other. *)
Definition flakySearch (query : string) (maxResults : Z) : Result (list SearchResult.t) :=
  if decide (query = "surface code break-even")
  then Throw "Tavily API error 500: upstream unavailable"
  else Ok [SearchResult.mk "https://b.example/ions" "Ions" "snippet" (Some (7 # 10)%Q) None].

(** The fetch of one page fails, the other page has 120 words. *)
Definition flakyScrape (url : string) : ScrapedContent.t :=
  if decide (url = "https://a.example/qec")
  then ScrapedContent.mk url "Scrape Error" "" now 0 (Some "fetch failed")
  else ScrapedContent.mk url "Ions" "Logical qubits on trapped ions" now 120 None.

(** The state after a search pass that found two pages. *)
Definition gathered : ResearchState.t :=
  {| ResearchState.researchQuestion := "What is new in quantum error correction?";
     ResearchState.subQueries :=
       [SubQuery.mk "sq1" "surface code break-even" "core result" high;
        SubQuery.mk "sq2" "trapped ion logical qubits" "alternative platform" medium];
     ResearchState.searchResults :=
       [SearchResult.mk "https://a.example/qec" "QEC" "snippet" (Some (9 # 10)%Q) None;
        SearchResult.mk "https://b.example/ions" "Ions" "snippet" (Some (7 # 10)%Q) None];
     ResearchState.scrapedContent := [];
     ResearchState.storedChunkIds := [];
     ResearchState.retrievedChunks := [];
     ResearchState.draftReport := None;
     ResearchState.humanFeedback := None;
     ResearchState.currentNode := NodeStatus.scraping;
     ResearchState.iterationCount := 1;
     ResearchState.errors := [];
     ResearchState.finalReport := None |}.

(** A session in which the model answers the decomposition with an empty
    list of sub-queries, while the store still holds documents of an
    earlier session and the synthesis call succeeds. *)
Definition world : Graph.World :=
  {| Graph.decompose := fun _ _ _ => Ok [];
     Graph.executeSearch := flakySearch;
     Graph.scrapeUrl := fun url => Ok (flakyScrape url);
     Graph.storeInVectorDB := fun _ _ => Ok [];
     Graph.vectorTool := vectorTool;
     Graph.synthesizer :=
       {| llmInvoke := fun _ => Ok "report as JSON";
          parseReport := fun _ => Ok report;
          extractJson := fun _ => None;
          clock := now |};
     Graph.stdin := rejection |}.

(** The input of [app.invoke]: the question on top of the channel defaults. *)
Definition question : ResearchState.t :=
  applyUpdate ResearchState.initial
    {| Update.researchQuestion := Some "What is new in quantum error correction?";
       Update.subQueries := None; Update.searchResults := None;
       Update.scrapedContent := None; Update.storedChunkIds := None;
       Update.retrievedChunks := None; Update.draftReport := None;
       Update.humanFeedback := None; Update.currentNode := None;
       Update.iterationCount := None; Update.errors := None;
       Update.finalReport := None |}.

(** A page of 60 words and a page of 2 words. *)
Definition shortPage : string := Js.join (repeat "word" 60).
Definition tinyPage : string := "hello world".

End Sample.

(* ===================================================================== *)
(** * Further sample sessions *)
(* ===================================================================== *)

Module Scenario.

(** A page whose main block has 60 words. *)
Definition document : Scraper.Document :=
  {| Scraper.ogTitle := None;
     Scraper.titleText := "  Trapped ions  ";
     Scraper.h1Text := "Ions";
     Scraper.selections := [None; Some Sample.shortPage];
     Scraper.bodyText := "navigation" |}.

(** The request for one page times out; the other page is served as HTML. *)
Definition fetch (url : string) : Scraper.FetchOutcome :=
  if decide (url = "https://a.example/qec")
  then Scraper.Threw "This operation was aborted"
  else Scraper.Response (Some "text/html; charset=utf-8") document.

(** Every string that starts with "https://" is taken for a url. *)
Definition web : Scraper.Env :=
  {| Scraper.newUrl := fun url =>
       if String.prefix "https://" url then None else Some "Invalid URL";
     Scraper.isUrl := String.prefix "https://";
     Scraper.zodMessage := "Invalid url";
     Scraper.fetch := fetch |}.

(** The state after a search pass whose second result does not carry a url. *)
Definition badUrl : ResearchState.t :=
  {| ResearchState.researchQuestion := "What is new in quantum error correction?";
     ResearchState.subQueries := ResearchState.subQueries Sample.gathered;
     ResearchState.searchResults :=
       [SearchResult.mk "https://b.example/ions" "Ions" "snippet" (Some (9 # 10)%Q) None;
        SearchResult.mk "not a url" "QEC" "snippet" (Some (7 # 10)%Q) None];
     ResearchState.scrapedContent := [];
     ResearchState.storedChunkIds := [];
     ResearchState.retrievedChunks := [];
     ResearchState.draftReport := None;
     ResearchState.humanFeedback := None;
     ResearchState.currentNode := NodeStatus.scraping;
     ResearchState.iterationCount := 1;
     ResearchState.errors := [];
     ResearchState.finalReport := None |}.

(** A page of 100 words. *)
Definition longPage : string := Js.join (repeat "word" 100).

(** An environment without [TAVILY_API_KEY]; the service itself would answer. *)
Definition noKey : Tavily.Env :=
  {| Tavily.apiKey := None;
     Tavily.isUrl := fun _ => true;
     Tavily.zodMessage := "Invalid url";
     Tavily.post := fun _ _ =>
       Tavily.Json [Tavily.mkHit "https://b.example/ions" (Some "Ions") (Some "snippet")
                      (Some (7 # 10)%Q) None] |}.

End Scenario.

(* ===================================================================== *)
(** * Properties *)
(* ===================================================================== *)

(** ** The built-ins on sample inputs *)

Example splitWs_empty : Js.splitWs "" = [""].
Proof. reflexivity. Qed.

Example splitWs_runs : Js.splitWs " a  b c " = [""; "a"; "b"; "c"; ""].
Proof. reflexivity. Qed.

Example splitWs_blank : Js.splitWs "   " = [""; ""].
Proof. reflexivity. Qed.

Example trim_both_ends : Js.trim "  a b  " = "a b".
Proof. reflexivity. Qed.

Example join_words : Js.join ["a"; "b"; "c"] = "a b c".
Proof. reflexivity. Qed.

Example slice_middle : Js.slice [1; 2; 3; 4; 5] 1 3 = [2; 3].
Proof. reflexivity. Qed.

Example slice_past_end : Js.slice [1; 2; 3; 4; 5] 3 10 = [4; 5].
Proof. reflexivity. Qed.

Example slice_negative : Js.slice [1; 2; 3; 4; 5] (-2) 5 = [4; 5].
Proof. reflexivity. Qed.

Example sortBy_is_stable :
  Js.sortBy (fun a b : Z * string => a.1 <=? b.1) [(2, "x"); (1, "y"); (2, "z"); (1, "w")]
  = [(1, "y"); (1, "w"); (2, "x"); (2, "z")].
Proof. reflexivity. Qed.

Example arrayFromSet_first_occurrence : Js.arrayFromSet ["b"; "a"; "b"; "c"; "a"] = ["b"; "a"; "c"].
Proof. by vm_compute. Qed.

Example ceilDiv_values :
  Js.ceilDiv 7 2 = 4 /\ Js.ceilDiv 8 2 = 4 /\ Js.ceilDiv 801 800 = 2 /\ Js.ceilDiv (-140) 800 = 0.
Proof. by vm_compute. Qed.

Example toUpperCase_choice : Js.toUpperCase "r" = "R" /\ Js.toUpperCase "Q" = "Q".
Proof. by vm_compute. Qed.

(** ** Routing *)

Lemma route_cases MAX s :
  routeAfterHumanReview MAX s = to_end \/ routeAfterHumanReview MAX s = to_reasoning.
Proof.
  unfold routeAfterHumanReview.
  destruct (feedbackApproved _ || noFeedback _)%bool; [by left|].
  destruct (_ >=? _); [by left | by right].
Qed.

Lemma route_end_iff MAX s :
  routeAfterHumanReview MAX s = to_end <->
  ((exists h, ResearchState.humanFeedback s = Some h /\ HumanFeedback.approved h = true)
   \/ ResearchState.humanFeedback s = None
   \/ MAX <= ResearchState.iterationCount s).
Proof.
  unfold routeAfterHumanReview, feedbackApproved, noFeedback.
  destruct (ResearchState.humanFeedback s) as [h|] eqn:Hf; simpl.
  - destruct (HumanFeedback.approved h) eqn:Ha; simpl.
    + split; [|done]. intros _. left. by exists h.
    + destruct (Z.geb_spec (ResearchState.iterationCount s) MAX) as [Hge|Hlt].
      * split; [|done]. intros _. right; right. lia.
      * split; [done|]. intros [(h' & Hh & Hap) | [Hn | Hle]].
        -- congruence.
        -- done.
        -- lia.
  - split; [|done]. intros _. right; by left.
Qed.

(** C1. After the human review the engine routes to termination exactly when
    the feedback is approved, or there is no feedback, or the iteration count
    has reached the configured maximum; in every other case it routes back to
    the reasoning (decompose) stage.  The same holds for the conditional edge
    of the graph. *)
Theorem C1_route_after_review (MAX : Z) (s : ResearchState.t) :
  let terminate :=
    (exists h, ResearchState.humanFeedback s = Some h /\ HumanFeedback.approved h = true)
    \/ ResearchState.humanFeedback s = None
    \/ MAX <= ResearchState.iterationCount s in
  (routeAfterHumanReview MAX s = to_end <-> terminate)
  /\ (routeAfterHumanReview MAX s = to_reasoning <-> ~ terminate)
  /\ (Graph.next MAX Graph.human_review s = Graph.END <-> terminate)
  /\ (Graph.next MAX Graph.human_review s = Graph.Goto Graph.reasoning <-> ~ terminate).
Proof.
  intros terminate.
  pose proof (route_end_iff MAX s) as Hend. fold terminate in Hend.
  assert (Hre : routeAfterHumanReview MAX s = to_reasoning <-> ~ terminate).
  { destruct (route_cases MAX s) as [He|Hr].
    - split; [congruence|]. intros Hn. exfalso. apply Hn, Hend, He.
    - split; [|done]. intros _ Ht. apply Hend in Ht. congruence. }
  repeat split; try tauto; simpl;
    destruct (routeAfterHumanReview MAX s) eqn:Hr; try done; try tauto.
  all: intros; exfalso; intuition congruence.
Qed.

(** ** The review stage *)

(** Whatever is typed at the terminal, an update returned by the review stage is
    one of three: the error update (no draft to review), the approval or
    the rejection. *)
Lemma humanReviewNode_returns now answers s u :
  humanReviewNode now answers s = Returned u ->
  (ResearchState.draftReport s = None
   /\ u = errorUpdate "No draft report available for review" NodeStatus.error)
  \/ (exists d, ResearchState.draftReport s = Some d /\ u = approveUpdate now d)
  \/ (exists d text changes,
        ResearchState.draftReport s = Some d /\ u = rejectUpdate now text changes).
Proof.
  induction answers as [|choice rest IH]; simpl.
  - destruct (ResearchState.draftReport s); [done|].
    intros [= <-]. by left.
  - destruct (ResearchState.draftReport s) as [d|] eqn:Hd.
    2: { intros [= <-]. by left. }
    repeat case_decide; try done.
    + intros [= <-]. right; left. by exists d.
    + destruct rest as [|text rest']; [done|].
      destruct (readChanges rest' []) as [changes|]; [|done].
      intros [= <-]. right; right. by exists d, text, changes.
Qed.

(** A rejection clears the retrieved chunks and the draft and leaves every
    accumulating channel, the iteration counter and the final report as they
    were. *)
Lemma applyUpdate_reject s now text changes :
  let s' := applyUpdate s (rejectUpdate now text changes) in
  ResearchState.retrievedChunks s' = []
  /\ ResearchState.draftReport s' = None
  /\ ResearchState.searchResults s' = ResearchState.searchResults s
  /\ ResearchState.scrapedContent s' = ResearchState.scrapedContent s
  /\ ResearchState.storedChunkIds s' = ResearchState.storedChunkIds s
  /\ ResearchState.errors s' = ResearchState.errors s
  /\ ResearchState.iterationCount s' = ResearchState.iterationCount s
  /\ ResearchState.finalReport s' = ResearchState.finalReport s
  /\ feedbackApproved (ResearchState.humanFeedback s') = false
  /\ noFeedback (ResearchState.humanFeedback s') = false.
Proof. by repeat split. Qed.

(** When the human rejects a draft at or past the iteration cap, the
    conditional edge leads to [END] although the rejection has just set the
    draft to [null] and has not written a final report. *)
Lemma reject_at_cap MAX now answers s u h :
  humanReviewNode now answers s = Returned u ->
  Update.humanFeedback u = Some (Some h) ->
  HumanFeedback.approved h = false ->
  MAX <= ResearchState.iterationCount s ->
  let s' := applyUpdate s u in
  routeAfterHumanReview MAX s' = to_end
  /\ ResearchState.draftReport s' = None
  /\ ResearchState.finalReport s' = ResearchState.finalReport s
  /\ finalOutput s' = ResearchState.finalReport s.
Proof.
  intros Hret Hfb Hap Hcap.
  destruct (humanReviewNode_returns _ _ _ _ Hret)
    as [[_ ->] | [(d & _ & ->) | (d & text & changes & Hd & ->)]].
  - done.
  - simpl in Hfb. injection Hfb as <-. done.
  - intros s'. subst s'. unfold routeAfterHumanReview, finalOutput. simpl.
    destruct (Z.geb_spec (ResearchState.iterationCount s) MAX); [|lia].
    repeat split. by destruct (ResearchState.finalReport s).
Qed.

(** C2 (the code departs from the claim).  A session reviews its third draft
    with the cap at 3 and the human rejects it: the engine routes to [END],
    but the draft has been set to [null] by the rejection and no final
    report is written, so the session ends with no report at all instead of
    the draft promoted to final. *)
Theorem C2_reject_at_cap_loses_draft :
  ResearchState.draftReport Sample.thirdDraft = Some Sample.report
  /\ ResearchState.iterationCount Sample.thirdDraft = 3
  /\ exists s',
      reviewTransition 3 Sample.now Sample.rejection Sample.thirdDraft = Some (s', to_end)
      /\ feedbackApproved (ResearchState.humanFeedback s') = false
      /\ Graph.next 3 Graph.human_review s' = Graph.END
      /\ ResearchState.draftReport s' = None
      /\ ResearchState.finalReport s' = None
      /\ finalOutput s' = None.
Proof.
  split; [done|]. split; [done|].
  eexists. split; [vm_compute; reflexivity|]. by repeat split.
Qed.




(** ** The merge policy *)

Lemma uniqueFrom_elem seen xs x :
  x ∈ Js.uniqueFrom seen xs <-> x ∈ xs /\ x ∉ seen.
Proof.
  revert seen. induction xs as [|y xs IH]; intros seen; simpl.
  - set_solver.
  - case_decide.
    + rewrite IH. set_solver.
    + rewrite !elem_of_cons, IH, not_elem_of_union, not_elem_of_singleton.
      split.
      * intros [-> | [? [? ?]]]; auto.
      * intros [[-> | ?] ?]; [by left|].
        destruct (decide (x = y)) as [->|]; [by left | right; auto].
Qed.

Lemma uniqueFrom_NoDup seen xs : NoDup (Js.uniqueFrom seen xs).
Proof.
  revert seen. induction xs as [|y xs IH]; intros seen; simpl.
  - constructor.
  - case_decide; [apply IH|].
    apply NoDup_cons. split; [|apply IH].
    rewrite uniqueFrom_elem. set_solver.
Qed.

Lemma uniqueFrom_app seen xs ys :
  Js.uniqueFrom seen (xs ++ ys)
  = Js.uniqueFrom seen xs ++ Js.uniqueFrom (list_to_set xs ∪ seen) ys.
Proof.
  revert seen. induction xs as [|x xs IH]; intros seen; simpl.
  - by rewrite (left_id_L ∅ (∪)).
  - case_decide as Hx.
    + rewrite IH. do 2 f_equal. set_solver.
    + rewrite IH. simpl. do 3 f_equal. set_solver.
Qed.

Lemma arrayFromSet_elem xs x : x ∈ Js.arrayFromSet xs <-> x ∈ xs.
Proof. unfold Js.arrayFromSet. rewrite uniqueFrom_elem. set_solver. Qed.

Lemma arrayFromSet_NoDup xs : NoDup (Js.arrayFromSet xs).
Proof. apply uniqueFrom_NoDup. Qed.

Lemma appendUnique_NoDup curr next : NoDup (Reducer.appendUnique curr next).
Proof. apply arrayFromSet_NoDup. Qed.

Lemma appendUnique_elem curr next x :
  x ∈ Reducer.appendUnique curr next <-> x ∈ curr \/ x ∈ next.
Proof. unfold Reducer.appendUnique. rewrite arrayFromSet_elem. apply elem_of_app. Qed.

Lemma applyUpdate_storedChunkIds_NoDup s u :
  NoDup (ResearchState.storedChunkIds s) ->
  NoDup (ResearchState.storedChunkIds (applyUpdate s u)).
Proof.
  intros Hs. simpl. destruct (Update.storedChunkIds u); simpl; [|done].
  apply appendUnique_NoDup.
Qed.

Lemma applyUpdates_storedChunkIds_NoDup us s :
  NoDup (ResearchState.storedChunkIds s) ->
  NoDup (ResearchState.storedChunkIds (applyUpdates s us)).
Proof.
  revert s. induction us as [|u us IH]; intros s Hs; simpl; [done|].
  apply IH. by apply applyUpdate_storedChunkIds_NoDup.
Qed.

(** C4 as stated fails on the error log: its reducer is a plain
    concatenation, so the same message logged by two passes is kept twice. *)
Lemma C4_error_log_keeps_duplicates :
  let u := errorUpdate "No retrieved chunks available for synthesis" NodeStatus.error in
  ResearchState.errors (applyUpdates ResearchState.initial [u; u])
  = ["No retrieved chunks available for synthesis";
     "No retrieved chunks available for synthesis"]
  /\ ~ NoDup (ResearchState.errors (applyUpdates ResearchState.initial [u; u])).
Proof.
  split; [reflexivity|].
  simpl. intros H. apply NoDup_cons in H as [H _]. apply H. by left.
Qed.

(** C4 (amended).  The merge applies one fixed policy per channel, whatever
    stage produced the update: the stage marker, the sub-queries, the
    retrieved chunks, the draft and final report, the human feedback and the
    iteration counter are replaced by the new value; search results, scraped
    pages and the error log are appended to the existing list (duplicates
    kept); stored-chunk identifiers are merged as a set, so no identifier
    appears twice in that channel after any sequence of updates.  A channel
    whose key is absent from the update keeps its value. *)
Theorem C4_merge_policy (s : ResearchState.t) (u : Update.t) (us : list Update.t) :
  let s' := applyUpdate s u in
  ResearchState.currentNode s'
    = default (ResearchState.currentNode s) (Update.currentNode u)
  /\ ResearchState.subQueries s'
    = default (ResearchState.subQueries s) (Update.subQueries u)
  /\ ResearchState.retrievedChunks s'
    = default (ResearchState.retrievedChunks s) (Update.retrievedChunks u)
  /\ ResearchState.draftReport s'
    = default (ResearchState.draftReport s) (Update.draftReport u)
  /\ ResearchState.finalReport s'
    = default (ResearchState.finalReport s) (Update.finalReport u)
  /\ ResearchState.humanFeedback s'
    = default (ResearchState.humanFeedback s) (Update.humanFeedback u)
  /\ ResearchState.iterationCount s'
    = default (ResearchState.iterationCount s) (Update.iterationCount u)
  /\ ResearchState.searchResults s'
    = ResearchState.searchResults s ++ default [] (Update.searchResults u)
  /\ ResearchState.scrapedContent s'
    = ResearchState.scrapedContent s ++ default [] (Update.scrapedContent u)
  /\ ResearchState.errors s'
    = ResearchState.errors s ++ default [] (Update.errors u)
  /\ match Update.storedChunkIds u with
     | Some ids =>
         NoDup (ResearchState.storedChunkIds s')
         /\ forall x, x ∈ ResearchState.storedChunkIds s'
                      <-> x ∈ ResearchState.storedChunkIds s \/ x ∈ ids
     | None => ResearchState.storedChunkIds s' = ResearchState.storedChunkIds s
     end
  /\ NoDup (ResearchState.storedChunkIds (applyUpdates ResearchState.initial us)).
Proof.
  simpl. unfold Reducer.channel, Reducer.replace, Reducer.append.
  split_and!.
  1-7: by destruct u as [? ? ? ? ? ? ? ? ? ? ? ?]; simpl;
       repeat match goal with o : option _ |- _ => destruct o end.
  1-3: destruct u as [? ? ? ? ? ? ? ? ? ? ? ?]; simpl;
       repeat match goal with o : option _ |- _ => destruct o end;
       simpl; by rewrite ?app_nil_r.
  - destruct (Update.storedChunkIds u) as [ids|]; [|done].
    split; [apply appendUnique_NoDup|]. intros x. apply appendUnique_elem.
  - apply applyUpdates_storedChunkIds_NoDup. constructor.
Qed.

(** ** Array slices *)

Lemma slice_from_0 {A} (xs : list A) (n : Z) :
  0 <= n -> Js.slice xs 0 n = take (Z.to_nat n) xs.
Proof.
  intros Hn. unfold Js.slice, Js.relIndex.
  destruct (Z.ltb_spec 0 0) as [?|_]; [lia|].
  destruct (Z.ltb_spec n 0) as [?|_]; [lia|].
  rewrite (Z.min_l 0) by lia. change (Z.to_nat 0) with 0%nat.
  rewrite drop_0, Z.sub_0_r.
  destruct (Z.min_spec n (Z.of_nat (length xs))) as [[_ ->]|[Hle ->]]; [done|].
  rewrite Nat2Z.id, firstn_all. symmetry. apply firstn_all2. lia.
Qed.

(** ** Citations *)

Lemma fold_left_map_arg {A B C} (f : A -> B -> A) (g : C -> B) (l : list C) (a : A) :
  fold_left (fun acc x => f acc (g x)) l a = fold_left f (map g l) a.
Proof. revert a. induction l as [|x l IH]; intros a; simpl; [done | apply IH]. Qed.

Lemma map_seq_shift_Z (n : Z) (k : nat) :
  n :: map (fun i => n + 1 + Z.of_nat i) (seq 0 k)
  = map (fun i => n + Z.of_nat i) (seq 0 (S k)).
Proof.
  simpl. f_equal; [lia|].
  rewrite <- seq_shift, map_map. apply map_ext. intros i. lia.
Qed.

(** The loop invariant of [buildCitationMap]: a run of guarded insertions
    appends one citation per url not seen before, in order of first
    appearance, with consecutive ids from [nextId] on. *)
Lemma cite_fold (sources : list (string * string)) (m : list Citation.t) (nextId : Z) :
  exists new,
    fold_left (fun acc p => cite acc p.1 p.2) sources (m, nextId)
    = (m ++ new, nextId + Z.of_nat (length new))
    /\ map Citation.id new = map (fun i => nextId + Z.of_nat i) (seq 0 (length new))
    /\ map Citation.url new
       = Js.uniqueFrom (list_to_set (map Citation.url m)) (map fst sources).
Proof.
  revert m nextId. induction sources as [|[url title] sources IH]; intros m nextId.
  - exists []. simpl. rewrite app_nil_r, Z.add_0_r. done.
  - simpl. unfold hasUrl. case_bool_decide as Hin; case_decide as Hin'.
    + apply IH.
    + exfalso. apply Hin'. by apply elem_of_list_to_set.
    + exfalso. apply Hin. by apply elem_of_list_to_set in Hin'.
    + destruct (IH (m ++ [Citation.mk nextId url title None]) (nextId + 1))
        as (new & Hfold & Hids & Hurls).
      exists (Citation.mk nextId url title None :: new). split_and!.
      * rewrite Hfold, <- app_assoc. simpl. f_equal. lia.
      * simpl length. rewrite <- map_seq_shift_Z. simpl. by rewrite Hids.
      * simpl. f_equal. rewrite Hurls. f_equal.
        rewrite map_app. simpl. set_solver.
Qed.

(** C5. The citation list of one synthesis pass carries the ids 1..K with
    no gap and no repeat, exactly one per distinct source url: the urls of
    the retrieved chunks come first, in order of first appearance, and the
    urls of the first 20 raw search results that are not cited yet receive
    the remaining ids. *)
Theorem C5_citation_ids_contiguous (s : ResearchState.t) :
  let citations := buildCitationMap s in
  let K := length citations in
  let chunkUrls :=
    map (fun c => ChunkMetadata.url (RetrievedChunk.metadata c))
        (ResearchState.retrievedChunks s) in
  let resultUrls := map SearchResult.url (take 20 (ResearchState.searchResults s)) in
  map Citation.id citations = map Z.of_nat (seq 1 K)
  /\ NoDup (map Citation.url citations)
  /\ map Citation.url citations
     = Js.arrayFromSet chunkUrls ++ Js.uniqueFrom (list_to_set chunkUrls) resultUrls
  /\ (forall u, u ∈ map Citation.url citations <-> u ∈ chunkUrls \/ u ∈ resultUrls).
Proof.
  intros citations K chunkUrls resultUrls.
  assert (Hurls : map Citation.url citations
                  = Js.arrayFromSet (chunkUrls ++ resultUrls)
                  /\ map Citation.id citations = map Z.of_nat (seq 1 K)).
  { subst citations K. unfold buildCitationMap.
    rewrite slice_from_0 by lia. change (Z.to_nat 20) with 20%nat.
    rewrite (fold_left_map_arg (fun acc p => cite acc p.1 p.2)
               (fun c => (ChunkMetadata.url (RetrievedChunk.metadata c),
                          ChunkMetadata.title (RetrievedChunk.metadata c)))).
    rewrite (fold_left_map_arg (fun acc p => cite acc p.1 p.2)
               (fun r => (SearchResult.url r, SearchResult.title r))).
    rewrite <- fold_left_app.
    destruct (cite_fold
                (map (fun c => (ChunkMetadata.url (RetrievedChunk.metadata c),
                                ChunkMetadata.title (RetrievedChunk.metadata c)))
                     (ResearchState.retrievedChunks s)
                 ++ map (fun r => (SearchResult.url r, SearchResult.title r))
                     (take 20 (ResearchState.searchResults s))) [] 1)
      as (new & -> & Hids & Hu).
    simpl. split.
    - rewrite Hu. unfold Js.arrayFromSet. simpl. f_equal.
      subst chunkUrls resultUrls. by rewrite map_app, !map_map.
    - rewrite Hids, <- seq_shift, map_map. apply map_ext. intros i. lia. }
  destruct Hurls as [Hurls Hids]. split_and!.
  - exact Hids.
  - rewrite Hurls. apply arrayFromSet_NoDup.
  - rewrite Hurls. unfold Js.arrayFromSet. rewrite uniqueFrom_app.
    do 2 f_equal. set_solver.
  - intros u. rewrite Hurls, arrayFromSet_elem. apply elem_of_app.
Qed.

(** ** Sorting *)

Section SortBy.
Context {A : Type} (le : A -> A -> bool).
Hypothesis le_total : forall a b, le a b = false -> le b a = true.
Hypothesis le_trans : forall a b c, le a b = true -> le b c = true -> le a c = true.

Lemma insertBy_perm x l : Permutation (Js.insertBy le x l) (x :: l).
Proof.
  induction l as [|y l IH]; simpl; [done|].
  destruct (le x y); [done|].
  rewrite IH. apply perm_swap.
Qed.

Lemma sortBy_perm l : Permutation (Js.sortBy le l) l.
Proof.
  induction l as [|x l IH]; simpl; [done|].
  rewrite insertBy_perm. by constructor.
Qed.

Lemma insertBy_sorted x l :
  StronglySorted (fun a b => le a b = true) l ->
  StronglySorted (fun a b => le a b = true) (Js.insertBy le x l).
Proof using le_total le_trans.
  induction 1 as [|y l Hs IH Hall]; simpl.
  - repeat constructor.
  - destruct (le x y) eqn:Hxy.
    + constructor; [by constructor|].
      constructor; [done|].
      eapply Forall_impl; [exact Hall|]. intros z Hz. by eapply le_trans.
    + constructor; [exact IH|].
      eapply Permutation_Forall; [symmetry; apply insertBy_perm|].
      constructor; [by apply le_total | exact Hall].
Qed.

Lemma sortBy_sorted l : StronglySorted (fun a b => le a b = true) (Js.sortBy le l).
Proof using le_total le_trans.
  induction l as [|x l IH]; simpl; [constructor | by apply insertBy_sorted].
Qed.

End SortBy.

Lemma StronglySorted_mono {A} (R R' : A -> A -> Prop) (l : list A) :
  (forall a b, R a b -> R' a b) -> StronglySorted R l -> StronglySorted R' l.
Proof.
  intros HR. induction 1 as [|x l Hs IH Hall]; constructor; [done|].
  eapply Forall_impl; [exact Hall | apply HR].
Qed.

Lemma StronglySorted_take {A} (R : A -> A -> Prop) (n : nat) (l : list A) :
  StronglySorted R l -> StronglySorted R (take n l).
Proof.
  intros Hs. revert n. induction Hs as [|x l Hs IH Hall]; intros [|n]; simpl;
    try constructor.
  - apply IH.
  - apply Forall_take, Hall.
Qed.

(** ** Retrieval *)

Lemma dedupStep_inv acc chunk : dedupInv acc -> dedupInv (dedupStep acc chunk).
Proof.
  destruct acc as [seen kept]. intros (Hseen & Hnd & Hlong). unfold dedupStep.
  case_bool_decide as Hkey; simpl; [|done].
  destruct (Z.ltb_spec 50 (Js.strlen (RetrievedChunk.content chunk))) as [Hlen|];
    simpl; [|done].
  split_and!; simpl in *.
  - intros c [Hc | ->%list_elem_of_singleton]%elem_of_app; [|set_solver].
    specialize (Hseen c Hc). set_solver.
  - rewrite map_app. simpl. apply NoDup_app. split_and!; [done| |apply NoDup_singleton].
    intros k Hk ->%list_elem_of_singleton.
    apply list_elem_of_In, in_map_iff in Hk as (c & Hkc & Hc).
    apply Hkey. rewrite <- Hkc. apply Hseen. by apply list_elem_of_In.
  - apply Forall_app. split; [done|]. by constructor.
Qed.

Lemma dedup_fold_inv results acc :
  dedupInv acc -> dedupInv (fold_left dedupStep results acc).
Proof.
  revert acc. induction results as [|c results IH]; intros acc Hacc; simpl; [done|].
  by apply IH, dedupStep_inv.
Qed.

Lemma dedupChunks_inv allResults :
  NoDup (map dedupKey (dedupChunks allResults))
  /\ Forall (fun c => 50 < Js.strlen (RetrievedChunk.content c)) (dedupChunks allResults).
Proof.
  unfold dedupChunks.
  assert (H : forall acc, dedupInv acc ->
            dedupInv (fold_left (fun acc results => fold_left dedupStep results acc)
                        allResults acc)).
  { induction allResults as [|r rs IH]; intros acc Hacc; simpl; [done|].
    by apply IH, dedup_fold_inv. }
  destruct (H (∅, [])) as (_ & Hnd & Hlong); [|done].
  split_and!; simpl; [set_solver | constructor | constructor].
Qed.

Lemma byRelevanceDesc_total a b :
  byRelevanceDesc a b = false -> byRelevanceDesc b a = true.
Proof.
  unfold byRelevanceDesc. intros H. apply Qle_bool_iff.
  destruct (Qlt_le_dec (RetrievedChunk.relevanceScore a) (RetrievedChunk.relevanceScore b))
    as [Hlt|Hle].
  - by apply Qlt_le_weak.
  - apply Qle_bool_iff in Hle. congruence.
Qed.

Lemma byRelevanceDesc_trans a b c :
  byRelevanceDesc a b = true -> byRelevanceDesc b c = true -> byRelevanceDesc a c = true.
Proof.
  unfold byRelevanceDesc. rewrite !Qle_bool_iff. intros H1 H2. by eapply Qle_trans.
Qed.

(** What the ranking guarantees for any batch of query results. *)
Lemma topChunks_spec allResults :
  (length (topChunks allResults) <= 20)%nat
  /\ StronglySorted
       (fun a b => (RetrievedChunk.relevanceScore b <= RetrievedChunk.relevanceScore a)%Q)
       (topChunks allResults)
  /\ NoDup (map dedupKey (topChunks allResults))
  /\ Forall (fun c => 50 < Js.strlen (RetrievedChunk.content c)) (topChunks allResults).
Proof.
  unfold topChunks, MAX_TOTAL_CHUNKS. rewrite slice_from_0 by lia.
  change (Z.to_nat 20) with 20%nat.
  destruct (dedupChunks_inv allResults) as [Hnd Hlong].
  pose proof (sortBy_perm byRelevanceDesc (dedupChunks allResults)) as Hperm.
  split_and!.
  - rewrite length_take. lia.
  - apply StronglySorted_take.
    eapply StronglySorted_mono;
      [|apply (sortBy_sorted byRelevanceDesc byRelevanceDesc_total byRelevanceDesc_trans)].
    intros a b Hab. by apply Qle_bool_iff.
  - change (take 20 ?l) with (firstn 20 l).
    rewrite <- firstn_map.
    apply (sublist_NoDup _ (map dedupKey (Js.sortBy byRelevanceDesc (dedupChunks allResults)))).
    + by rewrite (Permutation_map dedupKey Hperm).
    + apply sublist_take.
  - apply Forall_take. eapply Permutation_Forall; [symmetry; exact Hperm | exact Hlong].
Qed.

Lemma retrievalNode_chunks tool s cs :
  Update.retrievedChunks (retrievalNode tool s) = Some cs ->
  exists allResults,
    promiseAll (map (fun q => (retrieveFromVectorDB tool q TOP_K_PER_QUERY).2)
                    (retrievalQueries s)) = Ok allResults
    /\ cs = topChunks allResults.
Proof.
  unfold retrievalNode.
  destruct (promiseAll _) as [allResults|m]; simpl; [|done].
  intros [= <-]. by exists allResults.
Qed.

(** C6. The chunk list a retrieval pass puts in place of the previous one
    has at most 20 entries, is sorted by non-increasing relevance score, has
    no two entries with the same trimmed 100-character content prefix, and
    has no chunk of 50 characters or fewer. *)
Theorem C6_retrieval_ranked_deduplicated
    (tool : VectorTool) (s : ResearchState.t) (cs : list RetrievedChunk.t) :
  Update.retrievedChunks (retrievalNode tool s) = Some cs ->
  ResearchState.retrievedChunks (applyUpdate s (retrievalNode tool s)) = cs
  /\ (length cs <= 20)%nat
  /\ StronglySorted
       (fun a b => (RetrievedChunk.relevanceScore b <= RetrievedChunk.relevanceScore a)%Q) cs
  /\ NoDup (map (fun c => Js.trim (Js.sliceTo 100 (RetrievedChunk.content c))) cs)
  /\ Forall (fun c => 50 < Js.strlen (RetrievedChunk.content c)) cs.
Proof.
  intros Hcs. split.
  - simpl. by rewrite Hcs.
  - destruct (retrievalNode_chunks _ _ _ Hcs) as (allResults & _ & ->).
    apply topChunks_spec.
Qed.

Lemma C6_retrieval_witness :
  exists cs,
    Update.retrievedChunks (retrievalNode Sample.vectorTool Sample.revising) = Some cs
    /\ length cs = 2%nat
    /\ StronglySorted
         (fun a b => (RetrievedChunk.relevanceScore b <= RetrievedChunk.relevanceScore a)%Q) cs
    /\ NoDup (map (fun c => Js.trim (Js.sliceTo 100 (RetrievedChunk.content c))) cs).
Proof.
  exists (topChunks
            [List.filter (fun c => 20 <? Js.strlen (RetrievedChunk.content c))
               (map rowToChunk Sample.rows);
             List.filter (fun c => 20 <? Js.strlen (RetrievedChunk.content c))
               (map rowToChunk Sample.rows);
             List.filter (fun c => 20 <? Js.strlen (RetrievedChunk.content c))
               (map rowToChunk Sample.rows);
             List.filter (fun c => 20 <? Js.strlen (RetrievedChunk.content c))
               (map rowToChunk Sample.rows)]).
  assert (Hcs : Update.retrievedChunks (retrievalNode Sample.vectorTool Sample.revising)
                = Some (topChunks
                          [List.filter (fun c => 20 <? Js.strlen (RetrievedChunk.content c))
                             (map rowToChunk Sample.rows);
                           List.filter (fun c => 20 <? Js.strlen (RetrievedChunk.content c))
                             (map rowToChunk Sample.rows);
                           List.filter (fun c => 20 <? Js.strlen (RetrievedChunk.content c))
                             (map rowToChunk Sample.rows);
                           List.filter (fun c => 20 <? Js.strlen (RetrievedChunk.content c))
                             (map rowToChunk Sample.rows)]))
    by reflexivity.
  destruct (C6_retrieval_ranked_deduplicated Sample.vectorTool Sample.revising _ Hcs)
    as (_ & _ & Hsorted & Hnodup & _).
  split; [exact Hcs|]. split; [by vm_compute|]. split; [exact Hsorted | exact Hnodup].
Defined.

(** ** The vector store adapter *)

(** C10. For every query text and requested count [topK], the retrieval
    function asks the store for min(topK, number of stored documents)
    results, so never for more than either; it returns the empty list
    without querying when the store holds no document; and every chunk it
    returns is longer than 20 characters and carries the relevance score
    max(0, 1 - distance/2) of the row it comes from (distance 1 when the
    store reports none). *)
Theorem C10_retrieve_from_vector_db (tool : VectorTool) (query : string) (topK : Z) :
  let col := getCollection tool in
  let calls := (retrieveFromVectorDB tool query topK).1 in
  let result := (retrieveFromVectorDB tool query topK).2 in
  (forall count e n,
      Chroma.count col = Ok count ->
      Chroma.QueryCall e n ∈ calls ->
      embedQuery tool query = Ok e /\ n = Z.min topK count /\ n <= topK /\ n <= count)
  /\ (Chroma.count col = Ok 0 -> result = Ok [] /\ calls = [Chroma.CountCall])
  /\ (forall chunks chunk,
        result = Ok chunks ->
        chunk ∈ chunks ->
        20 < Js.strlen (RetrievedChunk.content chunk)
        /\ exists count e rows row,
             Chroma.count col = Ok count
             /\ embedQuery tool query = Ok e
             /\ Chroma.query col e (Z.min topK count) = Ok (Some rows)
             /\ row ∈ rows
             /\ RetrievedChunk.content chunk = default "" (Chroma.document row)
             /\ RetrievedChunk.metadata chunk = Chroma.metadata row
             /\ RetrievedChunk.relevanceScore chunk
                = Qmax 0 (1 - default 1%Q (Chroma.distance row) / 2)%Q).
Proof.
  intros col calls result. subst col calls result. unfold retrieveFromVectorDB.
  destruct (Chroma.count (getCollection tool)) as [count|m] eqn:Hcount.
  2: { split_and!; simpl; done. }
  destruct (Z.eqb_spec count 0) as [->|Hne].
  { split_and!; simpl; try done.
    - intros ? ? ? ? H. by apply list_elem_of_singleton in H.
    - intros chunks chunk [= <-] H. by apply elem_of_nil in H. }
  destruct (embedQuery tool query) as [e|m] eqn:He.
  2: { split_and!; simpl; try done.
       - intros ? ? ? ? H. by apply list_elem_of_singleton in H.
       - by intros [= ->]. }
  assert (Hcalls : forall (r : Result (list RetrievedChunk.t)) count' e' n,
             Ok count = Ok count' ->
             Chroma.QueryCall e' n
               ∈ ([Chroma.CountCall; Chroma.QueryCall e (Z.min topK count)], r).1 ->
             Ok e = Ok e' /\ n = Z.min topK count' /\ n <= topK /\ n <= count').
  { intros r count' e' n [= <-]. simpl.
    rewrite !elem_of_cons. intros [H | [[= -> ->] | H]];
      [done | split_and!; done || lia |].
    by apply elem_of_nil in H. }
  destruct (Chroma.query (getCollection tool) e (Z.min topK count)) as [[rows|]|m] eqn:Hq.
  - split_and!; [apply Hcalls | by intros [= ->] |].
    simpl. intros chunks chunk [= <-] Hin.
    apply list_elem_of_In, filter_In in Hin as [Hin Hlen].
    apply in_map_iff in Hin as (row & <- & Hrow).
    split; [by apply Z.ltb_lt|].
    exists count, e, rows, row. split_and!; try done. by apply list_elem_of_In.
  - split_and!; [apply Hcalls | by intros [= ->] |].
    simpl. intros chunks chunk [= <-] H. by apply elem_of_nil in H.
  - split_and!; [apply Hcalls | by intros [= ->] | done].
Qed.

Lemma C10_retrieve_witness :
  let calls := (retrieveFromVectorDB Sample.vectorTool "surface code" 5).1 in
  let result := (retrieveFromVectorDB Sample.vectorTool "surface code" 5).2 in
  calls = [Chroma.CountCall; Chroma.QueryCall [(12 # 100)%Q] 3]
  /\ exists chunks,
       result = Ok chunks
       /\ length chunks = 3%nat
       /\ map RetrievedChunk.relevanceScore chunks
          = map relevanceOfDistance [(2 # 5)%Q; (1 # 5)%Q; 1%Q]
       /\ forall chunk, chunk ∈ chunks -> 20 < Js.strlen (RetrievedChunk.content chunk).
Proof.
  split; [reflexivity|].
  eexists. split; [vm_compute; reflexivity|].
  split; [reflexivity|]. split; [vm_compute; reflexivity|].
  intros chunk Hin.
  by destruct (C10_retrieve_from_vector_db Sample.vectorTool "surface code" 5)
    as (_ & _ & H); destruct (H _ chunk eq_refl Hin) as [Hlen _].
Defined.

(** ** Per-item failures in search and scrape *)

Section Search.
Variable executeSearch : string -> Z -> Result (list SearchResult.t).

(** A rejected search is the same as no search: the loop over all
    sub-queries computes what it computes over those whose call succeeded. *)
Lemma search_fold_skips_failures prioritized acc :
  fold_left (searchStep executeSearch) prioritized acc
  = fold_left (searchStep executeSearch)
      (List.filter (searchSucceeded executeSearch) prioritized) acc.
Proof.
  revert acc. induction prioritized as [|sq l IH]; intros acc; simpl; [done|].
  unfold searchSucceeded at 1.
  destruct (executeSearch (SubQuery.query sq) MAX_RESULTS_PER_QUERY) as [results|m] eqn:Hsq.
  - simpl. rewrite <- IH. done.
  - rewrite <- IH. unfold searchStep at 2. destruct acc. by rewrite Hsq.
Qed.

(** The loop invariant: the new results all come from fulfilled searches,
    and every url a fulfilled search returned is known afterwards. *)
Lemma search_fold_spec prioritized existingUrls allNewResults :
  exists new,
    fold_left (searchStep executeSearch) prioritized (existingUrls, allNewResults)
    = (list_to_set (map SearchResult.url new) ∪ existingUrls, allNewResults ++ new)
    /\ (forall r, r ∈ new ->
          exists sq results,
            sq ∈ prioritized
            /\ executeSearch (SubQuery.query sq) MAX_RESULTS_PER_QUERY = Ok results
            /\ r ∈ results)
    /\ (forall sq results r,
          sq ∈ prioritized ->
          executeSearch (SubQuery.query sq) MAX_RESULTS_PER_QUERY = Ok results ->
          r ∈ results ->
          SearchResult.url r ∈ existingUrls \/ SearchResult.url r ∈ map SearchResult.url new).
Proof.
  revert existingUrls allNewResults.
  induction prioritized as [|sq l IH]; intros E acc.
  - exists []. simpl. split_and!.
    + f_equal; [set_solver | by rewrite app_nil_r].
    + intros r Hr. by apply elem_of_nil in Hr.
    + intros sq results r Hsq. by apply elem_of_nil in Hsq.
  - simpl.
    destruct (executeSearch (SubQuery.query sq) MAX_RESULTS_PER_QUERY) as [results|m] eqn:Hsq.
    + set (fresh := List.filter (fun r => bool_decide (SearchResult.url r ∉ E)) results).
      destruct (IH (list_to_set (map SearchResult.url fresh) ∪ E) (acc ++ fresh))
        as (new & Hfold & Hfrom & Hall).
      exists (fresh ++ new). split_and!.
      * rewrite Hfold. f_equal; [|by rewrite app_assoc].
        rewrite map_app, list_to_set_app_L. set_solver.
      * intros r [Hr | Hr]%elem_of_app.
        -- exists sq, results. split_and!; [by left | done |].
           apply list_elem_of_In, filter_In in Hr as [Hr _]. by apply list_elem_of_In.
        -- destruct (Hfrom r Hr) as (sq' & results' & Hin & Hok & Hr').
           exists sq', results'. split_and!; [by right | done | done].
      * intros sq' results' r [-> | Hin]%elem_of_cons Hok Hr.
        -- rewrite Hsq in Hok. injection Hok as <-.
           destruct (decide (SearchResult.url r ∈ E)) as [HE|HE]; [by left|].
           right. rewrite map_app, elem_of_app. left.
           apply list_elem_of_In, in_map, filter_In. split; [by apply list_elem_of_In|].
           by apply bool_decide_eq_true.
        -- destruct (Hall sq' results' r Hin Hok Hr) as [HE | Hn].
           ++ apply elem_of_union in HE as [HE | HE]; [|by left].
              right. rewrite map_app, elem_of_app. left.
              by apply elem_of_list_to_set in HE.
           ++ right. rewrite map_app, elem_of_app. by right.
    + destruct (IH E acc) as (new & Hfold & Hfrom & Hall).
      exists new. split_and!; [done | |].
      * intros r Hr. destruct (Hfrom r Hr) as (sq' & results' & Hin & Hok & Hr').
        exists sq', results'. split_and!; [by right | done | done].
      * intros sq' results' r [-> | Hin]%elem_of_cons Hok Hr; [congruence|].
        by apply (Hall sq' results' r).
Qed.

End Search.

Lemma slice_nonneg {A} (xs : list A) (a b : Z) :
  0 <= a -> a <= b ->
  Js.slice xs a b = take (Z.to_nat (b - a)) (drop (Z.to_nat a) xs).
Proof.
  intros Ha Hab. unfold Js.slice, Js.relIndex.
  destruct (Z.ltb_spec a 0) as [?|_]; [lia|].
  destruct (Z.ltb_spec b 0) as [?|_]; [lia|].
  set (len := Z.of_nat (length xs)).
  destruct (Z.le_gt_cases a len) as [Hal|Hal].
  - rewrite (Z.min_l a) by done.
    destruct (Z.le_gt_cases b len) as [Hbl|Hbl].
    + by rewrite (Z.min_l b).
    + rewrite (Z.min_r b) by lia.
      rewrite !firstn_all2; [done | |]; rewrite length_drop; subst len; lia.
  - rewrite (Z.min_r a), (Z.min_r b) by lia.
    rewrite !(skipn_all2 xs) by (subst len; lia).
    by rewrite !firstn_nil.
Qed.

Lemma promiseAll_all_ok {A B} (f : A -> Result B) (g : A -> B) (l : list A) :
  (forall x, x ∈ l -> f x = Ok (g x)) -> promiseAll (map f l) = Ok (map g l).
Proof.
  induction l as [|x l IH]; intros Hf; simpl; [done|].
  rewrite (Hf x) by by left. rewrite IH; [done|]. intros y Hy. apply Hf. by right.
Qed.

Lemma promiseAll_throws {A} (ps : list (Result A)) m :
  Throw m ∈ ps -> exists m', promiseAll ps = Throw m'.
Proof.
  induction ps as [|p ps IH]; intros Hin; [by apply elem_of_nil in Hin|].
  simpl. destruct p as [a|m0]; [|by eexists].
  apply elem_of_cons in Hin as [?|Hin]; [done|].
  destruct (IH Hin) as (m' & ->). by eexists.
Qed.

Lemma promiseAll_fulfilled {A} (l : list A) : promiseAll (map Ok l) = Ok l.
Proof. induction l as [|x l IH]; simpl; [done | by rewrite IH]. Qed.

Lemma promiseAll_app {A} (ps qs : list (Result A)) :
  promiseAll (ps ++ qs)
  = match promiseAll ps with
    | Throw m => Throw m
    | Ok l =>
        match promiseAll qs with
        | Throw m => Throw m
        | Ok l' => Ok (l ++ l')
        end
    end.
Proof.
  induction ps as [|[a|m] ps IH]; simpl.
  - by destruct (promiseAll qs).
  - rewrite IH. destruct (promiseAll ps); [|done]. by destruct (promiseAll qs).
  - done.
Qed.

(** An update of all the promises that are fulfilled: the values in order. *)
Lemma promiseAll_ok_inv {A} (ps : list (Result A)) (l : list A) :
  promiseAll ps = Ok l -> ps = map Ok l.
Proof.
  revert l. induction ps as [|[a|m] ps IH]; intros l; simpl.
  - by intros [= <-].
  - destruct (promiseAll ps) as [l'|]; [|done]. intros [= <-]. simpl. by rewrite (IH l').
  - done.
Qed.

Lemma promiseAll_throw_inv {A} (ps : list (Result A)) m :
  promiseAll ps = Throw m -> Throw m ∈ ps.
Proof.
  induction ps as [|[a|m0] ps IH]; simpl; [done | |].
  - destruct (promiseAll ps); [done|]. intros [= ->]. right. by apply IH.
  - intros [= ->]. by left.
Qed.

Section Scrape.
Variable scrapeUrl : string -> Result ScrapedContent.t.

(** With a positive concurrency the batches cover the url list in order,
    and the first rejection ends the loop. *)
Lemma scrapeLoop_spec fuel urls concurrency i results :
  0 < concurrency -> 0 <= i ->
  (Z.to_nat (Z.of_nat (length urls) - i) < fuel)%nat ->
  scrapeLoop scrapeUrl fuel urls concurrency i results
  = Some (match promiseAll (map scrapeUrl (drop (Z.to_nat i) urls)) with
          | Ok pages => Ok (results ++ pages)
          | Throw m => Throw m
          end).
Proof.
  intros Hc. revert i results.
  induction fuel as [|fuel IH]; intros i results Hi Hfuel; [lia|].
  simpl. destruct (Z.ltb_spec i (Z.of_nat (length urls))) as [Hlt|Hge].
  - assert (Hsplit : drop (Z.to_nat i) urls
                     = Js.slice urls i (i + concurrency)
                       ++ drop (Z.to_nat (i + concurrency)) urls).
    { rewrite slice_nonneg by lia.
      replace (i + concurrency - i) with concurrency by lia.
      rewrite Z2Nat.inj_add by lia.
      rewrite Nat.add_comm, <- skipn_skipn. symmetry. apply firstn_skipn. }
    rewrite Hsplit, map_app, promiseAll_app.
    destruct (promiseAll (map scrapeUrl (Js.slice urls i (i + concurrency))))
      as [batchResults|m]; [|done].
    rewrite IH by lia.
    destruct (promiseAll (map scrapeUrl (drop (Z.to_nat (i + concurrency)) urls)));
      [|done].
    by rewrite app_assoc.
  - rewrite skipn_all2 by lia. simpl. by rewrite app_nil_r.
Qed.

(** [scrapeUrls] fetches every url; when every scrape is fulfilled, the
    pages whose fetch failed, or that are too short, are dropped from the
    result and nothing else is; a rejected scrape rejects the call. *)
Lemma scrapeUrls_spec urls concurrency :
  0 < concurrency ->
  scrapeUrls scrapeUrl urls concurrency
  = Some (match promiseAll (map scrapeUrl urls) with
          | Ok pages => Ok (List.filter scrapeSucceeded pages)
          | Throw m => Throw m
          end).
Proof.
  intros Hc. unfold scrapeUrls. rewrite scrapeLoop_spec by lia.
  change (Z.to_nat 0) with 0%nat. rewrite drop_0.
  by destruct (promiseAll (map scrapeUrl urls)).
Qed.

Lemma filter_idem {A} (f : A -> bool) (l : list A) :
  List.filter f (List.filter f l) = List.filter f l.
Proof.
  induction l as [|x l IH]; simpl; [done|].
  destruct (f x) eqn:Hx; simpl; [rewrite Hx; by f_equal | done].
Qed.

(** The scraper stage always returns.  When every scrape is fulfilled it
    logs nothing and hands the successful pages on to indexing. *)
Lemma scraperNode_spec s pages :
  ResearchState.searchResults s <> [] ->
  map scrapeUrl (urlsToScrape s) = map Ok pages ->
  exists u,
    scraperNode scrapeUrl s = Some u
    /\ Update.errors u = None
    /\ Update.currentNode u = Some NodeStatus.storing
    /\ default [] (Update.scrapedContent u) = List.filter scrapeSucceeded pages.
Proof.
  intros Hsr Hok. unfold scraperNode.
  destruct (ResearchState.searchResults s) as [|r rs] eqn:Hrs; [done|].
  destruct (urlsToScrape s) as [|url urls] eqn:Hurls.
  - destruct pages; [|done]. eexists. split; [done|]. by split_and!.
  - rewrite scrapeUrls_spec by done. rewrite Hok, promiseAll_fulfilled.
    eexists. split; [done|]. split_and!; [done | done |].
    exact (filter_idem scrapeSucceeded _).
Qed.

(** A rejected scrape aborts the stage: the update is an error update. *)
Lemma scraperNode_rejected s url m :
  ResearchState.searchResults s <> [] ->
  url ∈ urlsToScrape s -> scrapeUrl url = Throw m ->
  exists m', scraperNode scrapeUrl s = Some (errorUpdate m' NodeStatus.error).
Proof.
  intros Hsr Hin Hthrow. unfold scraperNode.
  destruct (ResearchState.searchResults s) as [|r rs] eqn:Hrs; [done|].
  destruct (urlsToScrape s) as [|url0 urls] eqn:Hurls; [by apply elem_of_nil in Hin|].
  rewrite scrapeUrls_spec by done.
  destruct (promiseAll_throws (map scrapeUrl (url0 :: urls)) m) as (m' & ->).
  - rewrite <- Hthrow. apply list_elem_of_In, in_map, list_elem_of_In, Hin.
  - by exists m'.
Qed.

(** Whatever the scrapes come to, the stage returns an update: either every
    scrape was fulfilled and the update holds the pages that passed the
    success filter, or the update holds no pages at all. *)
Lemma scraperNode_cases s :
  exists u,
    scraperNode scrapeUrl s = Some u
    /\ ((exists pages,
           map scrapeUrl (urlsToScrape s) = map Ok pages
           /\ Update.scrapedContent u = Some (List.filter scrapeSucceeded pages))
        \/ Update.scrapedContent u = None).
Proof.
  unfold scraperNode.
  destruct (ResearchState.searchResults s) as [|r rs] eqn:Hrs.
  { eexists. split; [done|]. by right. }
  destruct (urlsToScrape s) as [|url urls] eqn:Hurls.
  { eexists. split; [done|]. by right. }
  rewrite scrapeUrls_spec by done.
  destruct (promiseAll (map scrapeUrl (url :: urls))) as [pages|m] eqn:Hall.
  2:{ eexists. split; [done|]. by right. }
  eexists. split; [done|]. left. exists pages.
  split; [by apply promiseAll_ok_inv|].
  cbn [Update.scrapedContent]. by rewrite filter_idem.
Qed.

End Scrape.

(** ** The scraper tool *)

Lemma failed_not_succeeded url title scrapedAt message :
  scrapeSucceeded (Scraper.failed url title scrapedAt message) = false.
Proof. unfold scrapeSucceeded. simpl. by rewrite andb_false_r. Qed.

(** For a url that passes the schema's url check the promise of
    [scrapeUrl] is always fulfilled, with a record for that url; a fetch
    that did not bring an HTML page gives a record that the success filter
    drops. *)
Lemma scrapeUrl_fulfils env scrapedAt url :
  Scraper.isUrl env url = true ->
  exists page,
    Scraper.scrapeUrl env scrapedAt url = Ok page
    /\ ScrapedContent.url page = url
    /\ (~ (Scraper.newUrl env url = None
           /\ exists ct doc,
                Scraper.fetch env url = Scraper.Response ct doc
                /\ Text.includes "text/html" (default "" ct) = true) ->
        scrapeSucceeded page = false).
Proof.
  intros Hurl. unfold Scraper.scrapeUrl, Scraper.tryScrape, Scraper.parse.
  destruct (Scraper.newUrl env url) as [m|] eqn:Hnew; simpl.
  { rewrite Hurl. eexists. split_and!; [done | done |].
    intros _. apply failed_not_succeeded. }
  destruct (Scraper.fetch env url) as [m|status text|ct doc] eqn:Hfetch; simpl;
    rewrite ?Hurl.
  - eexists. split_and!; [done | done |]. intros _. apply failed_not_succeeded.
  - eexists. split_and!; [done | done |]. intros _. apply failed_not_succeeded.
  - destruct (Text.includes "text/html" (default "" ct)) eqn:Hct; simpl; rewrite ?Hurl.
    + eexists. split_and!; [done | done |]. intros Hno. destruct Hno. split; [done|].
      by exists ct, doc.
    + eexists. split_and!; [done | done |]. intros _. apply failed_not_succeeded.
Qed.

(** For a url that fails the check every path of [scrapeUrl] ends in the
    schema error: the promise is rejected. *)
Lemma scrapeUrl_rejects env scrapedAt url :
  Scraper.isUrl env url = false ->
  Scraper.scrapeUrl env scrapedAt url = Throw (Scraper.zodMessage env).
Proof.
  intros Hurl. unfold Scraper.scrapeUrl, Scraper.tryScrape, Scraper.parse.
  destruct (Scraper.newUrl env url) as [m|]; simpl; [by rewrite Hurl|].
  destruct (Scraper.fetch env url) as [m|status text|ct doc]; simpl; rewrite ?Hurl; try done.
  destruct (Text.includes "text/html" (default "" ct)); simpl; by rewrite ?Hurl.
Qed.

Lemma scrapeUrl_url env scrapedAt url page :
  Scraper.scrapeUrl env scrapedAt url = Ok page -> ScrapedContent.url page = url.
Proof.
  destruct (Scraper.isUrl env url) eqn:Hurl.
  - destruct (scrapeUrl_fulfils env scrapedAt url Hurl) as (page' & -> & Hpage & _).
    by intros [= <-].
  - by rewrite scrapeUrl_rejects.
Qed.

Lemma scrapeUrl_all_fulfil env scrapedAt urls :
  (forall url, url ∈ urls -> Scraper.isUrl env url = true) ->
  exists pages, map (Scraper.scrapeUrl env scrapedAt) urls = map Ok pages.
Proof.
  induction urls as [|url urls IH]; intros Hurls; [by exists []|].
  destruct IH as (pages & Hpages); [intros u Hu; apply Hurls; by right|].
  destruct (scrapeUrl_fulfils env scrapedAt url) as (page & Hpage & _);
    [apply Hurls; by left|].
  exists (page :: pages). simpl. by rewrite Hpage, Hpages.
Qed.

(** C9 as stated fails twice.  A rejected search call and a failed fetch
    are caught and skipped, but neither stage writes an entry into
    [errors].  And a url that does not pass the schema's url check is a
    per-item failure that does abort the scraper stage: the page that could
    be fetched is lost with it. *)
Lemma C9_failed_items_are_not_logged :
  Sample.flakySearch "surface code break-even" MAX_RESULTS_PER_QUERY
    = Throw "Tavily API error 500: upstream unavailable"
  /\ (let u := searchNode Sample.flakySearch Sample.revising in
      Update.searchResults u
        = Some [SearchResult.mk "https://b.example/ions" "Ions" "snippet" (Some (7 # 10)%Q) None]
      /\ Update.errors u = None
      /\ ResearchState.errors (applyUpdate Sample.revising u) = [])
  /\ (exists page,
        Scraper.scrapeUrl Scenario.web Sample.now "https://a.example/qec" = Ok page
        /\ ScrapedContent.error page = Some "This operation was aborted")
  /\ (exists u,
        scraperNode (Scraper.scrapeUrl Scenario.web Sample.now) Sample.gathered = Some u
        /\ map ScrapedContent.url (default [] (Update.scrapedContent u))
           = ["https://b.example/ions"]
        /\ Update.errors u = None
        /\ ResearchState.errors (applyUpdate Sample.gathered u) = [])
  /\ urlsToScrape Scenario.badUrl = ["https://b.example/ions"; "not a url"]
  /\ scraperNode (Scraper.scrapeUrl Scenario.web Sample.now) Scenario.badUrl
     = Some (errorUpdate "Invalid url" NodeStatus.error).
Proof.
  split; [reflexivity|]. split; [by vm_compute|].
  split; [eexists; split; vm_compute; reflexivity|].
  split; [eexists; split; [vm_compute; reflexivity | by vm_compute]|].
  split; by vm_compute.
Qed.

(** C9 (amended).  A sub-query whose search call fails and a url whose
    fetch fails are caught inside the stage: the failed item contributes
    nothing to the stage's output, the remaining items are still processed,
    and the stage is not aborted (its marker moves on to the next stage).
    No entry is added to the session's error list for such a failure.  For
    the scraper this holds when the urls pass the schema's url check, as
    the urls of the search tool's results do. *)
Theorem C9_per_item_failures_are_skipped
    (executeSearch : string -> Z -> Result (list SearchResult.t))
    (env : Scraper.Env) (scrapedAt : string) (s : ResearchState.t) :
  (ResearchState.subQueries s <> [] ->
   let u := searchNode executeSearch s in
   Update.currentNode u = Some NodeStatus.scraping
   /\ Update.errors u = None
   /\ ResearchState.errors (applyUpdate s u) = ResearchState.errors s
   /\ exists new,
        Update.searchResults u = Some new
        /\ new = searchLoop executeSearch
                   (list_to_set (map SearchResult.url (ResearchState.searchResults s)))
                   (List.filter (searchSucceeded executeSearch)
                                (Js.sortBy byPriority (ResearchState.subQueries s)))
        /\ (forall r, r ∈ new ->
              exists sq results,
                sq ∈ ResearchState.subQueries s
                /\ executeSearch (SubQuery.query sq) MAX_RESULTS_PER_QUERY = Ok results
                /\ r ∈ results)
        /\ (forall sq results r,
              sq ∈ ResearchState.subQueries s ->
              executeSearch (SubQuery.query sq) MAX_RESULTS_PER_QUERY = Ok results ->
              r ∈ results ->
              SearchResult.url r ∈ map SearchResult.url (ResearchState.searchResults s)
              \/ SearchResult.url r ∈ map SearchResult.url new))
  /\ (ResearchState.searchResults s <> [] ->
      (forall url, url ∈ urlsToScrape s -> Scraper.isUrl env url = true) ->
      exists u pages,
        scraperNode (Scraper.scrapeUrl env scrapedAt) s = Some u
        /\ Update.currentNode u = Some NodeStatus.storing
        /\ Update.errors u = None
        /\ ResearchState.errors (applyUpdate s u) = ResearchState.errors s
        /\ map (Scraper.scrapeUrl env scrapedAt) (urlsToScrape s) = map Ok pages
        /\ default [] (Update.scrapedContent u) = List.filter scrapeSucceeded pages)
  /\ (forall urls concurrency,
        0 < concurrency ->
        (forall url, url ∈ urls -> Scraper.isUrl env url = true) ->
        exists pages,
          map (Scraper.scrapeUrl env scrapedAt) urls = map Ok pages
          /\ scrapeUrls (Scraper.scrapeUrl env scrapedAt) urls concurrency
             = Some (Ok (List.filter scrapeSucceeded pages)))
  /\ (forall url,
        Scraper.isUrl env url = true ->
        exists page,
          Scraper.scrapeUrl env scrapedAt url = Ok page
          /\ ScrapedContent.url page = url
          /\ (~ (Scraper.newUrl env url = None
                 /\ exists ct doc,
                      Scraper.fetch env url = Scraper.Response ct doc
                      /\ Text.includes "text/html" (default "" ct) = true) ->
              scrapeSucceeded page = false)).
Proof.
  split_and!.
  - intros Hsq. unfold searchNode.
    destruct (ResearchState.subQueries s) as [|sq0 sqs] eqn:Hsqs; [done|].
    rewrite <- Hsqs. simpl. split_and!; try done.
    unfold searchLoop.
    rewrite <- search_fold_skips_failures.
    destruct (search_fold_spec executeSearch (Js.sortBy byPriority (ResearchState.subQueries s))
                (list_to_set (map SearchResult.url (ResearchState.searchResults s))) [])
      as (new & Hfold & Hfrom & Hall).
    exists new. rewrite Hfold. simpl. split_and!; try done.
    + intros r Hr. destruct (Hfrom r Hr) as (sq & results & Hin & Hok & Hres).
      exists sq, results. split_and!; try done.
      by rewrite (sortBy_perm byPriority _) in Hin.
    + intros sq results r Hin Hok Hres.
      rewrite <- (sortBy_perm byPriority _) in Hin.
      destruct (Hall sq results r Hin Hok Hres) as [HE | Hn]; [left | by right].
      by apply elem_of_list_to_set in HE.
  - intros Hsr Hurls.
    destruct (scrapeUrl_all_fulfil env scrapedAt (urlsToScrape s) Hurls) as (pages & Hpages).
    destruct (scraperNode_spec (Scraper.scrapeUrl env scrapedAt) s pages Hsr Hpages)
      as (u & Hu & Herr & Hnode & Hcontent).
    exists u, pages. split_and!; try done. simpl. by rewrite Herr.
  - intros urls concurrency Hc Hurls.
    destruct (scrapeUrl_all_fulfil env scrapedAt urls Hurls) as (pages & Hpages).
    exists pages. split; [done|].
    by rewrite scrapeUrls_spec, Hpages, promiseAll_fulfilled.
  - intros url. apply scrapeUrl_fulfils.
Qed.

Lemma C9_per_item_witness :
  Update.errors (searchNode Sample.flakySearch Sample.gathered) = None
  /\ exists pages,
       map (Scraper.scrapeUrl Scenario.web Sample.now)
         ["https://a.example/qec"; "https://b.example/ions"] = map Ok pages
       /\ scrapeUrls (Scraper.scrapeUrl Scenario.web Sample.now)
            ["https://a.example/qec"; "https://b.example/ions"] 3
          = Some (Ok (List.filter scrapeSucceeded pages)).
Proof.
  destruct (C9_per_item_failures_are_skipped Sample.flakySearch Scenario.web Sample.now
              Sample.gathered) as (Hsearch & _ & Hscrape & _).
  destruct Hsearch as (_ & Herr & _); [done|].
  split; [exact Herr|].
  apply (Hscrape ["https://a.example/qec"; "https://b.example/ions"] 3); [lia|].
  intros url Hurl. repeat (apply elem_of_cons in Hurl as [-> | Hurl]; [done|]).
  by apply elem_of_nil in Hurl.
Defined.

(** ** Stage-level failures and the graph *)

(** Each stage-level failure is returned as an update that logs the message
    and sets the stage marker to [error]. *)
Lemma stage_failures_set_error_marker
    (executeSearch : string -> Z -> Result (list SearchResult.t))
    (scrapeUrl : string -> Result ScrapedContent.t) (syn : Synthesizer)
    (s : ResearchState.t) :
  (ResearchState.subQueries s = [] ->
   searchNode executeSearch s
   = errorUpdate "No sub-queries available for search" NodeStatus.error)
  /\ (ResearchState.searchResults s = [] ->
      scraperNode scrapeUrl s
      = Some (errorUpdate "No search results to scrape" NodeStatus.error))
  /\ (ResearchState.retrievedChunks s = [] ->
      synthesisNode syn s
      = errorUpdate "No retrieved chunks available for synthesis" NodeStatus.error)
  /\ (forall content message,
        ResearchState.retrievedChunks s <> [] ->
        llmInvoke syn
          {| promptQuestion := ResearchState.researchQuestion s;
             promptChunks := Js.slice (ResearchState.retrievedChunks s) 0 15;
             promptCitations := buildCitationMap s;
             promptFeedback := revisionFeedback s |} = Ok content ->
        parseModelReport syn content = Throw message ->
        synthesisNode syn s = errorUpdate message NodeStatus.error)
  /\ (forall message node,
        ResearchState.currentNode (applyUpdate s (errorUpdate message node)) = node
        /\ ResearchState.errors (applyUpdate s (errorUpdate message node))
           = ResearchState.errors s ++ [message]).
Proof.
  split_and!.
  - unfold searchNode. by intros ->.
  - unfold scraperNode. by intros ->.
  - unfold synthesisNode. by intros ->.
  - intros content message Hne Hllm Hparse. unfold synthesisNode.
    destruct (ResearchState.retrievedChunks s) as [|c cs] eqn:Hcs; [done|].
    by rewrite Hllm, Hparse.
  - done.
Qed.

(** The edges out of the six working stages do not look at the state: the
    successor is scheduled whatever marker the stage has just set. *)
Lemma next_ignores_error_marker MAX n s s' :
  n <> Graph.human_review -> Graph.next MAX n s = Graph.next MAX n s'.
Proof. by destruct n. Qed.

(** A failed search stage is followed by the scraper stage. *)
Lemma run_continues_after_failed_search w MAX limit s executed :
  ResearchState.subQueries s = [] ->
  Graph.run w MAX (S (S limit)) Graph.search s executed
  = Graph.run w MAX (S limit) Graph.scraper
      (applyUpdate s (errorUpdate "No sub-queries available for search" NodeStatus.error))
      (executed ++ [Graph.search]).
Proof.
  intros Hsq. cbn [Graph.run Graph.interruptBefore Graph.stage Graph.next].
  unfold searchNode. by rewrite Hsq.
Qed.

(** C8 (the code departs from the claim).  The model answers the
    decomposition with no sub-query.  The search stage fails and sets the
    marker to [error]; the graph nevertheless runs the scraper stage (which
    fails as well), the indexing stage (which overwrites the marker), the
    retrieval stage and the synthesis stage, and stops only at the review
    interrupt with a draft report and the marker [awaiting_human]. *)
Theorem C8_pipeline_runs_on_after_stage_failure :
  let afterReasoning :=
    applyUpdate Sample.question
      (reasoningNode (Graph.decompose Sample.world) Sample.question) in
  ResearchState.subQueries afterReasoning = []
  /\ searchNode (Graph.executeSearch Sample.world) afterReasoning
     = errorUpdate "No sub-queries available for search" NodeStatus.error
  /\ ResearchState.currentNode
       (applyUpdate afterReasoning
          (searchNode (Graph.executeSearch Sample.world) afterReasoning))
     = NodeStatus.error
  /\ exists final,
       Graph.invoke Sample.world 3 50 Sample.question
       = ([Graph.reasoning; Graph.search; Graph.scraper; Graph.vector_store;
           Graph.retrieval; Graph.synthesis],
          Graph.Interrupted Graph.human_review final)
       /\ ResearchState.errors final
          = ["No sub-queries available for search"; "No search results to scrape"]
       /\ ResearchState.currentNode final = NodeStatus.awaiting_human
       /\ ResearchState.draftReport final <> None.
Proof.
  split; [reflexivity|]. split; [reflexivity|]. split; [reflexivity|].
  eexists. split; [vm_compute; reflexivity|]. by split_and!.
Qed.

(** ** Chunking *)

Lemma nonSpaceCount_le_length s : (nonSpaceCount s <= String.length s)%nat.
Proof.
  induction s as [|c s IH]; simpl; [done|].
  destruct (Js.isWhiteSpace c); lia.
Qed.

Lemma nonSpaceCount_trimStart s : nonSpaceCount (Js.trimStart s) = nonSpaceCount s.
Proof.
  induction s as [|c s IH]; simpl; [done|].
  destruct (Js.isWhiteSpace c) eqn:Hc; simpl; [done | by rewrite Hc].
Qed.

Lemma nonSpaceCount_trimEnd s : nonSpaceCount (Js.trimEnd s) = nonSpaceCount s.
Proof.
  induction s as [|c s IH]; simpl; [done|].
  destruct (Js.trimEnd s) as [|c' t] eqn:Ht.
  - simpl in IH. rewrite <- IH.
    destruct (Js.isWhiteSpace c) eqn:Hc; simpl; [done | by rewrite Hc].
  - simpl. simpl in IH. by rewrite IH.
Qed.

(** Trimming keeps every code unit that is not white space. *)
Lemma trim_length_ge s : (nonSpaceCount s <= String.length (Js.trim s))%nat.
Proof.
  unfold Js.trim.
  rewrite <- (nonSpaceCount_trimStart s), <- (nonSpaceCount_trimEnd (Js.trimStart s)).
  apply nonSpaceCount_le_length.
Qed.

Lemma nonSpaceCount_append a b :
  nonSpaceCount (String.append a b) = (nonSpaceCount a + nonSpaceCount b)%nat.
Proof. induction a as [|c a IH]; simpl; [done | rewrite IH; lia]. Qed.

Lemma nonSpaceCount_join ws :
  nonSpaceCount (Js.join ws) = list_sum (map nonSpaceCount ws).
Proof.
  induction ws as [|w ws IH]; [done|].
  destruct ws as [|w' ws'].
  - simpl. lia.
  - change (Js.join (w :: w' :: ws'))
      with (String.append w (String " " (Js.join (w' :: ws')))).
    rewrite nonSpaceCount_append.
    change (nonSpaceCount (String " " (Js.join (w' :: ws'))))
      with (nonSpaceCount (Js.join (w' :: ws'))).
    rewrite IH. done.
Qed.

(** The pieces of a split contain no white space, ... *)
Lemma splitWs_no_space s :
  Forall (fun w => nonSpaceCount w = String.length w) (Js.splitWs s).
Proof.
  induction s as [|c s IH]; simpl.
  - by constructor.
  - destruct (Js.isWhiteSpace c) eqn:Hc.
    + destruct s as [|c' s']; [by constructor|].
      destruct (Js.isWhiteSpace c'); [done | by constructor].
    + destruct (Js.splitWs s) as [|w ws]; [by constructor; [simpl; rewrite Hc|]|].
      inversion IH as [|? ? Hw Hws]; subst.
      constructor; [|done]. simpl. by rewrite Hc, Hw.
Qed.

(** ... there is at least one piece, and only the first and the last piece
    can be empty. *)
Lemma splitWs_shape s :
  exists w rest,
    Js.splitWs s = w :: rest
    /\ (emptyWords rest <= 1)%nat
    /\ (forall c s', s = String c s' -> Js.isWhiteSpace c = false -> w <> "").
Proof.
  induction s as [|c s (w & rest & Hs & Hrest & Hhead)]; simpl.
  - exists "", []. split_and!; [done | unfold emptyWords; simpl; lia | done].
  - rewrite Hs. destruct (Js.isWhiteSpace c) eqn:Hc.
    + destruct s as [|c' s'].
      * simpl in Hs. injection Hs as <- <-.
        exists "", [""]. split_and!; [done | unfold emptyWords; simpl; lia | congruence].
      * destruct (Js.isWhiteSpace c') eqn:Hc'.
        -- exists w, rest. split_and!; [done | done | congruence].
        -- exists "", (w :: rest). split_and!; [done | | congruence].
           unfold emptyWords in *. simpl.
           rewrite bool_decide_eq_false_2; [done|]. by eapply Hhead.
    + exists (String c w), rest. split_and!; [done | done | done].
Qed.

Lemma splitWs_emptyWords s : (emptyWords (Js.splitWs s) <= 2)%nat.
Proof.
  destruct (splitWs_shape s) as (w & rest & -> & Hrest & _).
  unfold emptyWords in *. simpl. case_bool_decide; simpl; lia.
Qed.

Lemma splitWs_length_pos s : (0 < length (Js.splitWs s))%nat.
Proof. destruct (splitWs_shape s) as (w & rest & -> & _). simpl. lia. Qed.

Lemma emptyWords_take n ws : (emptyWords (take n ws) <= emptyWords ws)%nat.
Proof.
  unfold emptyWords. revert n. induction ws as [|w ws IH]; intros [|n]; simpl; try lia.
  specialize (IH n). case_bool_decide; simpl; lia.
Qed.

Lemma emptyWords_drop n ws : (emptyWords (drop n ws) <= emptyWords ws)%nat.
Proof.
  unfold emptyWords. revert n. induction ws as [|w ws IH]; intros [|n]; simpl; try lia.
  specialize (IH n). case_bool_decide; simpl; lia.
Qed.

(** Words without white space weigh at least one each, unless empty. *)
Lemma weight_ge ws :
  Forall (fun w => nonSpaceCount w = String.length w) ws ->
  (length ws <= list_sum (map nonSpaceCount ws) + emptyWords ws)%nat.
Proof.
  unfold emptyWords. induction 1 as [|w ws Hw _ IH]; simpl; [done|].
  case_bool_decide as He; simpl; [lia|].
  destruct w as [|c w]; [done|]. simpl in Hw. simpl nonSpaceCount.
  destruct (Js.isWhiteSpace c); [|lia].
  pose proof (nonSpaceCount_le_length w). lia.
Qed.

(** A window of at least 53 consecutive pieces of a split is longer than 50
    characters once joined and trimmed, so [chunkText] keeps it. *)
Lemma window_is_kept words (n m : nat) :
  Forall (fun w => nonSpaceCount w = String.length w) words ->
  (emptyWords words <= 2)%nat ->
  (53 <= length (take n (drop m words)))%nat ->
  (50 <? Js.strlen (Js.trim (Js.join (take n (drop m words))))) = true.
Proof.
  intros Hns Hempty Hlen. apply Z.ltb_lt. unfold Js.strlen.
  pose proof (trim_length_ge (Js.join (take n (drop m words)))) as Htrim.
  rewrite nonSpaceCount_join in Htrim.
  pose proof (weight_ge (take n (drop m words))
                (Forall_take _ _ _ (Forall_drop _ _ _ Hns))) as Hw.
  pose proof (emptyWords_take n (drop m words)) as H1.
  pose proof (emptyWords_drop m words) as H2.
  lia.
Qed.

(** [ceilDiv a b] is the least integer [q] with [a <= b * q]. *)
Lemma ceilDiv_spec a b :
  0 < b -> b * (Js.ceilDiv a b - 1) < a <= b * Js.ceilDiv a b.
Proof.
  intros Hb. unfold Js.ceilDiv.
  pose proof (Z.div_mod (- a) b ltac:(lia)) as Hdm.
  pose proof (Z.mod_pos_bound (- a) b Hb) as Hm. nia.
Qed.

Lemma ceilDiv_one a b : 0 < a -> a <= b -> Js.ceilDiv a b = 1.
Proof. intros Ha Hab. pose proof (ceilDiv_spec a b ltac:(lia)). nia. Qed.

Lemma ceilDiv_step a b : 0 < b -> Js.ceilDiv a b = 1 + Js.ceilDiv (a - b) b.
Proof.
  intros Hb. pose proof (ceilDiv_spec a b Hb). pose proof (ceilDiv_spec (a - b) b Hb). nia.
Qed.

(** The loop of [chunkText] from a position with more than [overlap] words
    left: every window is kept, and their number is the ceiling. *)
Lemma chunkLoop_count words fuel chunkSize overlap i chunks :
  Forall (fun w => nonSpaceCount w = String.length w) words ->
  (emptyWords words <= 2)%nat ->
  52 <= overlap -> overlap < chunkSize -> 0 <= i ->
  overlap < Z.of_nat (length words) - i ->
  (Z.to_nat (Z.of_nat (length words) - i) <= fuel)%nat ->
  exists new,
    chunkLoop fuel words chunkSize overlap i chunks = Some (chunks ++ new)
    /\ Z.of_nat (length new)
       = Js.ceilDiv (Z.of_nat (length words) - i - overlap) (chunkSize - overlap).
Proof.
  intros Hns Hempty Ho Hs. revert i chunks.
  induction fuel as [|fuel IH]; intros i chunks Hi Hrem Hfuel; [lia|].
  simpl.
  destruct (Z.ltb_spec i (Z.of_nat (length words))) as [_|?]; [|lia].
  rewrite slice_nonneg by lia.
  rewrite (window_is_kept words (Z.to_nat (i + chunkSize - i)) (Z.to_nat i) Hns Hempty).
  2: { rewrite length_take, length_drop. lia. }
  destruct (Z.geb_spec (i + chunkSize) (Z.of_nat (length words))) as [Hlast|Hmore].
  - eexists. split; [reflexivity|]. simpl. symmetry. apply ceilDiv_one; lia.
  - destruct (IH (i + (chunkSize - overlap))
               (chunks ++ [Js.join (take (Z.to_nat (i + chunkSize - i))
                                         (drop (Z.to_nat i) words))]))
      as (new & Hloop & Hcount); [lia | lia | lia |].
    eexists. split.
    + rewrite <- app_assoc in Hloop. exact Hloop.
    + simpl length. rewrite Nat2Z.inj_succ, Hcount.
      rewrite (ceilDiv_step (Z.of_nat (length words) - i - overlap)) by lia.
      replace (Z.of_nat (length words) - (i + (chunkSize - overlap)) - overlap)
        with (Z.of_nat (length words) - i - overlap - (chunkSize - overlap)) by lia.
      lia.
Qed.

(** With at most [chunkSize] words there is one window, the whole text; it
    is kept only when its trimmed length exceeds 50 characters. *)
Lemma chunkText_single_window text chunkSize overlap :
  let words := Js.splitWs text in
  Z.of_nat (length words) <= chunkSize ->
  chunkText text chunkSize overlap
  = Some (if 50 <? Js.strlen (Js.trim (Js.join words)) then [Js.join words] else []).
Proof.
  intros words HW. unfold chunkText. fold words. simpl.
  pose proof (splitWs_length_pos text) as Hpos. fold words in Hpos.
  destruct (Z.ltb_spec 0 (Z.of_nat (length words))) as [_|?]; [|lia].
  rewrite slice_from_0 by lia. rewrite firstn_all2 by lia.
  destruct (Z.geb_spec (0 + chunkSize) (Z.of_nat (length words))) as [_|?]; [|lia].
  by destruct (50 <? _).
Qed.

(** With a positive stride the loop of [chunkText] is left. *)
Lemma chunkLoop_terminates fuel words chunkSize overlap i chunks :
  overlap < chunkSize -> 0 <= i ->
  (Z.to_nat (Z.of_nat (length words) - i) < fuel)%nat ->
  is_Some (chunkLoop fuel words chunkSize overlap i chunks).
Proof.
  intros Hs. revert i chunks.
  induction fuel as [|fuel IH]; intros i chunks Hi Hfuel; [lia|].
  simpl. destruct (Z.ltb_spec i (Z.of_nat (length words))) as [Hlt|Hge]; [|done].
  destruct (i + chunkSize >=? Z.of_nat (length words)); [done|].
  apply IH; lia.
Qed.

Lemma chunkText_terminates text chunkSize overlap :
  overlap < chunkSize -> is_Some (chunkText text chunkSize overlap).
Proof. intros Hs. unfold chunkText. apply chunkLoop_terminates; lia. Qed.

(** Without a positive stride, and with more words than one window holds,
    the loop is never left: no amount of fuel yields a result. *)
Lemma chunkLoop_diverges fuel words chunkSize overlap i chunks :
  chunkSize <= overlap -> chunkSize < Z.of_nat (length words) -> words <> [] ->
  i <= 0 ->
  chunkLoop fuel words chunkSize overlap i chunks = None.
Proof.
  intros Hs HW Hne. revert i chunks.
  assert (0 < Z.of_nat (length words)) by (destruct words; [done | simpl; lia]).
  induction fuel as [|fuel IH]; intros i chunks Hi; [done|].
  simpl. destruct (Z.ltb_spec i (Z.of_nat (length words))) as [_|?]; [|lia].
  destruct (Z.geb_spec (i + chunkSize) (Z.of_nat (length words))) as [?|_]; [lia|].
  apply IH. lia.
Qed.

(** C7 as stated fails below the overlap.  A page of 60 words yields one
    window although ceil((60 - 200) / 800) is 0; and the two-word page
    yields no window although its remainder is not empty, because a window
    is kept only when it is longer than 50 characters. *)
Lemma C7_short_pages_counterexample :
  length (Js.splitWs Sample.shortPage) = 60%nat
  /\ Js.ceilDiv (60 - CHUNK_OVERLAP) (CHUNK_SIZE - CHUNK_OVERLAP) = 0
  /\ chunkText Sample.shortPage CHUNK_SIZE CHUNK_OVERLAP = Some [Sample.shortPage]
  /\ length (Js.splitWs Sample.tinyPage) = 2%nat
  /\ Sample.tinyPage <> ""
  /\ chunkText Sample.tinyPage CHUNK_SIZE CHUNK_OVERLAP = Some [].
Proof. by vm_compute. Qed.

(** C7 (amended).  For a page text that splits into W words, with window
    size 1000 and overlap 200, the chunking function returns, and: when
    W > 200 it produces exactly ceil((W - 200) / 800) windows; when
    W <= 200 it examines one window, the whole text, and produces it only if
    its trimmed length exceeds 50 characters (one window or none). *)
Theorem C7_chunk_count (text : string) :
  let words := Js.splitWs text in
  let W := Z.of_nat (length words) in
  exists chunks,
    chunkText text CHUNK_SIZE CHUNK_OVERLAP = Some chunks
    /\ if CHUNK_OVERLAP <? W
       then Z.of_nat (length chunks)
            = Js.ceilDiv (W - CHUNK_OVERLAP) (CHUNK_SIZE - CHUNK_OVERLAP)
       else chunks
            = if 50 <? Js.strlen (Js.trim (Js.join words)) then [Js.join words] else [].
Proof.
  intros words W. unfold CHUNK_SIZE, CHUNK_OVERLAP.
  destruct (Z.ltb_spec 200 W) as [Hlong|Hshort].
  - destruct (chunkLoop_count words (S (length words)) 1000 200 0 []
                (splitWs_no_space text) (splitWs_emptyWords text))
      as (new & Hloop & Hcount); [lia | lia | lia | fold W; lia | lia |].
    exists new. split; [exact Hloop|].
    rewrite Hcount. fold W. f_equal. lia.
  - eexists. split; [|reflexivity].
    apply chunkText_single_window. fold words W. lia.
Qed.

(* ===================================================================== *)
(** * Further properties of the stages and tools *)
(* ===================================================================== *)

(** ** List helpers *)

Lemma filter_sublist {A} (f : A -> bool) (l : list A) : List.filter f l `sublist_of` l.
Proof.
  induction l as [|x l IH]; simpl; [done|].
  destruct (f x); [by apply sublist_skip | by apply sublist_cons].
Qed.

Lemma map_sublist {A B} (f : A -> B) (l1 l2 : list A) :
  l1 `sublist_of` l2 -> map f l1 `sublist_of` map f l2.
Proof. induction 1; simpl; [done | by apply sublist_skip | by apply sublist_cons]. Qed.

Lemma StronglySorted_filter {A} (R : A -> A -> Prop) (f : A -> bool) (l : list A) :
  StronglySorted R l -> StronglySorted R (List.filter f l).
Proof.
  induction 1 as [|x l Hs IH Hall]; simpl; [constructor|].
  destruct (f x); [|done]. constructor; [done|].
  apply Forall_forall. intros y Hy%list_elem_of_In%filter_In.
  rewrite Forall_forall in Hall. apply Hall, list_elem_of_In, Hy.
Qed.

(** In a sorted list, everything past position [n] is dominated by
    everything before it. *)
Lemma sorted_take_dominates {A} (R : A -> A -> Prop) (n : nat) (l : list A) a b :
  StronglySorted R l -> a ∈ take n l -> b ∈ drop n l -> R a b.
Proof.
  intros Hs. revert n. induction Hs as [|x l Hs IH Hall]; intros n Ha Hb.
  - rewrite take_nil in Ha. by apply elem_of_nil in Ha.
  - destruct n as [|n]; simpl in *; [by apply elem_of_nil in Ha|].
    apply elem_of_cons in Ha as [-> | Ha].
    + rewrite Forall_forall in Hall. apply Hall.
      eapply elem_of_sublist; [exact Hb | apply sublist_drop].
    + by apply (IH n).
Qed.

Lemma elem_of_take_or_drop {A} (n : nat) (l : list A) x :
  x ∈ l -> x ∈ take n l \/ x ∈ drop n l.
Proof. intros Hx. rewrite <- (take_drop n l) in Hx. by apply elem_of_app in Hx. Qed.

(** ** Search: urls stay unique *)

Lemma search_fold_unique
    (executeSearch : string -> Z -> Result (list SearchResult.t)) prioritized
    (E : gset string) (acc : list SearchResult.t) :
  (forall q results, executeSearch q MAX_RESULTS_PER_QUERY = Ok results ->
                     NoDup (map SearchResult.url results)) ->
  NoDup (map SearchResult.url acc) ->
  (forall r, r ∈ acc -> SearchResult.url r ∈ E) ->
  exists E' new,
    fold_left (searchStep executeSearch) prioritized (E, acc) = (E', acc ++ new)
    /\ NoDup (map SearchResult.url (acc ++ new))
    /\ (forall r, r ∈ new -> SearchResult.url r ∉ E).
Proof.
  intros Hresp. revert E acc.
  induction prioritized as [|sq l IH]; intros E acc Hnd Hacc.
  - exists E, []. rewrite app_nil_r. split_and!; [done | done |].
    intros r Hr. by apply elem_of_nil in Hr.
  - simpl.
    destruct (executeSearch (SubQuery.query sq) MAX_RESULTS_PER_QUERY) as [results|m] eqn:Hsq.
    2: { apply IH; done. }
    set (fresh := List.filter (fun r => bool_decide (SearchResult.url r ∉ E)) results).
    assert (Hfresh : forall r, r ∈ fresh -> SearchResult.url r ∉ E).
    { intros r Hr%list_elem_of_In%filter_In. destruct Hr as [_ Hr].
      by apply bool_decide_eq_true in Hr. }
    assert (Hnd' : NoDup (map SearchResult.url (acc ++ fresh))).
    { rewrite map_app. apply NoDup_app. split_and!; [done | |].
      - intros u Hu Hu'.
        apply list_elem_of_In, in_map_iff in Hu as (r & <- & Hr%list_elem_of_In).
        apply list_elem_of_In, in_map_iff in Hu' as (r' & Heq & Hr'%list_elem_of_In).
        apply (Hfresh r' Hr'). rewrite Heq. by apply Hacc.
      - eapply sublist_NoDup; [apply (Hresp _ _ Hsq)|].
        apply map_sublist, filter_sublist. }
    destruct (IH (list_to_set (map SearchResult.url fresh) ∪ E) (acc ++ fresh) Hnd')
      as (E' & new & Hfold & Hnd'' & Hnew).
    { intros r [Hr|Hr]%elem_of_app.
      - apply elem_of_union_r. by apply Hacc.
      - apply elem_of_union_l, elem_of_list_to_set, list_elem_of_In, in_map.
        by apply list_elem_of_In. }
    exists E', (fresh ++ new). rewrite app_assoc. split_and!; [done | done |].
    intros r [Hr|Hr]%elem_of_app; [by apply Hfresh|].
    specialize (Hnew r Hr). set_solver.
Qed.

(** Whatever the searches return, what the loop adds is new to the urls
    it started from. *)
Lemma search_fold_fresh
    (executeSearch : string -> Z -> Result (list SearchResult.t)) prioritized
    (E : gset string) (acc : list SearchResult.t) :
  exists E' new,
    fold_left (searchStep executeSearch) prioritized (E, acc) = (E', acc ++ new)
    /\ E ⊆ E'
    /\ (forall r, r ∈ new -> SearchResult.url r ∉ E).
Proof.
  revert E acc. induction prioritized as [|sq l IH]; intros E acc.
  - exists E, []. rewrite app_nil_r. split_and!; [done | done |].
    intros r Hr. by apply elem_of_nil in Hr.
  - simpl.
    destruct (executeSearch (SubQuery.query sq) MAX_RESULTS_PER_QUERY) as [results|m] eqn:Hsq.
    2: { apply IH. }
    set (fresh := List.filter (fun r => bool_decide (SearchResult.url r ∉ E)) results).
    destruct (IH (list_to_set (map SearchResult.url fresh) ∪ E) (acc ++ fresh))
      as (E' & new & Hfold & Hsub & Hnew).
    exists E', (fresh ++ new). rewrite app_assoc. split_and!; [done | set_solver |].
    intros r [Hr|Hr]%elem_of_app.
    + apply list_elem_of_In, filter_In in Hr as [_ Hr]. by apply bool_decide_eq_true in Hr.
    + specialize (Hnew r Hr). set_solver.
Qed.

(** The search stage only appends to the search results, and never a
    result whose url the session already holds, whatever the state and the
    responses.  When the stored results have distinct urls and no single
    response repeats a url, the accumulated results keep distinct urls. *)
Theorem search_keeps_urls_unique
    (executeSearch : string -> Z -> Result (list SearchResult.t)) (s : ResearchState.t) :
  let s' := applyUpdate s (searchNode executeSearch s) in
  (exists new,
     ResearchState.searchResults s' = ResearchState.searchResults s ++ new
     /\ forall r, r ∈ new ->
          SearchResult.url r ∉ map SearchResult.url (ResearchState.searchResults s))
  /\ (NoDup (map SearchResult.url (ResearchState.searchResults s)) ->
      (forall q results, executeSearch q MAX_RESULTS_PER_QUERY = Ok results ->
                         NoDup (map SearchResult.url results)) ->
      NoDup (map SearchResult.url (ResearchState.searchResults s'))).
Proof.
  unfold searchNode.
  destruct (ResearchState.subQueries s) as [|sq0 sqs] eqn:Hsqs.
  { simpl. split; [|done]. exists []. rewrite app_nil_r. split; [done|].
    intros r Hr. by apply elem_of_nil in Hr. }
  rewrite <- Hsqs. simpl. unfold Reducer.append, searchLoop. split.
  - destruct (search_fold_fresh executeSearch
                (Js.sortBy byPriority (ResearchState.subQueries s))
                (list_to_set (map SearchResult.url (ResearchState.searchResults s))) [])
      as (E' & new & Hfold & _ & Hnew).
    rewrite Hfold. simpl. exists new. split; [done|].
    intros r Hr Hin. apply (Hnew r Hr). by apply elem_of_list_to_set.
  - intros Hnd Hresp.
    destruct (search_fold_unique executeSearch
                (Js.sortBy byPriority (ResearchState.subQueries s))
                (list_to_set (map SearchResult.url (ResearchState.searchResults s))) []
                Hresp) as (E' & new & Hfold & Hnd' & Hnew).
    { constructor. }
    { intros r Hr. by apply elem_of_nil in Hr. }
    rewrite Hfold. simpl in *.
    rewrite map_app. apply NoDup_app. split_and!; [done | | done].
    intros u Hu Hu'.
    apply list_elem_of_In, in_map_iff in Hu' as (r & <- & Hr%list_elem_of_In).
    apply (Hnew r Hr). by apply elem_of_list_to_set.
Qed.

Lemma search_keeps_urls_unique_witness :
  NoDup (map SearchResult.url
           (ResearchState.searchResults
              (applyUpdate Sample.revising (searchNode Sample.flakySearch Sample.revising)))).
Proof.
  apply (search_keeps_urls_unique Sample.flakySearch Sample.revising).
  - simpl. apply NoDup_singleton.
  - intros q results. unfold Sample.flakySearch. case_decide; [done|].
    intros [= <-]. simpl. apply NoDup_singleton.
Defined.

(** ** Scrape: which urls are fetched *)

Lemma byScoreDesc_total a b : byScoreDesc a b = false -> byScoreDesc b a = true.
Proof.
  unfold byScoreDesc. intros H. apply Qle_bool_iff.
  destruct (Qlt_le_dec (default 0%Q (SearchResult.score a)) (default 0%Q (SearchResult.score b)))
    as [Hlt|Hle].
  - by apply Qlt_le_weak.
  - apply Qle_bool_iff in Hle. congruence.
Qed.

Lemma byScoreDesc_trans a b c :
  byScoreDesc a b = true -> byScoreDesc b c = true -> byScoreDesc a c = true.
Proof.
  unfold byScoreDesc. rewrite !Qle_bool_iff. intros H1 H2. by eapply Qle_trans.
Qed.

(** The scraper fetches at most 15 urls; they belong to search results that
    are not scraped yet and are taken in order of non-increasing score.  A
    result that is not scraped yet is left out only when 15 urls are taken,
    and then it scores no higher than any result taken. *)
Theorem urlsToScrape_are_the_best_unscraped (s : ResearchState.t) :
  exists picked,
    urlsToScrape s = map SearchResult.url picked
    /\ (length picked <= 15)%nat
    /\ (forall r, r ∈ picked ->
          r ∈ ResearchState.searchResults s
          /\ SearchResult.url r ∉ map ScrapedContent.url (ResearchState.scrapedContent s))
    /\ StronglySorted
         (fun a b => (default 0 (SearchResult.score b) <= default 0 (SearchResult.score a))%Q)
         picked
    /\ (forall r,
          r ∈ ResearchState.searchResults s ->
          SearchResult.url r ∉ map ScrapedContent.url (ResearchState.scrapedContent s) ->
          r ∉ picked ->
          length picked = 15%nat
          /\ forall p, p ∈ picked ->
               (default 0 (SearchResult.score r) <= default 0 (SearchResult.score p))%Q).
Proof.
  unfold urlsToScrape, MAX_URLS_TO_SCRAPE. rewrite slice_from_0 by lia.
  change (Z.to_nat 15) with 15%nat.
  set (scraped := list_to_set (map ScrapedContent.url (ResearchState.scrapedContent s))
                  : gset string).
  set (sorted := Js.sortBy byScoreDesc (ResearchState.searchResults s)).
  set (unscraped := List.filter (fun r => bool_decide (SearchResult.url r ∉ scraped)) sorted).
  assert (Hsorted : StronglySorted
            (fun a b => (default 0 (SearchResult.score b) <= default 0 (SearchResult.score a))%Q)
            unscraped).
  { apply StronglySorted_filter.
    eapply StronglySorted_mono;
      [|apply (sortBy_sorted byScoreDesc byScoreDesc_total byScoreDesc_trans)].
    intros a b Hab. by apply Qle_bool_iff. }
  assert (Hin : forall r, r ∈ unscraped <->
            r ∈ ResearchState.searchResults s
            /\ SearchResult.url r ∉ map ScrapedContent.url (ResearchState.scrapedContent s)).
  { intros r. unfold unscraped. rewrite list_elem_of_In, filter_In, <- list_elem_of_In.
    unfold sorted. rewrite (sortBy_perm byScoreDesc _), bool_decide_eq_true.
    unfold scraped. by rewrite elem_of_list_to_set. }
  exists (take 15 unscraped). split_and!.
  - done.
  - rewrite length_take. lia.
  - intros r Hr. apply Hin. eapply elem_of_sublist; [exact Hr | apply sublist_take].
  - by apply StronglySorted_take.
  - intros r Hr Hnew Hout.
    assert (Hr' : r ∈ unscraped) by by apply Hin.
    destruct (elem_of_take_or_drop 15 _ _ Hr') as [?|Hdrop]; [done|].
    split; [|intros p Hp; exact (sorted_take_dominates _ 15 unscraped p r Hsorted Hp Hdrop)].
    rewrite length_take. apply list_elem_of_In in Hdrop.
    destruct (decide (15 <= length unscraped)%nat) as [?|Hshort]; [lia|].
    rewrite skipn_all2 in Hdrop by lia. done.
Qed.

(** The urls to scrape are urls of search results and are not scraped yet. *)
Lemma urlsToScrape_new (s : ResearchState.t) (u : string) :
  u ∈ urlsToScrape s ->
  u ∈ map SearchResult.url (ResearchState.searchResults s)
  /\ u ∉ map ScrapedContent.url (ResearchState.scrapedContent s).
Proof.
  unfold urlsToScrape, MAX_URLS_TO_SCRAPE. rewrite slice_from_0 by lia. intros Hu.
  apply list_elem_of_In, in_map_iff in Hu as (r & <- & Hr%list_elem_of_In).
  eapply elem_of_sublist in Hr; [|apply sublist_take].
  apply list_elem_of_In, filter_In in Hr as [Hr%list_elem_of_In Hnew].
  rewrite (sortBy_perm byScoreDesc _) in Hr. split.
  - apply list_elem_of_In, in_map. by apply list_elem_of_In.
  - apply bool_decide_eq_true in Hnew. by rewrite elem_of_list_to_set in Hnew.
Qed.

Lemma urlsToScrape_NoDup (s : ResearchState.t) :
  NoDup (map SearchResult.url (ResearchState.searchResults s)) ->
  NoDup (urlsToScrape s)
  /\ forall u, u ∈ urlsToScrape s ->
       u ∉ map ScrapedContent.url (ResearchState.scrapedContent s).
Proof.
  intros Hnd. unfold urlsToScrape, MAX_URLS_TO_SCRAPE. rewrite slice_from_0 by lia.
  split.
  - eapply sublist_NoDup;
      [|apply map_sublist; etrans; [apply sublist_take | apply filter_sublist]].
    by rewrite (Permutation_map SearchResult.url (sortBy_perm byScoreDesc _)).
  - intros u Hu.
    apply list_elem_of_In, in_map_iff in Hu as (r & <- & Hr%list_elem_of_In).
    eapply elem_of_sublist in Hr; [|apply sublist_take].
    apply list_elem_of_In, filter_In in Hr as [_ Hr].
    apply bool_decide_eq_true in Hr. by rewrite elem_of_list_to_set in Hr.
Qed.

(** ** The scraper tool: normalised text *)

Lemma substring_length_le n s : (String.length (String.substring 0 n s) <= n)%nat.
Proof.
  revert s. induction n as [|n IH]; intros [|c s]; simpl; try lia.
  specialize (IH s). lia.
Qed.

Lemma substring_length_le_input n s :
  (String.length (String.substring 0 n s) <= String.length s)%nat.
Proof.
  revert s. induction n as [|n IH]; intros [|c s]; simpl; try lia.
  specialize (IH s). lia.
Qed.

Lemma collapseWs_singleSpaced s : singleSpaced (Text.collapseWs s) = true.
Proof.
  induction s as [|c s IH]; [done|]. simpl.
  destruct (Js.isWhiteSpace c) eqn:Hc.
  - destruct s as [|c' s']; [done|].
    destruct (Js.isWhiteSpace c') eqn:Hc'; [exact IH|].
    cbn [Text.collapseWs] in *. rewrite Hc' in *.
    cbn [singleSpaced] in *. rewrite Hc' in *.
    by rewrite IH.
  - simpl. by rewrite Hc.
Qed.

Lemma singleSpaced_collapse s : singleSpaced s = true -> Text.collapseWs s = s.
Proof.
  induction s as [|c s IH]; [done|]. simpl.
  destruct (Js.isWhiteSpace c) eqn:Hc.
  - intros [[Hsp Hnext]%andb_true_iff Hs]%andb_true_iff.
    apply Ascii.eqb_eq in Hsp as ->.
    destruct s as [|c' s']; [done|].
    apply negb_true_iff in Hnext. rewrite Hnext. by rewrite IH.
  - simpl. intros Hs. by rewrite IH.
Qed.

Lemma singleSpaced_no_newline c s :
  singleSpaced (String c s) = true -> Text.isNewline c = false.
Proof.
  simpl. destruct (Text.isNewline c) eqn:Hn; [|done].
  apply Nat.eqb_eq in Hn.
  assert (Hc : c = ascii_of_nat 10) by (rewrite <- Hn; symmetry; apply ascii_nat_embedding).
  subst c. by vm_compute.
Qed.

Lemma singleSpaced_tail c s : singleSpaced (String c s) = true -> singleSpaced s = true.
Proof. simpl. by intros [_ ?]%andb_true_iff. Qed.

(** After the white space is collapsed there is no line feed left, so the
    replacement of long runs of line feeds changes nothing. *)
Lemma squeezeNewlines_singleSpaced s :
  singleSpaced s = true -> Text.squeezeNewlines s = s.
Proof.
  induction s as [|c s IH]; [done|]. intros Hs.
  pose proof (singleSpaced_no_newline _ _ Hs) as Hn.
  simpl. rewrite Hn. by rewrite IH by by eapply singleSpaced_tail.
Qed.

Lemma singleSpaced_trimStart s :
  singleSpaced s = true -> singleSpaced (Js.trimStart s) = true.
Proof.
  induction s as [|c s IH]; [done|]. intros Hs. simpl.
  destruct (Js.isWhiteSpace c); [|done]. apply IH. by eapply singleSpaced_tail.
Qed.

Lemma trimEnd_head s a t : Js.trimEnd s = String a t -> exists s', s = String a s'.
Proof.
  destruct s as [|c s]; [done|]. simpl.
  destruct (Js.trimEnd s); [destruct (Js.isWhiteSpace c)|]; intros [= <- _]; by eexists.
Qed.

Lemma singleSpaced_trimEnd s :
  singleSpaced s = true -> singleSpaced (Js.trimEnd s) = true.
Proof.
  induction s as [|c s IH]; [done|]. intros Hs.
  pose proof (IH (singleSpaced_tail _ _ Hs)) as IH'.
  simpl. destruct (Js.trimEnd s) as [|a t] eqn:Ht.
  - destruct (Js.isWhiteSpace c) eqn:Hc; [done|]. simpl. by rewrite Hc.
  - destruct (trimEnd_head _ _ _ Ht) as (s' & ->).
    simpl in Hs |- *. simpl in IH'.
    apply andb_true_iff in Hs as [Hc _]. by rewrite Hc, IH'.
Qed.

Lemma singleSpaced_substring n s :
  singleSpaced s = true -> singleSpaced (String.substring 0 n s) = true.
Proof.
  revert s. induction n as [|n IH]; intros [|c s] Hs; try done.
  pose proof (IH s (singleSpaced_tail _ _ Hs)) as IH'.
  simpl in Hs |- *. apply andb_true_iff in Hs as [Hc _].
  rewrite IH', andb_true_r.
  destruct (Js.isWhiteSpace c); [|done].
  apply andb_true_iff in Hc as [-> Hnext]. simpl.
  destruct n as [|n]; destruct s as [|c' s']; done.
Qed.

Lemma noLeadingSpace_trimStart s : noLeadingSpace (Js.trimStart s) = true.
Proof.
  induction s as [|c s IH]; [done|]. simpl.
  destruct (Js.isWhiteSpace c) eqn:Hc; [done|]. simpl. by rewrite Hc.
Qed.

Lemma noLeadingSpace_trimEnd s :
  noLeadingSpace s = true -> noLeadingSpace (Js.trimEnd s) = true.
Proof.
  destruct (Js.trimEnd s) as [|a t] eqn:Ht; [done|].
  by destruct (trimEnd_head _ _ _ Ht) as (s' & ->).
Qed.

Lemma noLeadingSpace_substring n s :
  noLeadingSpace s = true -> noLeadingSpace (String.substring 0 n s) = true.
Proof. destruct n, s; done. Qed.

Lemma noLeadingSpace_fixed s : noLeadingSpace s = true -> Js.trimStart s = s.
Proof. destruct s as [|c s]; [done|]. simpl. by intros ->%negb_true_iff. Qed.

Lemma normalizeContent_length content :
  Js.strlen (Scraper.normalizeContent content) <= 8000.
Proof.
  unfold Scraper.normalizeContent, Scraper.MAX_CONTENT_CHARS, Js.sliceTo, Js.strlen.
  pose proof (substring_length_le (Z.to_nat 8000)
                (Js.trim (Text.squeezeNewlines (Text.collapseWs content)))). lia.
Qed.

(** The text a page is stored with: the replacement of line-feed runs is
    without effect, the text has at most 8000 characters, its only white
    space is single spaces (collapsing it again changes nothing), and it
    does not begin with white space. *)
Theorem normalizeContent_spec (content : string) :
  let text := Scraper.normalizeContent content in
  text = Js.sliceTo (Z.to_nat 8000) (Js.trim (Text.collapseWs content))
  /\ Js.strlen text <= 8000
  /\ Text.collapseWs text = text
  /\ Js.trimStart text = text.
Proof.
  unfold Scraper.normalizeContent, Scraper.MAX_CONTENT_CHARS, Js.sliceTo, Js.strlen.
  rewrite squeezeNewlines_singleSpaced by apply collapseWs_singleSpaced.
  split_and!.
  - done.
  - pose proof (substring_length_le (Z.to_nat 8000)
                  (Js.trim (Text.collapseWs content))). lia.
  - apply singleSpaced_collapse, singleSpaced_substring, singleSpaced_trimEnd,
      singleSpaced_trimStart, collapseWs_singleSpaced.
  - apply noLeadingSpace_fixed, noLeadingSpace_substring, noLeadingSpace_trimEnd,
      noLeadingSpace_trimStart.
Qed.

(** ** The scraper tool: the record of a page *)

Lemma splitWs_weight s : list_sum (map nonSpaceCount (Js.splitWs s)) = nonSpaceCount s.
Proof.
  induction s as [|c s IH]; [done|]. simpl.
  destruct (Js.isWhiteSpace c) eqn:Hc.
  - destruct s as [|c' s']; [done|].
    destruct (Js.isWhiteSpace c'); simpl; exact IH.
  - destruct (Js.splitWs s) as [|w ws]; simpl in *; rewrite Hc; lia.
Qed.

Lemma nonEmpty_length ws : (length (Text.nonEmpty ws) + emptyWords ws = length ws)%nat.
Proof.
  unfold Text.nonEmpty, emptyWords. induction ws as [|w ws IH]; simpl; [done|].
  case_bool_decide; simpl; lia.
Qed.

(** There are no more words than characters that are not white space. *)
Lemma countWords_le_nonSpace content :
  Scraper.countWords content <= Z.of_nat (nonSpaceCount content).
Proof.
  unfold Scraper.countWords.
  pose proof (weight_ge _ (splitWs_no_space content)) as Hw.
  pose proof (nonEmpty_length (Js.splitWs content)) as Hn.
  rewrite splitWs_weight in Hw. lia.
Qed.

Lemma orElse_nonempty a b : b <> "" -> Scraper.orElse a b <> "".
Proof. unfold Scraper.orElse. by case_decide. Qed.

Lemma substring_nonempty n s : s <> "" -> String.substring 0 (S n) s <> "".
Proof. by destruct s. Qed.

(** [scrapeUrl] rejects exactly when the url fails the schema's url check,
    and then with the schema's error.  For every other url it returns a
    record that names the url asked for.  A url that [new URL] refuses, a
    request that throws, a response that is not ok and a response that is
    not HTML give a record with an error, no text and zero words, which the
    success filter drops.  Any other response gives a record without error,
    with a non-empty title of at most 200 characters, a text of at most 8000
    characters, and a word count between 0 and the length of the text. *)
Theorem scrapeUrl_record (env : Scraper.Env) (scrapedAt url : string) :
  match Scraper.scrapeUrl env scrapedAt url with
  | Throw message =>
      Scraper.isUrl env url = false /\ message = Scraper.zodMessage env
  | Ok r =>
      Scraper.isUrl env url = true
      /\ ScrapedContent.url r = url
      /\ ScrapedContent.scrapedAt r = scrapedAt
      /\ match ScrapedContent.error r with
         | Some _ =>
             ScrapedContent.content r = ""
             /\ ScrapedContent.wordCount r = 0
             /\ scrapeSucceeded r = false
             /\ ~ (Scraper.newUrl env url = None
                   /\ exists ct doc,
                        Scraper.fetch env url = Scraper.Response ct doc
                        /\ Text.includes "text/html" (default "" ct) = true)
         | None =>
             Scraper.newUrl env url = None
             /\ (exists ct doc,
                   Scraper.fetch env url = Scraper.Response ct doc
                   /\ Text.includes "text/html" (default "" ct) = true)
             /\ ScrapedContent.title r <> ""
             /\ Js.strlen (ScrapedContent.title r) <= 200
             /\ Js.strlen (ScrapedContent.content r) <= 8000
             /\ ScrapedContent.wordCount r = Scraper.countWords (ScrapedContent.content r)
             /\ 0 <= ScrapedContent.wordCount r <= Js.strlen (ScrapedContent.content r)
         end
  end.
Proof.
  destruct (Scraper.isUrl env url) eqn:Hurl.
  2:{ by rewrite scrapeUrl_rejects. }
  unfold Scraper.scrapeUrl, Scraper.tryScrape, Scraper.parse.
  destruct (Scraper.newUrl env url) as [message|] eqn:Hnew; simpl.
  { rewrite Hurl. simpl. split_and!; try done;
      first [apply failed_not_succeeded | by intros [? _]]. }
  destruct (Scraper.fetch env url) as [message|status statusText|ct doc] eqn:Hfetch;
    simpl; rewrite ?Hurl.
  - simpl. split_and!; try done;
      first [apply failed_not_succeeded | by intros (_ & ? & ? & ? & _)].
  - simpl. split_and!; try done;
      first [apply failed_not_succeeded | by intros (_ & ? & ? & ? & _)].
  - destruct (Text.includes "text/html" (default "" ct)) eqn:Hct; simpl; rewrite ?Hurl.
    + simpl. split_and!; try done.
      * by exists ct, doc.
      * apply substring_nonempty. unfold Scraper.pageTitle.
        by do 3 apply orElse_nonempty.
      * unfold Js.strlen, Js.sliceTo.
        pose proof (substring_length_le 200 (Scraper.pageTitle doc)). lia.
      * apply normalizeContent_length.
      * unfold Scraper.countWords. lia.
      * pose proof (countWords_le_nonSpace
                      (Scraper.normalizeContent (Scraper.extractContent doc))).
        pose proof (nonSpaceCount_le_length
                      (Scraper.normalizeContent (Scraper.extractContent doc))).
        unfold Js.strlen. lia.
    + simpl. split_and!; try done; try apply failed_not_succeeded.
      intros (_ & ct' & doc' & [= <- <-] & Hyes). congruence.
Qed.

Lemma chunkText_some_chunk (content : string) :
  50 < Scraper.countWords content ->
  exists chunk chunks,
    chunkText content CHUNK_SIZE CHUNK_OVERLAP = Some (chunk :: chunks).
Proof.
  intros Hwords. unfold CHUNK_SIZE, CHUNK_OVERLAP.
  pose proof (countWords_le_nonSpace content) as Hns.
  destruct (Z.le_gt_cases (Z.of_nat (length (Js.splitWs content))) 200) as [Hshort|Hlong].
  - rewrite chunkText_single_window by lia.
    assert (Hkeep : (50 <? Js.strlen (Js.trim (Js.join (Js.splitWs content)))) = true).
    { apply Z.ltb_lt. unfold Js.strlen.
      pose proof (trim_length_ge (Js.join (Js.splitWs content))) as Ht.
      rewrite nonSpaceCount_join, splitWs_weight in Ht. lia. }
    rewrite Hkeep. by eexists _, [].
  - destruct (chunkLoop_count (Js.splitWs content) (S (length (Js.splitWs content)))
                1000 200 0 [] (splitWs_no_space content) (splitWs_emptyWords content))
      as (new & Hloop & Hcount); [lia | lia | lia | lia | lia |].
    pose proof (ceilDiv_spec (Z.of_nat (length (Js.splitWs content)) - 0 - 200)
                  (1000 - 200) ltac:(lia)) as Hceil.
    destruct new as [|chunk chunks]; [simpl in Hcount; lia|].
    exists chunk, chunks. exact Hloop.
Qed.

(** A page that passes the success filter (more than 50 words) always
    yields at least one chunk: indexing never drops a page it was given for
    lack of chunks. *)
Theorem scraped_page_yields_chunk (content : string) :
  50 < Scraper.countWords content ->
  exists chunk chunks,
    chunkText content CHUNK_SIZE CHUNK_OVERLAP = Some (chunk :: chunks).
Proof. apply chunkText_some_chunk. Qed.

Lemma scraped_page_yields_chunk_witness :
  exists chunk chunks,
    chunkText Sample.shortPage CHUNK_SIZE CHUNK_OVERLAP = Some (chunk :: chunks).
Proof. apply scraped_page_yields_chunk. by vm_compute. Defined.

(** ** Scrape: pages stay unique *)

Lemma scrapeUrl_pages_urls env scrapedAt urls pages :
  map (Scraper.scrapeUrl env scrapedAt) urls = map Ok pages ->
  map ScrapedContent.url pages = urls
  /\ Forall (fun url => Scraper.isUrl env url = true) urls.
Proof.
  revert pages. induction urls as [|url urls IH]; intros [|page pages]; simpl; try done.
  intros [= Hpage Hrest]. destruct (IH pages Hrest) as [-> Hall].
  rewrite (scrapeUrl_url _ _ _ _ Hpage). split; [done|]. constructor; [|done].
  destruct (Scraper.isUrl env url) eqn:Hurl; [done|].
  by rewrite scrapeUrl_rejects in Hpage.
Qed.

(** With the tool's [scrapeUrl] the scraper stage always returns, and every
    page it adds has passed the success filter and has the url of a search
    result that was not scraped before, whatever the state and the network.
    When the search results have distinct urls and the stored pages have
    distinct urls, the accumulated pages keep distinct urls. *)
Theorem scraper_keeps_pages_unique
    (env : Scraper.Env) (scrapedAt : string) (s : ResearchState.t) :
  exists u,
    scraperNode (Scraper.scrapeUrl env scrapedAt) s = Some u
    /\ (forall p, p ∈ default [] (Update.scrapedContent u) ->
          scrapeSucceeded p = true
          /\ ScrapedContent.url p ∈ map SearchResult.url (ResearchState.searchResults s)
          /\ ScrapedContent.url p ∉ map ScrapedContent.url (ResearchState.scrapedContent s))
    /\ (NoDup (map SearchResult.url (ResearchState.searchResults s)) ->
        NoDup (map ScrapedContent.url (ResearchState.scrapedContent s)) ->
        NoDup (map ScrapedContent.url (ResearchState.scrapedContent (applyUpdate s u)))).
Proof.
  destruct (scraperNode_cases (Scraper.scrapeUrl env scrapedAt) s)
    as (u & Hu & [(pages & Hpages & Hcontent) | Hnone]).
  2:{ exists u. split; [done|]. split.
      - rewrite Hnone. intros p Hp. by apply elem_of_nil in Hp.
      - intros _ Hsc. simpl. unfold Reducer.channel. by rewrite Hnone. }
  exists u. split; [done|].
  destruct (scrapeUrl_pages_urls _ _ _ _ Hpages) as [Hurls _].
  assert (Hsub : map ScrapedContent.url (List.filter scrapeSucceeded pages)
                 `sublist_of` urlsToScrape s).
  { rewrite <- Hurls. apply map_sublist, filter_sublist. }
  split.
  - rewrite Hcontent. cbn [default]. intros p Hp.
    split; [by apply list_elem_of_In, filter_In in Hp as [_ ?]|].
    apply urlsToScrape_new. eapply elem_of_sublist; [|exact Hsub].
    apply list_elem_of_In, in_map. by apply list_elem_of_In.
  - intros Hsr Hsc. destruct (urlsToScrape_NoDup s Hsr) as [Hnd Hnew].
    simpl. unfold Reducer.channel. rewrite Hcontent.
    unfold Reducer.append. rewrite map_app.
    apply NoDup_app. split_and!; [done | |].
    + intros url Hin Hin'. apply (Hnew url); [|done].
      eapply elem_of_sublist; [|exact Hsub]. done.
    + eapply sublist_NoDup; [exact Hnd|]. done.
Qed.

Lemma scraper_keeps_pages_unique_witness :
  exists u,
    scraperNode (Scraper.scrapeUrl Scenario.web Sample.now) Sample.gathered = Some u
    /\ NoDup (map ScrapedContent.url
                (ResearchState.scrapedContent (applyUpdate Sample.gathered u))).
Proof.
  destruct (scraper_keeps_pages_unique Scenario.web Sample.now Sample.gathered)
    as (u & Hu & _ & Hnd).
  exists u. split; [exact Hu|]. apply Hnd.
  - simpl. apply NoDup_cons. split; [|apply NoDup_singleton].
    by intros [=]%list_elem_of_singleton.
  - constructor.
Defined.

(** ** The review stage: choices *)



Lemma humanReviewNode_skips now bad answers s :
  Forall invalidChoice bad ->
  humanReviewNode now (bad ++ answers) s = humanReviewNode now answers s.
Proof.
  induction 1 as [|choice bad (Hq & Ha & Hr) _ IH]; [done|]. simpl.
  destruct (ResearchState.draftReport s) as [d|] eqn:Hd.
  - by repeat case_decide.
  - destruct answers; simpl; by rewrite Hd.
Qed.

(** An unrecognised choice only makes the review stage ask again: any number
    of such lines in front of the answers changes nothing in what the stage
    comes to. *)
Theorem review_reprompts_on_invalid_choice
    (now : string) (bad answers : list string) (s : ResearchState.t) :
  Forall invalidChoice bad ->
  humanReviewNode now (bad ++ answers) s = humanReviewNode now answers s.
Proof. apply humanReviewNode_skips. Qed.

Lemma review_reprompts_witness :
  humanReviewNode Sample.now (["x"; "yes"; ""] ++ Sample.rejection) Sample.thirdDraft
  = humanReviewNode Sample.now Sample.rejection Sample.thirdDraft.
Proof.
  apply review_reprompts_on_invalid_choice.
  repeat constructor; by vm_compute.
Defined.

(** An approval, in either letter case and after any number of unrecognised
    choices, ends the session whatever the iteration count and the cap: the
    reviewed draft becomes the final report, the marker is [complete], the
    conditional edge leads to [END], and the driver saves that draft. *)
Theorem approval_delivers_the_draft
    (MAX : Z) (now : string) (bad : list string) (choice : string) (rest : list string)
    (s : ResearchState.t) (d : ResearchReport.t) :
  ResearchState.draftReport s = Some d ->
  Forall invalidChoice bad ->
  Js.toUpperCase choice = "A" ->
  exists s',
    reviewTransition MAX now (bad ++ choice :: rest) s = Some (s', to_end)
    /\ ResearchState.finalReport s' = Some d
    /\ ResearchState.draftReport s' = Some d
    /\ ResearchState.currentNode s' = NodeStatus.complete
    /\ feedbackApproved (ResearchState.humanFeedback s') = true
    /\ finalOutput s' = Some d
    /\ ResearchState.retrievedChunks s' = ResearchState.retrievedChunks s
    /\ Main.finish (objectAssign s (approveUpdate now d)) = Main.Saved d (objectAssign s (approveUpdate now d)).
Proof.
  intros Hd Hbad Ha. unfold reviewTransition.
  rewrite humanReviewNode_skips by done. simpl. rewrite Hd.
  case_decide as Hq; [rewrite Ha in Hq; done|].
  case_decide; [|done].
  eexists. split; [reflexivity|]. by split_and!.
Qed.

Lemma approval_witness :
  exists s',
    reviewTransition 3 Sample.now ["maybe"; "a"] Sample.thirdDraft = Some (s', to_end)
    /\ finalOutput s' = Some Sample.report.
Proof.
  destruct (approval_delivers_the_draft 3 Sample.now ["maybe"] "a" [] Sample.thirdDraft
              Sample.report eq_refl) as (s' & H1 & _ & _ & _ & _ & H2 & _).
  - repeat constructor; by vm_compute.
  - by vm_compute.
  - by exists s'.
Defined.

(** Whatever the human answers, a returned review never touches the
    question, the sub-queries, the gathered evidence or the iteration
    counter, and adds at most one message to the error log. *)
Theorem review_frame (now : string) (answers : list string) (s : ResearchState.t) (u : Update.t) :
  humanReviewNode now answers s = Returned u ->
  let s' := applyUpdate s u in
  ResearchState.researchQuestion s' = ResearchState.researchQuestion s
  /\ ResearchState.subQueries s' = ResearchState.subQueries s
  /\ ResearchState.searchResults s' = ResearchState.searchResults s
  /\ ResearchState.scrapedContent s' = ResearchState.scrapedContent s
  /\ ResearchState.storedChunkIds s' = ResearchState.storedChunkIds s
  /\ ResearchState.iterationCount s' = ResearchState.iterationCount s
  /\ (ResearchState.errors s' = ResearchState.errors s
      \/ (ResearchState.draftReport s = None
          /\ ResearchState.errors s'
             = ResearchState.errors s ++ ["No draft report available for review"]
          /\ ResearchState.currentNode s' = NodeStatus.error)).
Proof.
  intros Hret.
  destruct (humanReviewNode_returns _ _ _ _ Hret)
    as [[Hd ->] | [(d & _ & ->) | (d & text & changes & Hd & ->)]]; simpl.
  - split_and!; try done. by right.
  - split_and!; try done. by left.
  - split_and!; try done. by left.
Qed.

Lemma review_frame_witness :
  ResearchState.searchResults
    (applyUpdate Sample.thirdDraft
       (rejectUpdate Sample.now "add more detail on Y" ["cite the Willow chip"]))
  = ResearchState.searchResults Sample.thirdDraft.
Proof.
  by destruct (review_frame Sample.now Sample.rejection Sample.thirdDraft
                 (rejectUpdate Sample.now "add more detail on Y" ["cite the Willow chip"])
                 eq_refl) as (_ & _ & H & _).
Defined.

(** ** The merge over a whole run *)

Lemma applyUpdate_grows s u :
  (exists sr, ResearchState.searchResults (applyUpdate s u) = ResearchState.searchResults s ++ sr)
  /\ (exists sc, ResearchState.scrapedContent (applyUpdate s u)
                 = ResearchState.scrapedContent s ++ sc)
  /\ (exists er, ResearchState.errors (applyUpdate s u) = ResearchState.errors s ++ er)
  /\ (forall x, x ∈ ResearchState.storedChunkIds s ->
                x ∈ ResearchState.storedChunkIds (applyUpdate s u)).
Proof.
  simpl. unfold Reducer.channel, Reducer.append. split_and!.
  - destruct (Update.searchResults u) as [v|]; [by exists v | exists []; by rewrite app_nil_r].
  - destruct (Update.scrapedContent u) as [v|]; [by exists v | exists []; by rewrite app_nil_r].
  - destruct (Update.errors u) as [v|]; [by exists v | exists []; by rewrite app_nil_r].
  - intros x Hx. destruct (Update.storedChunkIds u) as [v|]; [|done].
    apply appendUnique_elem. by left.
Qed.

(** No sequence of stage updates ever removes or reorders evidence: the
    search results, the scraped pages and the error log of the start state
    remain a prefix of the later ones, and every stored chunk id stays. *)
Theorem evidence_is_never_lost (s : ResearchState.t) (us : list Update.t) :
  let s' := applyUpdates s us in
  (exists sr, ResearchState.searchResults s' = ResearchState.searchResults s ++ sr)
  /\ (exists sc, ResearchState.scrapedContent s' = ResearchState.scrapedContent s ++ sc)
  /\ (exists er, ResearchState.errors s' = ResearchState.errors s ++ er)
  /\ (forall x, x ∈ ResearchState.storedChunkIds s -> x ∈ ResearchState.storedChunkIds s').
Proof.
  revert s. induction us as [|u us IH]; intros s.
  - simpl. split_and!; try (exists []; by rewrite app_nil_r). done.
  - destruct (applyUpdate_grows s u) as ((sr & Hsr) & (sc & Hsc) & (er & Her) & Hids).
    destruct (IH (applyUpdate s u)) as ((sr' & Hsr') & (sc' & Hsc') & (er' & Her') & Hids').
    simpl in *. unfold applyUpdates in *. simpl. split_and!.
    + exists (sr ++ sr'). by rewrite Hsr', Hsr, app_assoc.
    + exists (sc ++ sc'). by rewrite Hsc', Hsc, app_assoc.
    + exists (er ++ er'). by rewrite Her', Her, app_assoc.
    + intros x Hx. by apply Hids', Hids.
Qed.

Lemma uniqueFrom_fixed seen xs :
  NoDup xs -> (forall x, x ∈ xs -> x ∉ seen) -> Js.uniqueFrom seen xs = xs.
Proof.
  revert seen. induction xs as [|x xs IH]; intros seen Hnd Hseen; [done|].
  apply NoDup_cons in Hnd as [Hx Hnd]. simpl.
  case_decide as Hin; [by destruct (Hseen x); [left|]|].
  f_equal. apply IH; [done|].
  intros y Hy. rewrite not_elem_of_union, not_elem_of_singleton.
  split; [by intros -> | apply Hseen; by right].
Qed.

Lemma uniqueFrom_seen seen xs :
  (forall x, x ∈ xs -> x ∈ seen) -> Js.uniqueFrom seen xs = [].
Proof.
  revert seen. induction xs as [|x xs IH]; intros seen Hseen; [done|]. simpl.
  case_decide as Hin; [|by destruct Hin; apply Hseen; left].
  apply IH. intros y Hy. apply Hseen. by right.
Qed.

(** The reducer of the stored-chunk ids keeps the ids it already holds in
    place and appends the new ones in order of first occurrence; merging the
    same ids a second time changes nothing. *)
Theorem appendUnique_keeps_order (curr next : list string) :
  NoDup curr ->
  Reducer.appendUnique curr next = curr ++ Js.uniqueFrom (list_to_set curr) next
  /\ Reducer.appendUnique (Reducer.appendUnique curr next) next
     = Reducer.appendUnique curr next.
Proof.
  intros Hnd. unfold Reducer.appendUnique, Js.arrayFromSet.
  assert (H1 : Js.uniqueFrom ∅ (curr ++ next)
               = curr ++ Js.uniqueFrom (list_to_set curr) next).
  { rewrite uniqueFrom_app. rewrite uniqueFrom_fixed by (done || set_solver).
    do 2 f_equal. set_solver. }
  split; [exact H1|].
  rewrite uniqueFrom_app.
  rewrite (uniqueFrom_fixed ∅ (Js.uniqueFrom ∅ (curr ++ next)))
    by (apply uniqueFrom_NoDup || set_solver).
  rewrite (uniqueFrom_seen _ next); [by rewrite app_nil_r|].
  intros x Hx. apply elem_of_union_l, elem_of_list_to_set, uniqueFrom_elem.
  split; [apply elem_of_app; by right | set_solver].
Qed.

Lemma appendUnique_keeps_order_witness :
  Reducer.appendUnique ["c1"; "c2"] ["c2"; "c3"; "c1"; "c3"] = ["c1"; "c2"; "c3"].
Proof.
  rewrite (proj1 (appendUnique_keeps_order ["c1"; "c2"] ["c2"; "c3"; "c1"; "c3"]
                    ltac:(repeat constructor; set_solver))).
  by vm_compute.
Defined.

(** ** Indexing: never fatal *)

Lemma storeLoop_returns store fuel (pages : list ScrapedContent.t) ids batchSize i stored :
  1 <= batchSize -> 0 <= i ->
  (Z.to_nat (Z.of_nat (length pages) - i) < fuel)%nat ->
  exists r, storeLoop store fuel pages ids batchSize i stored = Some r.
Proof.
  intros Hb. revert i stored.
  induction fuel as [|fuel IH]; intros i stored Hi Hfuel; [lia|].
  simpl. destruct (Z.ltb_spec i (Z.of_nat (length pages))) as [Hlt|Hge]; [|by eexists].
  destruct (match ids !! Z.to_nat (i / batchSize) with
            | Some x => Some x
            | None => head ids
            end) as [subQueryId|]; [|by eexists].
  destruct (store _ subQueryId) as [chunkIds|m]; [|by eexists].
  apply IH; lia.
Qed.

Lemma batchSize_pos (n k : Z) : 1 <= n -> 1 <= Js.ceilDiv n (Z.max k 1).
Proof. intros Hn. pose proof (ceilDiv_spec n (Z.max k 1) ltac:(lia)). nia. Qed.

Lemma vectorStoreNode_returns_aux
    (store : list ScrapedContent.t -> string -> Result (list string)) (s : ResearchState.t) :
  exists u, vectorStoreNode store s = Some u.
Proof.
  unfold vectorStoreNode.
  destruct (ResearchState.scrapedContent s) as [|p ps] eqn:Hpages; [by eexists|].
  rewrite <- Hpages.
  assert (Hlen : 1 <= Z.of_nat (length (ResearchState.scrapedContent s)))
    by (rewrite Hpages; simpl; lia).
  destruct (storeLoop_returns store (S (length (ResearchState.scrapedContent s)))
              (ResearchState.scrapedContent s)
              (map SubQuery.id (ResearchState.subQueries s))
              (Js.ceilDiv (Z.of_nat (length (ResearchState.scrapedContent s)))
                 (Z.max (Z.of_nat (length (map SubQuery.id (ResearchState.subQueries s)))) 1))
              0 (ResearchState.storedChunkIds s)) as (r & Hr);
    [by apply batchSize_pos | lia | lia |].
  rewrite Hr. destruct r; by eexists.
Qed.

(** The indexing stage always returns and always moves the marker on to
    [retrieving], whatever the store does: a failure is logged as one error
    message and no chunk id is reported.  With pages to store but no
    sub-query, the stage fails on the attribution before the store is
    called. *)
Theorem vectorStoreNode_never_fatal
    (store : list ScrapedContent.t -> string -> Result (list string)) (s : ResearchState.t) :
  exists u,
    vectorStoreNode store s = Some u
    /\ Update.currentNode u = Some NodeStatus.retrieving
    /\ ((Update.errors u = None)
        \/ (exists m, Update.errors u = Some [m] /\ Update.storedChunkIds u = None))
    /\ ResearchState.searchResults (applyUpdate s u) = ResearchState.searchResults s
    /\ ResearchState.scrapedContent (applyUpdate s u) = ResearchState.scrapedContent s
    /\ (ResearchState.scrapedContent s = [] -> u = markerUpdate NodeStatus.retrieving)
    /\ (ResearchState.scrapedContent s <> [] -> ResearchState.subQueries s = [] ->
        u = errorUpdate "Cannot read properties of undefined (reading 'slice')"
              NodeStatus.retrieving).
Proof.
  unfold vectorStoreNode.
  destruct (ResearchState.scrapedContent s) as [|p ps] eqn:Hpages.
  { eexists. split; [done|]. split_and!; try done. by left. }
  rewrite <- Hpages.
  assert (Hlen : 1 <= Z.of_nat (length (ResearchState.scrapedContent s)))
    by (rewrite Hpages; simpl; lia).
  destruct (storeLoop_returns store (S (length (ResearchState.scrapedContent s)))
              (ResearchState.scrapedContent s)
              (map SubQuery.id (ResearchState.subQueries s))
              (Js.ceilDiv (Z.of_nat (length (ResearchState.scrapedContent s)))
                 (Z.max (Z.of_nat (length (map SubQuery.id (ResearchState.subQueries s)))) 1))
              0 (ResearchState.storedChunkIds s)) as (r & Hr);
    [by apply batchSize_pos | lia | lia |].
  assert (Hnosq : ResearchState.subQueries s = [] ->
            r = Throw "Cannot read properties of undefined (reading 'slice')").
  { intros Hsq. rewrite Hsq in Hr. simpl in Hr.
    destruct (Z.ltb_spec 0 (Z.of_nat (length (ResearchState.scrapedContent s))));
      [|lia]. by injection Hr as <-. }
  rewrite Hr. destruct r as [stored|m].
  - eexists. split; [done|]. split_and!; try done.
    + by left.
    + intros Hnil. congruence.
    + intros _ Hsq. by specialize (Hnosq Hsq).
  - eexists. split; [done|]. split_and!; try done.
    + right. by exists m.
    + intros Hnil. congruence.
    + intros _ Hsq. specialize (Hnosq Hsq). by injection Hnosq as ->.
Qed.

(** ** The graph: what one [invoke] executes *)

Lemma scraperNode_returns scrapeUrl s : exists u, scraperNode scrapeUrl s = Some u.
Proof. destruct (scraperNode_cases scrapeUrl s) as (u & Hu & _). by exists u. Qed.

Lemma working_stage_returns w n s :
  n <> Graph.human_review -> exists u, Graph.stage w n s = Some u.
Proof.
  intros Hn. destruct n; simpl.
  - by eexists.
  - by eexists.
  - apply scraperNode_returns.
  - apply vectorStoreNode_returns_aux.
  - by eexists.
  - by eexists.
  - done.
Qed.

(** What the six working stages may write: never the question, the human
    feedback or the final report, and the iteration counter only when the
    decomposition succeeds. *)
Lemma working_stage_frame w n s u :
  n <> Graph.human_review ->
  Graph.stage w n s = Some u ->
  Update.researchQuestion u = None
  /\ Update.humanFeedback u = None
  /\ Update.finalReport u = None
  /\ (Update.iterationCount u = None
      \/ (n = Graph.reasoning
          /\ Update.iterationCount u = Some (ResearchState.iterationCount s + 1)
          /\ Update.currentNode u = Some NodeStatus.searching)).
Proof.
  intros Hn. destruct n; simpl; [| | | | | |done].
  - unfold reasoningNode. intros [= <-]. repeat case_match; simpl; split_and!; auto.
  - unfold searchNode. intros [= <-]. repeat case_match; simpl; split_and!; auto.
  - unfold scraperNode. intros Hu. repeat case_match; simplify_eq; simpl; split_and!; auto.
  - unfold vectorStoreNode. intros Hu.
    repeat case_match; simplify_eq; simpl; split_and!; auto.
  - unfold retrievalNode. intros [= <-]. repeat case_match; simpl; split_and!; auto.
  - unfold synthesisNode. intros [= <-]. repeat case_match; simpl; split_and!; auto.
Qed.

Lemma reasoningNode_iteration decompose s :
  Update.iterationCount (reasoningNode decompose s)
  = match Update.subQueries (reasoningNode decompose s) with
    | Some _ => Some (ResearchState.iterationCount s + 1)
    | None => None
    end.
Proof. unfold reasoningNode. by repeat case_match. Qed.

Lemma run_step w MAX limit n n' s u executed :
  Graph.interruptBefore n = false ->
  Graph.stage w n s = Some u ->
  Graph.next MAX n (applyUpdate s u) = Graph.Goto n' ->
  Graph.run w MAX (S limit) n s executed
  = Graph.run w MAX limit n' (applyUpdate s u) (executed ++ [n]).
Proof. intros Hi Hs Hn. cbn [Graph.run]. by rewrite Hi, Hs, Hn. Qed.

(** One [app.invoke] with a recursion limit of at least 7 always executes
    exactly the six working stages, in order, and stops in front of the
    review: no stage result, error or not, shortens or reroutes the pass.
    The pass leaves the human feedback and the final report as they were
    and raises the iteration counter by one exactly when the decomposition
    succeeded. *)
Theorem invoke_runs_six_stages (w : Graph.World) (MAX : Z) (limit : nat) (s : ResearchState.t) :
  (7 <= limit)%nat ->
  exists final,
    Graph.invoke w MAX limit s
    = ([Graph.reasoning; Graph.search; Graph.scraper; Graph.vector_store;
        Graph.retrieval; Graph.synthesis],
       Graph.Interrupted Graph.human_review final)
    /\ ResearchState.researchQuestion final = ResearchState.researchQuestion s
    /\ ResearchState.humanFeedback final = ResearchState.humanFeedback s
    /\ ResearchState.finalReport final = ResearchState.finalReport s
    /\ ResearchState.iterationCount final
       = ResearchState.iterationCount s
         + match Update.subQueries (reasoningNode (Graph.decompose w) s) with
           | Some _ => 1
           | None => 0
           end.
Proof.
  intros Hlimit.
  do 7 (destruct limit as [|limit]; [lia|]). clear Hlimit.
  unfold Graph.invoke.
  destruct (working_stage_returns w Graph.reasoning s ltac:(done)) as (u1 & H1).
  set (s1 := applyUpdate s u1).
  destruct (working_stage_returns w Graph.search s1 ltac:(done)) as (u2 & H2).
  set (s2 := applyUpdate s1 u2).
  destruct (working_stage_returns w Graph.scraper s2 ltac:(done)) as (u3 & H3).
  set (s3 := applyUpdate s2 u3).
  destruct (working_stage_returns w Graph.vector_store s3 ltac:(done)) as (u4 & H4).
  set (s4 := applyUpdate s3 u4).
  destruct (working_stage_returns w Graph.retrieval s4 ltac:(done)) as (u5 & H5).
  set (s5 := applyUpdate s4 u5).
  destruct (working_stage_returns w Graph.synthesis s5 ltac:(done)) as (u6 & H6).
  set (s6 := applyUpdate s5 u6).
  rewrite (run_step w MAX _ Graph.reasoning Graph.search s u1 []) by done.
  rewrite (run_step w MAX _ Graph.search Graph.scraper s1 u2) by done.
  rewrite (run_step w MAX _ Graph.scraper Graph.vector_store s2 u3) by done.
  rewrite (run_step w MAX _ Graph.vector_store Graph.retrieval s3 u4) by done.
  rewrite (run_step w MAX _ Graph.retrieval Graph.synthesis s4 u5) by done.
  rewrite (run_step w MAX _ Graph.synthesis Graph.human_review s5 u6) by done.
  exists s6. split; [done|].
  destruct (working_stage_frame w Graph.reasoning s u1 ltac:(done) H1) as (Q1 & F1 & R1 & I1).
  destruct (working_stage_frame w Graph.search s1 u2 ltac:(done) H2) as (Q2 & F2 & R2 & I2).
  destruct (working_stage_frame w Graph.scraper s2 u3 ltac:(done) H3) as (Q3 & F3 & R3 & I3).
  destruct (working_stage_frame w Graph.vector_store s3 u4 ltac:(done) H4) as (Q4 & F4 & R4 & I4).
  destruct (working_stage_frame w Graph.retrieval s4 u5 ltac:(done) H5) as (Q5 & F5 & R5 & I5).
  destruct (working_stage_frame w Graph.synthesis s5 u6 ltac:(done) H6) as (Q6 & F6 & R6 & I6).
  destruct I2 as [I2|[? _]]; [|done]. destruct I3 as [I3|[? _]]; [|done].
  destruct I4 as [I4|[? _]]; [|done]. destruct I5 as [I5|[? _]]; [|done].
  destruct I6 as [I6|[? _]]; [|done]. clear I1.
  subst s6 s5 s4 s3 s2 s1. simpl.
  rewrite Q6, Q5, Q4, Q3, Q2, Q1, F6, F5, F4, F3, F2, F1, R6, R5, R4, R3, R2, R1,
    I6, I5, I4, I3, I2. simpl.
  split_and!; try done.
  simpl in H1. injection H1 as <-.
  rewrite reasoningNode_iteration.
  destruct (Update.subQueries (reasoningNode (Graph.decompose w) s)); simpl;
    unfold Reducer.replace; lia.
Qed.

Lemma invoke_runs_six_stages_witness :
  exists final,
    Graph.invoke Sample.world 3 50 Sample.question
    = ([Graph.reasoning; Graph.search; Graph.scraper; Graph.vector_store;
        Graph.retrieval; Graph.synthesis],
       Graph.Interrupted Graph.human_review final)
    /\ ResearchState.iterationCount final = 1.
Proof.
  destruct (invoke_runs_six_stages Sample.world 3 50 Sample.question ltac:(lia))
    as (final & Hrun & _ & _ & _ & Hiter).
  exists final. split; [exact Hrun | exact Hiter].
Defined.

(** ** Retrieval: empty store, failures, ranking *)

Lemma dedup_fold_nil acc (l : list (list RetrievedChunk.t)) :
  Forall (fun r => r = []) l ->
  fold_left (fun acc results => fold_left dedupStep results acc) l acc = acc.
Proof. induction 1 as [|r l -> _ IH]; simpl; [done | exact IH]. Qed.

(** With an empty store the retrieval stage reports no error: it replaces
    the retrieved chunks by the empty list and moves on, so the pass then
    fails in the synthesis stage, which finds no chunk. *)
Theorem empty_store_fails_at_synthesis
    (tool : VectorTool) (syn : Synthesizer) (s : ResearchState.t) :
  Chroma.count (getCollection tool) = Ok 0 ->
  let u := retrievalNode tool s in
  Update.retrievedChunks u = Some []
  /\ Update.currentNode u = Some NodeStatus.synthesizing
  /\ Update.errors u = None
  /\ synthesisNode syn (applyUpdate s u)
     = errorUpdate "No retrieved chunks available for synthesis" NodeStatus.error.
Proof.
  intros Hcount.
  assert (Hu : retrievalNode tool s
               = {| Update.researchQuestion := None; Update.subQueries := None;
                    Update.searchResults := None; Update.scrapedContent := None;
                    Update.storedChunkIds := None;
                    Update.retrievedChunks := Some [];
                    Update.draftReport := None; Update.humanFeedback := None;
                    Update.currentNode := Some NodeStatus.synthesizing;
                    Update.iterationCount := None; Update.errors := None;
                    Update.finalReport := None |}).
  { unfold retrievalNode.
    rewrite (promiseAll_all_ok _ (fun _ => [])).
    2: { intros q _. unfold retrieveFromVectorDB. by rewrite Hcount. }
    do 2 f_equal. unfold topChunks, dedupChunks.
    rewrite dedup_fold_nil; [done|].
    apply Forall_forall. by intros r (q & -> & _)%list_elem_of_In%in_map_iff. }
  intros u. subst u. rewrite Hu. split_and!; try done.
Qed.

Lemma empty_store_witness :
  Update.retrievedChunks
    (retrievalNode {| getCollection := Chroma.mkCollection (Ok 0) (fun _ _ => Throw "unused");
                      embedQuery := fun _ => Throw "unused" |} Sample.revising)
  = Some [].
Proof.
  by destruct (empty_store_fails_at_synthesis
                 {| getCollection := Chroma.mkCollection (Ok 0) (fun _ _ => Throw "unused");
                    embedQuery := fun _ => Throw "unused" |}
                 (Graph.synthesizer Sample.world) Sample.revising eq_refl) as (H & _).
Defined.

(** Retrieval is all or nothing: when the retrieval for any one of its
    queries fails, the stage returns an error update, the results of the
    other queries are discarded, and the chunks of the previous pass stay in
    the state. *)
Theorem retrieval_is_all_or_nothing (tool : VectorTool) (s : ResearchState.t) (q m : string) :
  q ∈ retrievalQueries s ->
  (retrieveFromVectorDB tool q TOP_K_PER_QUERY).2 = Throw m ->
  exists m',
    retrievalNode tool s = errorUpdate m' NodeStatus.error
    /\ ResearchState.retrievedChunks (applyUpdate s (retrievalNode tool s))
       = ResearchState.retrievedChunks s
    /\ ResearchState.currentNode (applyUpdate s (retrievalNode tool s)) = NodeStatus.error.
Proof.
  intros Hq Hthrow.
  destruct (promiseAll_throws
              (map (fun q => (retrieveFromVectorDB tool q TOP_K_PER_QUERY).2)
                   (retrievalQueries s)) m) as (m' & Hall).
  { apply list_elem_of_In, in_map_iff. exists q. split; [done|]. by apply list_elem_of_In. }
  exists m'. unfold retrievalNode. by rewrite Hall.
Qed.

Lemma retrieval_all_or_nothing_witness :
  exists m',
    retrievalNode {| getCollection := Chroma.mkCollection (Throw "ECONNREFUSED") (fun _ _ => Ok None);
                     embedQuery := fun _ => Ok [] |} Sample.thirdDraft
    = errorUpdate m' NodeStatus.error.
Proof.
  destruct (retrieval_is_all_or_nothing
              {| getCollection := Chroma.mkCollection (Throw "ECONNREFUSED") (fun _ _ => Ok None);
                 embedQuery := fun _ => Ok [] |} Sample.thirdDraft
              "What is new in quantum error correction?" "ECONNREFUSED")
    as (m' & H & _); [by left | done |].
  by exists m'.
Defined.

Lemma dedup_fold_concat (allResults : list (list RetrievedChunk.t)) acc :
  fold_left (fun acc results => fold_left dedupStep results acc) allResults acc
  = fold_left dedupStep (concat allResults) acc.
Proof.
  revert acc. induction allResults as [|r rs IH]; intros acc; simpl; [done|].
  by rewrite IH, fold_left_app.
Qed.

(** The deduplication keeps chunks in input order and records their keys. *)
Lemma dedup_fold_kept l seen kept :
  (forall k, k ∈ seen <-> k ∈ map dedupKey kept) ->
  exists seen' new,
    fold_left dedupStep l (seen, kept) = (seen', kept ++ new)
    /\ new `sublist_of` l
    /\ (forall k, k ∈ seen' <-> k ∈ map dedupKey (kept ++ new))
    /\ (forall c, c ∈ l -> 50 < Js.strlen (RetrievedChunk.content c) -> dedupKey c ∈ seen').
Proof.
  revert seen kept. induction l as [|c l IH]; intros seen kept Hseen.
  - exists seen, []. rewrite app_nil_r. split_and!; try done.
    intros c Hc. by apply elem_of_nil in Hc.
  - simpl.
    destruct (bool_decide (dedupKey c ∉ seen)
              && (50 <? Js.strlen (RetrievedChunk.content c)))%bool eqn:Hkeep.
    + apply andb_true_iff in Hkeep as [Hnew%bool_decide_eq_true Hlong].
      destruct (IH ({[dedupKey c]} ∪ seen) (kept ++ [c])) as (seen' & new & Hfold & Hsub & Hkeys & Hcov).
      { intros k. rewrite map_app, elem_of_app, elem_of_union, elem_of_singleton, Hseen.
        simpl. rewrite list_elem_of_singleton. tauto. }
      exists seen', (c :: new). rewrite <- app_assoc in Hfold, Hkeys. simpl in Hfold, Hkeys.
      split_and!; [done | by apply sublist_skip | done |].
      intros c' [-> | Hc']%elem_of_cons Hlen; [|by apply Hcov].
      apply Hkeys. rewrite map_app. simpl. apply elem_of_app. right. by left.
    + destruct (IH seen kept Hseen) as (seen' & new & Hfold & Hsub & Hkeys & Hcov).
      exists seen', new. split_and!; [done | by apply sublist_cons | done |].
      intros c' [-> | Hc']%elem_of_cons Hlen; [|by apply Hcov].
      apply andb_false_iff in Hkeep as [Hin%bool_decide_eq_false | Hshort].
      * apply Hkeys. rewrite map_app, elem_of_app. left. apply Hseen.
        by apply dec_stable in Hin.
      * apply Z.ltb_ge in Hshort. lia.
Qed.

(** What the ranking returns for a batch of query results: the kept chunks
    are input chunks in input order; every input chunk longer than 50
    characters has its key represented among them; the result is drawn from
    the kept chunks; and a kept chunk is left out only when 20 chunks are
    returned, all of which score at least as high. *)
Theorem topChunks_are_the_best (allResults : list (list RetrievedChunk.t)) :
  let flat := concat allResults in
  let kept := dedupChunks allResults in
  let top := topChunks allResults in
  kept `sublist_of` flat
  /\ (forall c, c ∈ flat -> 50 < Js.strlen (RetrievedChunk.content c) ->
        exists k, k ∈ kept /\ dedupKey k = dedupKey c)
  /\ (forall c, c ∈ top -> c ∈ kept)
  /\ (forall c, c ∈ kept -> c ∉ top ->
        length top = 20%nat
        /\ forall k, k ∈ top ->
             (RetrievedChunk.relevanceScore c <= RetrievedChunk.relevanceScore k)%Q).
Proof.
  intros flat kept top. subst flat kept top. unfold topChunks, dedupChunks.
  rewrite dedup_fold_concat.
  destruct (dedup_fold_kept (concat allResults) ∅ []) as (seen' & new & Hfold & Hsub & Hkeys & Hcov).
  { intros k. simpl. set_solver. }
  rewrite Hfold. simpl. unfold MAX_TOTAL_CHUNKS. rewrite slice_from_0 by lia.
  change (Z.to_nat 20) with 20%nat.
  pose proof (sortBy_perm byRelevanceDesc new) as Hperm.
  assert (Hsorted : StronglySorted
            (fun a b => (RetrievedChunk.relevanceScore b <= RetrievedChunk.relevanceScore a)%Q)
            (Js.sortBy byRelevanceDesc new)).
  { eapply StronglySorted_mono;
      [|apply (sortBy_sorted byRelevanceDesc byRelevanceDesc_total byRelevanceDesc_trans)].
    intros a b Hab. by apply Qle_bool_iff. }
  split_and!.
  - done.
  - intros c Hc Hlong. specialize (Hcov c Hc Hlong). apply Hkeys in Hcov. simpl in Hcov.
    apply list_elem_of_In, in_map_iff in Hcov as (k & Hk & Hin). exists k.
    split; [by apply list_elem_of_In | done].
  - intros c Hc. rewrite <- Hperm. eapply elem_of_sublist; [exact Hc | apply sublist_take].
  - intros c Hc Hout. rewrite <- Hperm in Hc.
    destruct (elem_of_take_or_drop 20 _ _ Hc) as [?|Hdrop]; [done|].
    split; [|intros k Hk; exact (sorted_take_dominates _ 20 _ k c Hsorted Hk Hdrop)].
    rewrite length_take. apply list_elem_of_In in Hdrop.
    destruct (decide (20 <= length (Js.sortBy byRelevanceDesc new))%nat) as [?|Hshort]; [lia|].
    rewrite skipn_all2 in Hdrop by lia. done.
Qed.

(** ** Synthesis: citations in the prompt and in the draft *)

Lemma buildCitationMap_shape (s : ResearchState.t) :
  map Citation.url (buildCitationMap s)
  = Js.arrayFromSet
      (map (fun c => ChunkMetadata.url (RetrievedChunk.metadata c))
           (ResearchState.retrievedChunks s)
       ++ map SearchResult.url (take 20 (ResearchState.searchResults s)))
  /\ map Citation.id (buildCitationMap s)
     = map Z.of_nat (seq 1 (length (buildCitationMap s))).
Proof.
  unfold buildCitationMap.
  rewrite slice_from_0 by lia. change (Z.to_nat 20) with 20%nat.
  rewrite (fold_left_map_arg (fun acc p => cite acc p.1 p.2)
             (fun c => (ChunkMetadata.url (RetrievedChunk.metadata c),
                        ChunkMetadata.title (RetrievedChunk.metadata c)))).
  rewrite (fold_left_map_arg (fun acc p => cite acc p.1 p.2)
             (fun r => (SearchResult.url r, SearchResult.title r))).
  rewrite <- fold_left_app.
  destruct (cite_fold
              (map (fun c => (ChunkMetadata.url (RetrievedChunk.metadata c),
                              ChunkMetadata.title (RetrievedChunk.metadata c)))
                   (ResearchState.retrievedChunks s)
               ++ map (fun r => (SearchResult.url r, SearchResult.title r))
                   (take 20 (ResearchState.searchResults s))) [] 1)
    as (new & -> & Hids & Hu).
  simpl. split.
  - rewrite Hu. unfold Js.arrayFromSet. simpl. f_equal.
    by rewrite map_app, !map_map.
  - rewrite Hids, <- seq_shift, map_map. apply map_ext. intros i. lia.
Qed.

Lemma urlToId_fold_other (cs : list Citation.t) (m : gmap string Z) u :
  u ∉ map Citation.url cs ->
  fold_left (fun m c => <[Citation.url c := Citation.id c]> m) cs m !! u = m !! u.
Proof.
  revert m. induction cs as [|c cs IH]; intros m Hu; [done|]. simpl in *.
  apply not_elem_of_cons in Hu as [Hne Hu].
  rewrite IH by done. by rewrite lookup_insert_ne.
Qed.

Lemma urlToId_fold_lookup (cs : list Citation.t) (m : gmap string Z) c :
  NoDup (map Citation.url cs) -> c ∈ cs ->
  fold_left (fun m c => <[Citation.url c := Citation.id c]> m) cs m !! Citation.url c
  = Some (Citation.id c).
Proof.
  revert m. induction cs as [|c0 cs IH]; intros m Hnd Hc; [by apply elem_of_nil in Hc|].
  simpl in *. apply NoDup_cons in Hnd as [Hc0 Hnd].
  apply elem_of_cons in Hc as [-> | Hc]; [|by apply IH].
  rewrite urlToId_fold_other by done. by rewrite lookup_insert_eq.
Qed.

(** Every retrieved chunk finds its source in the citation map: the id
    looked up for its url is the id of the citation with that url and lies
    between 1 and the number of citations, so the prompt never shows the
    "?" placeholder. *)
Theorem prompt_source_ids_resolve (s : ResearchState.t) :
  let citations := buildCitationMap s in
  (forall chunk, chunk ∈ ResearchState.retrievedChunks s ->
     exists c,
       c ∈ citations
       /\ Citation.url c = ChunkMetadata.url (RetrievedChunk.metadata chunk)
       /\ urlToId citations !! ChunkMetadata.url (RetrievedChunk.metadata chunk)
          = Some (Citation.id c)
       /\ 1 <= Citation.id c <= Z.of_nat (length citations))
  /\ Forall is_Some (promptSourceIds s citations).
Proof.
  intros citations. destruct (buildCitationMap_shape s) as [Hurls Hids].
  fold citations in Hurls, Hids.
  assert (Hnd : NoDup (map Citation.url citations))
    by (rewrite Hurls; apply arrayFromSet_NoDup).
  assert (Hall : forall chunk, chunk ∈ ResearchState.retrievedChunks s ->
            exists c,
              c ∈ citations
              /\ Citation.url c = ChunkMetadata.url (RetrievedChunk.metadata chunk)
              /\ urlToId citations !! ChunkMetadata.url (RetrievedChunk.metadata chunk)
                 = Some (Citation.id c)
              /\ 1 <= Citation.id c <= Z.of_nat (length citations)).
  { intros chunk Hchunk.
    assert (Hin : ChunkMetadata.url (RetrievedChunk.metadata chunk)
                  ∈ map Citation.url citations).
    { rewrite Hurls. apply arrayFromSet_elem, elem_of_app. left.
      apply list_elem_of_In, in_map_iff. exists chunk. split; [done|].
      by apply list_elem_of_In. }
    apply list_elem_of_In, in_map_iff in Hin as (c & Hc & Hin%list_elem_of_In).
    exists c. split; [done|]. split; [done|]. split.
    - rewrite <- Hc. by apply urlToId_fold_lookup.
    - assert (Hid : Citation.id c ∈ map Citation.id citations).
      { apply list_elem_of_In, in_map. by apply list_elem_of_In. }
      rewrite Hids in Hid.
      apply list_elem_of_In, in_map_iff in Hid as (i & <- & Hi%in_seq). lia. }
  split; [exact Hall|].
  unfold promptSourceIds. rewrite slice_from_0 by lia.
  apply Forall_forall. intros o Ho.
  apply list_elem_of_In, in_map_iff in Ho as (chunk & <- & Hchunk%list_elem_of_In).
  destruct (Hall chunk) as (c & _ & _ & -> & _); [|done].
  eapply elem_of_sublist; [exact Hchunk | apply sublist_take].
Qed.

(** A draft is only ever written with locally computed citations and
    metadata: its citation list is that of [buildCitationMap], its source
    count is their number, its sub-query and iteration counts are those of
    the state, and only the title, summary, sections and conclusions come
    from the parsed answer of the model. *)
Theorem synthesis_overwrites_model_numbers
    (syn : Synthesizer) (s : ResearchState.t) (d : ResearchReport.t) :
  Update.draftReport (synthesisNode syn s) = Some (Some d) ->
  ResearchReport.citations d = buildCitationMap s
  /\ ReportMetadata.totalSources (ResearchReport.metadata d)
     = Z.of_nat (length (ResearchReport.citations d))
  /\ ReportMetadata.subQueriesAnswered (ResearchReport.metadata d)
     = Z.of_nat (length (ResearchState.subQueries s))
  /\ ReportMetadata.iterationCount (ResearchReport.metadata d)
     = ResearchState.iterationCount s
  /\ ReportMetadata.generatedAt (ResearchReport.metadata d) = clock syn
  /\ Update.currentNode (synthesisNode syn s) = Some NodeStatus.awaiting_human
  /\ Update.errors (synthesisNode syn s) = None
  /\ ResearchState.retrievedChunks s <> []
  /\ exists content report,
       parseModelReport syn content = Ok report
       /\ ResearchReport.title d = ResearchReport.title report
       /\ ResearchReport.executiveSummary d = ResearchReport.executiveSummary report
       /\ ResearchReport.sections d = ResearchReport.sections report
       /\ ResearchReport.conclusions d = ResearchReport.conclusions report.
Proof.
  unfold synthesisNode.
  destruct (ResearchState.retrievedChunks s) as [|c cs] eqn:Hcs; [done|].
  destruct (llmInvoke syn _) as [content|m]; [|done].
  destruct (parseModelReport syn content) as [report|m] eqn:Hparse; [|done].
  simpl. intros [= <-]. simpl. split_and!; try done.
  by exists content, report.
Qed.

Lemma synthesis_overwrites_witness :
  exists d,
    Update.draftReport
      (synthesisNode (Graph.synthesizer Sample.world) Sample.thirdDraft) = Some (Some d)
    /\ ReportMetadata.totalSources (ResearchReport.metadata d) = 1
    /\ ReportMetadata.iterationCount (ResearchReport.metadata d) = 3.
Proof.
  eexists. split; [reflexivity|].
  destruct (synthesis_overwrites_model_numbers (Graph.synthesizer Sample.world)
              Sample.thirdDraft _ eq_refl) as (_ & H1 & _ & H2 & _).
  split; [exact H1 | exact H2].
Defined.

(** ** Chunking with configured sizes *)

(** For any configured window size and overlap with 52 <= overlap < size,
    a text that splits into more words than the overlap is cut into exactly
    ceil((W - overlap) / (size - overlap)) windows. *)
Theorem chunkText_count_for_any_configuration (text : string) (chunkSize overlap : Z) :
  52 <= overlap -> overlap < chunkSize ->
  overlap < Z.of_nat (length (Js.splitWs text)) ->
  exists chunks,
    chunkText text chunkSize overlap = Some chunks
    /\ Z.of_nat (length chunks)
       = Js.ceilDiv (Z.of_nat (length (Js.splitWs text)) - overlap) (chunkSize - overlap).
Proof.
  intros Ho Hs HW.
  destruct (chunkLoop_count (Js.splitWs text) (S (length (Js.splitWs text)))
              chunkSize overlap 0 [] (splitWs_no_space text) (splitWs_emptyWords text))
    as (new & Hloop & Hcount); [lia | lia | lia | lia | lia |].
  exists new. split; [exact Hloop|]. rewrite Hcount. f_equal. lia.
Qed.

Lemma chunkText_count_witness :
  exists chunks,
    chunkText Scenario.longPage 70 60 = Some chunks /\ length chunks = 4%nat.
Proof.
  destruct (chunkText_count_for_any_configuration Scenario.longPage 70 60)
    as (chunks & Hc & Hlen); [lia | lia | by vm_compute |].
  exists chunks. split; [exact Hc|].
  assert (Hw : length (Js.splitWs Scenario.longPage) = 100%nat) by by vm_compute.
  rewrite Hw in Hlen. change (Js.ceilDiv (Z.of_nat 100 - 60) (70 - 60)) with 4 in Hlen. lia.
Defined.

(** A configuration whose overlap is not smaller than the window size makes
    [chunkText] loop forever on any text with more words than one window:
    however many times the loop condition is evaluated, the loop is not
    left. *)
Theorem chunkText_hangs_without_stride (text : string) (chunkSize overlap : Z) (fuel : nat) :
  chunkSize <= overlap ->
  chunkSize < Z.of_nat (length (Js.splitWs text)) ->
  chunkLoop fuel (Js.splitWs text) chunkSize overlap 0 [] = None.
Proof.
  intros Hs HW. apply chunkLoop_diverges; [done | done | | done].
  pose proof (splitWs_length_pos text) as Hpos.
  destruct (Js.splitWs text); [simpl in Hpos; lia | done].
Qed.

Lemma chunkText_hangs_witness :
  chunkText Scenario.longPage 50 50 = None.
Proof.
  unfold chunkText. apply chunkText_hangs_without_stride; [lia | by vm_compute].
Defined.

(** ** The search tool *)

Lemma normalize_ok env h r :
  Tavily.normalize env h = Ok r ->
  SearchResult.url r = Tavily.url h
  /\ Tavily.isUrl env (SearchResult.url r) = true
  /\ SearchResult.title r <> ""
  /\ Js.strlen (SearchResult.snippet r) <= 500
  /\ Tavily.scoreInRange (SearchResult.score r) = true.
Proof.
  unfold Tavily.normalize.
  destruct (Tavily.isUrl env (Tavily.url h) && Tavily.scoreInRange (Tavily.score h))%bool
    eqn:Hvalid; [|done].
  apply andb_true_iff in Hvalid as [Hurl Hscore].
  intros [= <-]. simpl. split_and!; try done.
  - unfold Tavily.titleOf. destruct (Tavily.title h) as [t|]; [|done]. by case_decide.
  - unfold Tavily.snippetOf, Js.strlen, Js.sliceTo. destruct (Tavily.content h) as [text|].
    + pose proof (substring_length_le 500 text). lia.
    + simpl. lia.
Qed.

Lemma normalizeAll_ok env hits results :
  Tavily.normalizeAll env hits = Ok results ->
  Forall2 (fun h r => Tavily.normalize env h = Ok r) hits results.
Proof.
  revert results. induction hits as [|h hits IH]; intros results; simpl.
  - intros [= <-]. constructor.
  - destruct (Tavily.normalize env h) as [r|m] eqn:Hh; [|done].
    destruct (Tavily.normalizeAll env hits) as [rs|m]; [|done].
    intros [= <-]. constructor; [done | by apply IH].
Qed.

Lemma normalizeAll_throws env hits h :
  h ∈ hits -> Tavily.normalize env h = Throw (Tavily.zodMessage env) ->
  Tavily.normalizeAll env hits = Throw (Tavily.zodMessage env).
Proof.
  induction hits as [|h0 hits IH]; intros Hin Hbad; [by apply elem_of_nil in Hin|].
  simpl. destruct (Tavily.normalize env h0) as [r|m] eqn:Hh0.
  - apply elem_of_cons in Hin as [-> | Hin]; [congruence|]. by rewrite IH.
  - unfold Tavily.normalize in Hh0. by destruct (_ && _)%bool; [|injection Hh0 as <-].
Qed.

(** The search tool: without an API key it fails before any request; a
    fulfilled search returns one result per entry of the response, in
    order, each with a valid url, a non-empty title, a snippet of at most
    500 characters and a score within [0, 1] when present; and a single
    entry that fails validation makes the whole search fail. *)
Theorem tavilySearch_results (env : Tavily.Env) (query : string) (maxResults : Z) :
  (Tavily.hasKey env = false ->
   Tavily.tavilySearch env query maxResults
   = Throw "TAVILY_API_KEY is not set in environment variables")
  /\ (forall results,
        Tavily.tavilySearch env query maxResults = Ok results ->
        exists hits,
          Tavily.post env query maxResults = Tavily.Json hits
          /\ map SearchResult.url results = map Tavily.url hits
          /\ Forall (fun r =>
                       Tavily.isUrl env (SearchResult.url r) = true
                       /\ SearchResult.title r <> ""
                       /\ Js.strlen (SearchResult.snippet r) <= 500
                       /\ Tavily.scoreInRange (SearchResult.score r) = true) results)
  /\ (forall hits h,
        Tavily.hasKey env = true ->
        Tavily.post env query maxResults = Tavily.Json hits ->
        h ∈ hits ->
        (Tavily.isUrl env (Tavily.url h) && Tavily.scoreInRange (Tavily.score h))%bool = false ->
        Tavily.tavilySearch env query maxResults = Throw (Tavily.zodMessage env)).
Proof.
  unfold Tavily.tavilySearch. split_and!.
  - by intros ->.
  - intros results. destruct (Tavily.hasKey env); [|done].
    destruct (Tavily.post env query maxResults) as [m|status text|hits]; [done | done |].
    intros Hall%normalizeAll_ok. exists hits. split; [done|].
    induction Hall as [|h r hits results Hh _ [IH1 IH2]]; [by split; [|constructor]|].
    destruct (normalize_ok _ _ _ Hh) as (Hurl & Hvalid). simpl. split.
    + by rewrite Hurl, IH1.
    + by constructor.
  - intros hits h -> -> Hin Hbad. apply (normalizeAll_throws env hits h Hin).
    unfold Tavily.normalize. by rewrite Hbad.
Qed.

(** ** The driver *)

Lemma substring_all n s : (String.length s <= n)%nat -> String.substring 0 n s = s.
Proof.
  revert s. induction n as [|n IH]; intros [|c s] Hlen; simpl in *; try done; [lia|].
  rewrite IH; [done | lia].
Qed.

Lemma dashRuns_slugSafe s : slugSafe (Text.dashRuns s) = true.
Proof.
  induction s as [|c s IH]; [done|]. simpl.
  destruct (Text.isSlugChar c) eqn:Hc.
  - simpl. by rewrite Hc.
  - destruct s as [|c' s']; [done|].
    destruct (Text.isSlugChar c') eqn:Hc'; [|exact IH].
    cbn [Text.dashRuns] in *. rewrite Hc' in *.
    cbn [slugSafe] in *. rewrite Hc' in *. by rewrite IH.
Qed.

Lemma slugSafe_tail c s : slugSafe (String c s) = true -> slugSafe s = true.
Proof. simpl. by intros [_ ?]%andb_true_iff. Qed.

Lemma slugSafe_substring n s :
  slugSafe s = true -> slugSafe (String.substring 0 n s) = true.
Proof.
  revert s. induction n as [|n IH]; intros [|c s] Hs; try done.
  pose proof (IH s (slugSafe_tail _ _ Hs)) as IH'.
  simpl in Hs |- *. apply andb_true_iff in Hs as [Hc _].
  rewrite IH', andb_true_r.
  destruct (Text.isSlugChar c); [done|].
  apply andb_true_iff in Hc as [-> Hnext]. simpl.
  destruct n as [|n]; destruct s as [|c' s']; done.
Qed.

Lemma slugSafe_dashRuns s : slugSafe s = true -> Text.dashRuns s = s.
Proof.
  induction s as [|c s IH]; [done|]. simpl.
  destruct (Text.isSlugChar c) eqn:Hc.
  - simpl. intros Hs. by rewrite IH.
  - intros [[Hdash Hnext]%andb_true_iff Hs]%andb_true_iff.
    apply Ascii.eqb_eq in Hdash as ->.
    destruct s as [|c' s']; [done|]. rewrite Hnext. by rewrite IH.
Qed.

Lemma slugChar_lower c :
  (Text.isSlugChar c || Ascii.eqb c "-")%bool = true -> Text.lowerChar c = c.
Proof.
  unfold Text.isSlugChar, Text.lowerChar.
  intros H. apply orb_true_iff in H as [H|H].
  - destruct (Nat.leb 65 (nat_of_ascii c) && Nat.leb (nat_of_ascii c) 90)%bool eqn:Hup;
      [|done].
    apply andb_true_iff in Hup as [H1%Nat.leb_le H2%Nat.leb_le].
    apply orb_true_iff in H as [H|H];
      apply andb_true_iff in H as [H3%Nat.leb_le H4%Nat.leb_le]; lia.
  - apply Ascii.eqb_eq in H. by subst c.
Qed.

Lemma slugSafe_toLowerCase s : slugSafe s = true -> Text.toLowerCase s = s.
Proof.
  induction s as [|c s IH]; [done|]. intros Hs.
  simpl. rewrite (IH (slugSafe_tail _ _ Hs)). f_equal.
  apply slugChar_lower. simpl in Hs. apply andb_true_iff in Hs as [Hc _].
  destruct (Text.isSlugChar c); [done|]. by apply andb_true_iff in Hc as [-> _].
Qed.

(** The file-name slug of a report title has at most 50 characters, all of
    them lower-case letters, digits or dashes with no two dashes in a row;
    and the slug of a slug is the slug itself. *)
Theorem slug_is_file_name_safe (title : string) :
  Js.strlen (Main.slug title) <= 50
  /\ slugSafe (Main.slug title) = true
  /\ Main.slug (Main.slug title) = Main.slug title.
Proof.
  unfold Main.slug, Js.sliceTo, Js.strlen.
  pose proof (substring_length_le 50 (Text.dashRuns (Text.toLowerCase title))) as Hlen.
  pose proof (slugSafe_substring 50 _ (dashRuns_slugSafe (Text.toLowerCase title))) as Hsafe.
  split_and!; [lia | done |].
  rewrite (slugSafe_toLowerCase _ Hsafe), (slugSafe_dashRuns _ Hsafe).
  by apply substring_all.
Qed.

Lemma no_draft_state_persists s :
  ResearchState.draftReport s = None ->
  ResearchState.finalReport s = None ->
  feedbackApproved (ResearchState.humanFeedback s) = false ->
  let s' := objectAssign s (errorUpdate "No draft report available for review" NodeStatus.error) in
  ResearchState.draftReport s' = None
  /\ ResearchState.finalReport s' = None
  /\ feedbackApproved (ResearchState.humanFeedback s') = false
  /\ ResearchState.currentNode s' = NodeStatus.error.
Proof. by intros. Qed.

(** When the first pass ends without a draft (for instance after a failed
    synthesis) and no approval is on record, the driver's review loop never
    ends: each turn the review stage fails at once without reading input,
    the marker becomes [error], the graph is not resumed, and the loop
    condition still holds. *)
Theorem review_loop_spins_without_draft
    (fuel : nat) (now : string) (typed : nat -> list string)
    (resume : ResearchState.t -> Result ResearchState.t) (k : nat) (s : ResearchState.t) :
  ResearchState.draftReport s = None ->
  ResearchState.finalReport s = None ->
  ResearchState.currentNode s <> NodeStatus.complete ->
  feedbackApproved (ResearchState.humanFeedback s) = false ->
  Main.reviewLoop fuel now typed resume k s = None.
Proof.
  revert k s. induction fuel as [|fuel IH]; intros k s Hd Hf Hc Ha; [done|].
  assert (Hnc : Main.isComplete (ResearchState.currentNode s) = false)
    by by destruct (ResearchState.currentNode s).
  assert (Hrev : humanReviewNode now (typed k) s
                 = Returned (errorUpdate "No draft report available for review"
                               NodeStatus.error)).
  { destruct (typed k); simpl; by rewrite Hd. }
  destruct (no_draft_state_persists s Hd Hf Ha) as (Hd' & Hf' & Ha' & Hc').
  cbn [Main.reviewLoop]. rewrite Hnc, Hf, Hrev. cbn [negb andb]. rewrite bool_decide_eq_true_2 by done.
  cbv zeta. rewrite Ha', Hc'. cbn [Main.isComplete Main.isReasoning orb].
  apply IH; [done | done | by rewrite Hc' | done].
Qed.

Lemma review_loop_spins_witness :
  Main.reviewLoop 1000 Sample.now (fun _ => Sample.rejection)
    (fun s => Ok s) 0 Sample.question = None.
Proof. by apply review_loop_spins_without_draft. Defined.

(** ** The vector store tool *)

Lemma imap_index_seq {A B : Type} (g : nat -> B) (l : list A) :
  imap (fun i _ => g i) l = map g (seq 0 (length l)).
Proof.
  revert g. induction l as [|x l IH]; intros g; [done|].
  simpl. f_equal. unfold compose. rewrite (IH (fun i => g (S i))).
  by rewrite <- seq_shift, map_map.
Qed.

Lemma requestFor_built sv subQueryId page drawn embeddingVectors chunk chunks :
  Store.skipped page = false ->
  chunkText (ScrapedContent.content page) CHUNK_SIZE CHUNK_OVERLAP = Some (chunk :: chunks) ->
  requestFor subQueryId page
    {| Store.ids := Store.chunkIds sv drawn (chunk :: chunks);
       Store.embeddings := embeddingVectors;
       Store.documents := chunk :: chunks;
       Store.metadatas := Store.chunkMetadatas page subQueryId (chunk :: chunks) |}.
Proof.
  intros Hskip Hchunks. unfold requestFor. cbn [Store.ids Store.documents Store.metadatas].
  split_and!; try done.
  - unfold Store.chunkIds. by rewrite length_imap.
  - unfold Store.chunkMetadatas.
    rewrite (imap_index_seq (fun i => {| ChunkMetadata.url := ScrapedContent.url page;
                                         ChunkMetadata.title := ScrapedContent.title page;
                                         ChunkMetadata.subQueryId := subQueryId;
                                         ChunkMetadata.chunkIndex := Z.of_nat i |})).
    by rewrite map_map.
  - unfold Store.chunkMetadatas.
    rewrite (imap_index_seq (fun i => {| ChunkMetadata.url := ScrapedContent.url page;
                                         ChunkMetadata.title := ScrapedContent.title page;
                                         ChunkMetadata.subQueryId := subQueryId;
                                         ChunkMetadata.chunkIndex := Z.of_nat i |})).
    apply Forall_forall. intros m [i [<- _]]%list_elem_of_In%in_map_iff. done.
Qed.

Lemma storeLoop_spec sv subQueryId pages :
  forall drawn sent storedIds,
  exists new r,
    Store.storeLoop sv subQueryId pages drawn sent storedIds = Some (sent ++ new, r)
    /\ Forall (fun request => exists page, page ∈ pages /\ requestFor subQueryId page request) new
    /\ (forall ids, r = Ok ids ->
          ids = storedIds ++ concat (map Store.ids new)
          /\ map Store.documents new = chunksToStore pages).
Proof.
  induction pages as [|page rest IH]; intros drawn sent storedIds.
  - exists [], (Ok storedIds). rewrite !app_nil_r. split_and!; [done | constructor |].
    by intros ids [= <-].
  - cbn [Store.storeLoop]. unfold chunksToStore. cbn [List.filter map].
    destruct (Store.skipped page) eqn:Hskip; cbn [negb].
    { destruct (IH drawn sent storedIds) as (new & r & -> & Hall & Hok).
      exists new, r. split_and!; [done | | done].
      eapply Forall_impl; [exact Hall|]. intros request (p & Hp & Hreq).
      exists p. split; [by right | done]. }
    cbn [List.filter map].
    destruct (chunkText_terminates (ScrapedContent.content page) CHUNK_SIZE CHUNK_OVERLAP)
      as [textChunks Hchunks]; [by unfold CHUNK_SIZE, CHUNK_OVERLAP|].
    rewrite Hchunks. cbn [default]. destruct textChunks as [|chunk chunks].
    { cbn [bool_decide decide_rel negb]. rewrite bool_decide_eq_true_2 by done. cbn [negb].
      destruct (IH drawn sent storedIds) as (new & r & -> & Hall & Hok).
      exists new, r. split_and!; [done | | done].
      eapply Forall_impl; [exact Hall|]. intros request (p & Hp & Hreq).
      exists p. split; [by right | done]. }
    rewrite bool_decide_eq_false_2 by done. cbn [negb].
    destruct (Store.embedDocuments sv (chunk :: chunks)) as [embeddingVectors|m].
    2:{ exists [], (Throw m). rewrite app_nil_r. split_and!; [done | constructor | done]. }
    cbv zeta.
    set (request := {| Store.ids := Store.chunkIds sv drawn (chunk :: chunks);
                       Store.embeddings := embeddingVectors;
                       Store.documents := chunk :: chunks;
                       Store.metadatas :=
                         Store.chunkMetadatas page subQueryId (chunk :: chunks) |}).
    assert (Hreq : exists p, p ∈ page :: rest /\ requestFor subQueryId p request).
    { exists page. split; [by left | by apply requestFor_built]. }
    destruct (Store.add sv request) as [[]|m].
    2:{ exists [request], (Throw m). split_and!; [done | by constructor | done]. }
    destruct (IH (drawn + length (chunk :: chunks))%nat (sent ++ [request])
                (storedIds ++ Store.ids request)) as (new & r & -> & Hall & Hok).
    exists (request :: new), r. split_and!.
    + by rewrite <- app_assoc.
    + constructor; [done|].
      eapply Forall_impl; [exact Hall|]. intros request' (p & Hp & Hreq').
      exists p. split; [by right | done].
    + intros ids Hr. destruct (Hok ids Hr) as [-> Hdocs]. split.
      * by rewrite <- app_assoc.
      * cbn [map]. by rewrite Hdocs.
Qed.

(** [storeInVectorDB] always returns with the default chunking.  Every
    request it sends to the collection is for one of the given pages that
    is not skipped, holds that page's chunks (at least one) with one id and
    one metadata record per chunk, the records carrying the page's url and
    title, the sub-query id and the chunk's position.  When it fulfils, the
    ids returned are those of the requests sent, in order, and exactly the
    pages that are not skipped and give a chunk were sent, each once and in
    the order given. *)
Theorem storeInVectorDB_requests
    (sv : Store.Services) (scrapedContent : list ScrapedContent.t) (subQueryId : string) :
  exists sent r,
    Store.storeInVectorDB sv scrapedContent subQueryId = Some (sent, r)
    /\ Forall (fun request =>
                 exists page, page ∈ scrapedContent /\ requestFor subQueryId page request) sent
    /\ (forall ids, r = Ok ids ->
          ids = concat (map Store.ids sent)
          /\ map Store.documents sent = chunksToStore scrapedContent).
Proof.
  unfold Store.storeInVectorDB.
  destruct (Store.getCollection sv) as [[]|m].
  2:{ exists [], (Throw m). split_and!; [done | constructor | done]. }
  destruct (Store.getEmbeddings sv) as [[]|m].
  2:{ exists [], (Throw m). split_and!; [done | constructor | done]. }
  destruct (storeLoop_spec sv subQueryId scrapedContent 0%nat [] []) as (new & r & Hrun & Hall & Hok).
  exists new, r. split_and!; [done | done | exact Hok].
Qed.

(** ** The search stage over the search tool *)

Lemma searchLoop_all_rejected executeSearch existingUrls prioritized :
  (forall query maxResults, exists m, executeSearch query maxResults = Throw m) ->
  searchLoop executeSearch existingUrls prioritized = [].
Proof.
  intros Hfail. unfold searchLoop.
  assert (Hfold : fold_left (searchStep executeSearch) prioritized (existingUrls, [])
                  = (existingUrls, [])); [|by rewrite Hfold].
  generalize (existingUrls, @nil SearchResult.t) as acc.
  induction prioritized as [|subQuery rest IH]; intros acc; [done|].
  simpl. rewrite <- (IH acc) at 2. f_equal.
  unfold searchStep. destruct acc as [urls results].
  by destruct (Hfail (SubQuery.query subQuery) MAX_RESULTS_PER_QUERY) as [m ->].
Qed.

(** Without an API key the search tool is never reached, yet the search
    stage does not report it: every search is rejected, the stage returns
    an empty result list and no error message, and hands over to scraping. *)
Theorem search_stage_hides_missing_key
    (env : Tavily.Env) (defaultMax : Z) (state : ResearchState.t) :
  Tavily.hasKey env = false ->
  ResearchState.subQueries state <> [] ->
  let update :=
    searchNode (fun query maxResults =>
                  Tavily.executeSearch env defaultMax query (Some maxResults)) state in
  Update.searchResults update = Some []
  /\ Update.errors update = None
  /\ Update.currentNode update = Some NodeStatus.scraping.
Proof.
  intros Hkey Hsub update. subst update. unfold searchNode.
  destruct (ResearchState.subQueries state) as [|subQuery rest] eqn:Hqs; [done|].
  cbv zeta. rewrite searchLoop_all_rejected; [done|].
  intros query maxResults. unfold Tavily.executeSearch, Tavily.tavilySearch.
  rewrite Hkey. by eexists.
Qed.

Lemma search_stage_hides_missing_key_witness :
  Update.searchResults
    (searchNode (fun query maxResults =>
                   Tavily.executeSearch Scenario.noKey 5 query (Some maxResults))
       Sample.revising) = Some [].
Proof.
  by destruct (search_stage_hides_missing_key Scenario.noKey 5 Sample.revising) as (H & _).
Defined.
